(** * A model of [assets/universal-ajax-cart.js]

    The script installs two document-level listeners (form [submit] and
    [click]) that turn "add to cart" interactions into a POST to
    [/cart/add.js], then re-read [/cart.js], patch the count displays and the
    header badge, re-render the cart drawer and open it.

    The development has four layers:
    - [JavaScript values]: the coercions the script relies on ([||], [!],
      [String], [parseInt], [String.prototype.includes]);
    - [The page]: the DOM as a tree of element identities over a store of
      element records, with the selectors and mutations the script uses;
    - [The handler]: one definition per method of [UniversalCartHandler],
      written in a state-and-exception monad over the page;
    - [The script]: the window with the listeners registered on the
      document, the body of the script, and the dispatch of an event to the
      listeners.

    Asynchrony is modelled by running each pipeline to completion: an
    [await] is the point where the server's answer is read, and no other task
    is interleaved between the steps of one pipeline.

    What the model takes from the platform, and where it stops:
    - strings are sequences of code units below 256, and an [item_count]
      that is a number is an integer;
    - the parsers of the browser (of a section, of the string given to
      [innerHTML], of the text of a [style] attribute) and the test
      [setAttribute] makes of a name are parameters of the surroundings:
      nothing is assumed of them;
    - [document.body] exists, and the target of a click is an element;
    - [x.click()] is recorded as an event; what the page's own code does in
      reaction to the handler (the listeners of that click, the reactions
      of a custom element to its new children and attributes) is not
      followed. *)

From stdpp Require Import gmap strings list pretty.
From Stdlib Require Import ZArith Ascii String.

Set Warnings "-register-all".

Open Scope string_scope.
Open Scope Z_scope.
Open Scope list_scope.

(** ** JavaScript values *)

(** The values that flow through the handler: what [FormData.get] and
    [getAttribute] return ([null], a string, a [File]) and the number literal
    [1]. Strings are sequences of code units below 256. *)
Inductive value :=
| VNull
| VStr (s : string)
| VNum (z : Z)
| VFile.

(** A Number produced by [parseInt]: [NaN], an integer that is the value of
    a double, or an infinity. *)
Inductive number :=
| NaN
| Num (z : Z)
| Infinity (negative : bool).

(** The Number value of a mathematical integer: the nearest double, a tie
    going to the even significand of 53 bits, and an infinity from [2^1024]
    on. Up to [2^53] every integer is its own Number value. *)
Definition to_number (m : Z) : number :=
  let a := Z.abs m in
  let shift := Z.log2 a - 52 in
  if shift <=? 0 then Num m
  else
    let q := Z.shiftr a shift in
    let r := a - Z.shiftl q shift in
    let half := Z.shiftl 1 (shift - 1) in
    let q' := if (half <? r) || ((r =? half) && Z.odd q) then q + 1 else q in
    let v := Z.shiftl q' shift in
    if 2 ^ 1024 <=? v then Infinity (m <? 0)
    else Num (if m <? 0 then - v else v).
Arguments to_number : simpl never.

(** What [cart.item_count] can be, as [updateCartCount] receives it:
    [undefined] when the cart has no such property, [null], or a number,
    which the storefront gives as an integer. A count that is not [null] is
    also written as an option, [None] for [undefined]. *)
Inductive count_value :=
| Undefined
| Null
| Count (n : Z).

Definition of_option (count : option Z) : count_value :=
  match count with
  | Some n => Count n
  | None => Undefined
  end.
#[warning="-uniform-inheritance"]
Coercion of_option : option >-> count_value.

(** ToBoolean. *)
Definition truthy (v : value) : bool :=
  match v with
  | VNull => false
  | VStr s => negb (String.eqb s "")
  | VNum z => negb (z =? 0)
  | VFile => true
  end.

(** [a || b]. *)
Definition js_or (a b : value) : value := if truthy a then a else b.

(** ToString; an integer prints in decimal (below [10^21]). *)
Definition ToString (v : value) : string :=
  match v with
  | VNull => "null"
  | VStr s => s
  | VNum z => pretty z
  | VFile => "[object File]"
  end.

(** StrWhiteSpaceChar, for code units below 256: TAB, LF, VT, FF, CR, SP and
    NBSP. *)
Definition is_white_space (c : ascii) : bool :=
  let n := N_of_ascii c in
  ((9 <=? n) && (n <=? 13) || (n =? 32) || (n =? 160))%N.

Fixpoint trim_start (s : string) : string :=
  match s with
  | String c r => if is_white_space c then trim_start r else s
  | EmptyString => s
  end.

(** The value of [c] as a digit of the given radix, if it is one. *)
Definition digit_value (radix : Z) (c : ascii) : option Z :=
  let n := Z.of_N (N_of_ascii c) in
  let d :=
    if (48 <=? n) && (n <=? 57) then Some (n - 48)
    else if (97 <=? n) && (n <=? 122) then Some (n - 87)
    else if (65 <=? n) && (n <=? 90) then Some (n - 55)
    else None in
  match d with
  | Some v => if v <? radix then Some v else None
  | None => None
  end.

(** The longest prefix of radix digits, read as an integer; [acc] is [None]
    until a digit has been seen. *)
Fixpoint leading_digits (radix : Z) (s : string) (acc : option Z) : option Z :=
  match s with
  | String c r =>
      match digit_value radix c with
      | Some d => leading_digits radix r (Some (radix * default 0 acc + d))
      | None => acc
      end
  | EmptyString => acc
  end.

(** [parseInt(string)] with no radix argument, on the string itself:
    leading white space is dropped, then an optional sign, then an optional
    [0x]/[0X] prefix switches to radix 16; the result is [NaN] when no digit
    follows, and otherwise the Number value of the integer the digits
    denote. (The language lets an engine read the decimal digits after the
    twentieth as zeros; the engines read them all, and so does the model.) *)
Definition parse_int_string (s : string) : number :=
  let s1 := trim_start s in
  let '(negative, s2) :=
    match s1 with
    | String "-" r => (true, r)
    | String "+" r => (false, r)
    | _ => (false, s1)
    end in
  let '(radix, s3) :=
    match s2 with
    | String "0" (String "x" r) => (16, r)
    | String "0" (String "X" r) => (16, r)
    | _ => (10, s2)
    end in
  match leading_digits radix s3 None with
  | Some m => to_number (if negative then - m else m)
  | None => NaN
  end.

(** [parseInt(v)]: the argument is first converted with ToString. *)
Definition parseInt (v : value) : number := parse_int_string (ToString v).

(** [s.includes(sub)]. *)
Fixpoint includes (s sub : string) : bool :=
  String.prefix sub s ||
  match s with
  | String _ r => includes r sub
  | EmptyString => false
  end.

(** ** The page *)

(** An element's own data. [attrs] are its content attributes other than
    [style] ([class] and [disabled] among them, which the [className] and
    [disabled] properties reflect). [style] is its [style] attribute, as the
    declaration block it holds, each value with its [!important] flag: the
    attribute and the element's [style] property are two views of that one
    block, so that writing either is writing [style]. *)
Record element := Element {
  tag : string;
  attrs : gmap string string;
  style : gmap string (string * bool);
}.

(** The shape of the document: text nodes and elements, an element being
    named by its identity in the store. *)
Inductive dtree :=
| TextNode (data : string)
| Node (id : nat) (children : list dtree).

(** Parsed markup, before it belongs to a document: what the parser builds
    from the string given to [innerHTML]. An element comes with its
    attributes other than [style] and with the declaration block of its
    [style] attribute. *)
Inductive hnode :=
| HText (data : string)
| HElem (htag : string) (hattrs : gmap string string)
    (hstyle : gmap string (string * bool)) (hchildren : list hnode).

(** The element [doc.querySelector('cart-element')] finds in the parsed
    section, as the merge reads it: [Array.from(newCartElement.attributes)],
    the names and values of its attributes in their order ([style] among
    them, as text), and [newCartElement.innerHTML], the serialisation of its
    children. *)
Record fragment := Fragment {
  frag_attrs : list (string * string);
  frag_innerHTML : string;
}.

(** The request handed to [fetch]. *)
Record payload := Payload {
  payload_id : value;
  payload_quantity : number;
}.

Record request := Request {
  url : string;
  method : string;
  headers : list (string * string);
  body : option payload;
}.

(** The exceptions the handler can meet: the [Error] it constructs, the
    rejection of a [fetch], the [SyntaxError] of a body that is not JSON, the
    [TypeError] of reading a property of [null] and that of calling what is
    not a function, and the [InvalidCharacterError] of [setAttribute]. *)
Inductive error :=
| Error (message : string)
| FetchRejected
| JsonSyntaxError
| NullPropertyError
| NotAFunction
| InvalidCharacterError.

(** What the page's surroundings can observe of a run, in order.
    [Click x] is the call [x.click()]: what the page then does with the
    click (its own listeners, the navigation of a link) is not part of the
    run. *)
Inductive event :=
| PreventDefault
| StopPropagation
| ConsoleError (label : string) (reason : option error)
| Fetch (r : request)
| Click (target : nat).

(** The closure given to [setTimeout] by the quick-add path. *)
Inductive callback :=
| QuickAddReset (element button : nat).

(** The page: the document tree, the store of every element created so far
    (attached or not), [document.body], [window.location.origin], the events
    so far and the pending timers (delay in milliseconds). *)
Record page := Page {
  tree : dtree;
  store : gmap nat element;
  body_id : nat;
  origin : string;
  trace : list event;
  timers : list (Z * callback);
}.

Definition set_tree (t : dtree) (p : page) : page :=
  Page t (store p) (body_id p) (origin p) (trace p) (timers p).
Definition set_store (h : gmap nat element) (p : page) : page :=
  Page (tree p) h (body_id p) (origin p) (trace p) (timers p).
Definition emit (e : event) (p : page) : page :=
  Page (tree p) (store p) (body_id p) (origin p) (trace p ++ [e]) (timers p).
Definition add_timer (delay : Z) (cb : callback) (p : page) : page :=
  Page (tree p) (store p) (body_id p) (origin p) (trace p) (timers p ++ [(delay, cb)]).

(** *** Document order *)

(** The elements of a tree in document order, each with its ancestors,
    nearest first. *)
Fixpoint walk (anc : list nat) (t : dtree) : list (nat * list nat) :=
  match t with
  | TextNode _ => []
  | Node i kids => (i, anc) :: flat_map (walk (i :: anc)) kids
  end.

Definition walk_forest (anc : list nat) (l : list dtree) : list (nat * list nat) :=
  flat_map (walk anc) l.

(** The identities of the elements of a tree, in document order. *)
Definition ids (t : dtree) : list nat := map fst (walk [] t).

(** The first subtree rooted at element [x]. *)
Fixpoint find_subtree (x : nat) (t : dtree) : option dtree :=
  match t with
  | TextNode _ => None
  | Node i kids =>
      if decide (i = x) then Some t
      else (fix first (l : list dtree) : option dtree :=
              match l with
              | [] => None
              | k :: r => match find_subtree x k with Some s => Some s | None => first r end
              end) kids
  end.

(** The text of a subtree: its text nodes, concatenated in order. *)
Fixpoint text_of (t : dtree) : string :=
  match t with
  | TextNode s => s
  | Node _ kids => fold_right (fun k acc => text_of k +:+ acc) "" kids
  end.

(** Rewrites the child list of element [x]. *)
Fixpoint with_children (x : nat) (f : list dtree -> list dtree) (t : dtree) : dtree :=
  match t with
  | TextNode _ => t
  | Node i kids =>
      if decide (i = x) then Node i (f kids)
      else Node i (map (with_children x f) kids)
  end.

(** *** Selectors *)

(** The selectors the script uses: compounds of simple tests, alone or
    under a descendant combinator. *)
Inductive simple :=
| IsTag (t : string)
| HasClass (c : string)
| HasAttr (name : string)
| AttrIs (name val : string).

Inductive selector :=
| Compound (c : list simple)
| Descendant (outer inner : list simple).

Definition is_class_space (c : ascii) : bool :=
  let n := N_of_ascii c in
  ((n =? 9) || (n =? 10) || (n =? 12) || (n =? 13) || (n =? 32))%N.

(** The tokens of a [class] attribute; [cur] is the token being read. *)
Fixpoint class_tokens_go (s : string) (cur : string) : list string :=
  match s with
  | EmptyString => if String.eqb cur "" then [] else [cur]
  | String c r =>
      if is_class_space c
      then (if String.eqb cur "" then class_tokens_go r "" else cur :: class_tokens_go r "")
      else class_tokens_go r (cur +:+ String c "")
  end.

Definition class_tokens (s : string) : list string := class_tokens_go s "".

Definition matches_simple (e : element) (s : simple) : bool :=
  match s with
  | IsTag t => String.eqb (tag e) t
  | HasClass c =>
      match attrs e !! "class" with
      | Some v => bool_decide (c ∈ class_tokens v)
      | None => false
      end
  | HasAttr n => bool_decide (is_Some (attrs e !! n))
  | AttrIs n v => bool_decide (attrs e !! n = Some v)
  end.

Definition matches_compound (h : gmap nat element) (c : list simple) (i : nat) : bool :=
  match h !! i with
  | Some e => forallb (matches_simple e) c
  | None => false
  end.

Definition matches (h : gmap nat element) (sel : selector) (e : nat * list nat) : bool :=
  match sel with
  | Compound c => matches_compound h c (fst e)
  | Descendant outer inner =>
      matches_compound h inner (fst e) && existsb (matches_compound h outer) (snd e)
  end.

(** [document.querySelectorAll(sel)] and [document.querySelector(sel)]. *)
Definition select_all (p : page) (sel : selector) : list nat :=
  map fst (filter (fun e => matches (store p) sel e) (walk [] (tree p))).

Definition select (p : page) (sel : selector) : option nat :=
  head (select_all p sel).

(** [x.querySelectorAll(sel)] and [x.querySelector(sel)]: the matches among
    the descendants of [x]. *)
Definition select_all_in (p : page) (x : nat) (sel : selector) : list nat :=
  map fst (filter (fun e => bool_decide (x ∈ snd e) && matches (store p) sel e)
                  (walk [] (tree p))).

Definition select_in (p : page) (x : nat) (sel : selector) : option nat :=
  head (select_all_in p x sel).

(** The ancestors of an attached element, nearest first; none for an element
    that is not in the document. *)
Definition ancestors (p : page) (x : nat) : list nat :=
  match find (fun e => bool_decide (fst e = x)) (walk [] (tree p)) with
  | Some e => snd e
  | None => []
  end.

(** [x.closest(sel)]: [x] itself or its nearest ancestor that matches. *)
Fixpoint closest_in (h : gmap nat element) (sel : selector) (chain : list nat) : option nat :=
  match chain with
  | [] => None
  | i :: up => if matches h sel (i, up) then Some i else closest_in h sel up
  end.

Definition closest (p : page) (x : nat) (sel : selector) : option nat :=
  closest_in (store p) sel (x :: ancestors p x).

(** *** Reading and writing elements *)

(** [x.getAttribute(name)], for a name other than [style]. *)
Definition getAttribute (p : page) (x : nat) (name : string) : option string :=
  e ← store p !! x; attrs e !! name.

Definition get_style (p : page) (x : nat) (prop : string) : option (string * bool) :=
  e ← store p !! x; style e !! prop.

(** [x.textContent]. *)
Definition textContent (p : page) (x : nat) : option string :=
  text_of <$> find_subtree x (tree p).

Definition on_element (x : nat) (f : element -> element) (p : page) : page :=
  set_store (alter f x (store p)) p.

(** [x.setAttribute(name, v)] and [x.removeAttribute(name)], for a name
    that is a valid attribute name and is not [style], as the names the
    script writes out are. *)
Definition setAttribute (x : nat) (name v : string) : page -> page :=
  on_element x (fun e => Element (tag e) (<[name := v]> (attrs e)) (style e)).

Definition removeAttribute (x : nat) (name : string) : page -> page :=
  on_element x (fun e => Element (tag e) (delete name (attrs e)) (style e)).

(** [x.disabled = b], a boolean attribute reflected by the property. *)
Definition set_disabled (x : nat) (b : bool) : page -> page :=
  if b then setAttribute x "disabled" "" else removeAttribute x "disabled".

Definition is_disabled (p : page) (x : nat) : bool :=
  bool_decide (is_Some (getAttribute p x "disabled")).

(** [x.style.prop = v]: the declaration is set, without [!important]. *)
Definition set_style (x : nat) (prop v : string) : page -> page :=
  on_element x (fun e => Element (tag e) (attrs e) (<[prop := (v, false)]> (style e))).

(** [x.style.cssText = ...]: the whole block is replaced. *)
Definition set_cssText (x : nat) (decls : list (string * (string * bool))) : page -> page :=
  on_element x (fun e => Element (tag e) (attrs e) (list_to_map decls)).

(** [x.setAttribute('style', v)], given the block [v] is parsed to: the
    whole block is replaced. *)
Definition set_declarations (x : nat) (block : gmap string (string * bool)) : page -> page :=
  on_element x (fun e => Element (tag e) (attrs e) block).

(** [document.createElement(t)]: a new element, not yet in the tree. *)
Definition createElement (t : string) (p : page) : nat * page :=
  let i := fresh (dom (store p)) in
  (i, set_store (<[i := Element t ∅ ∅]> (store p)) p).

(** [parent.appendChild(child)] for a [child] that has no children yet. *)
Definition appendChild (parent child : nat) (p : page) : page :=
  set_tree (with_children parent (fun kids => (kids ++ [Node child []])) (tree p)) p.

(** [x.textContent = s]: the children are replaced by one text node, or by
    nothing when [s] is empty. *)
Definition text_children (s : string) : list dtree :=
  if String.eqb s "" then [] else [TextNode s].

Definition set_textContent (x : nat) (s : string) (p : page) : page :=
  set_tree (with_children x (fun _ => text_children s) (tree p)) p.

(** Markup becomes part of the document: every element gets a new identity
    in the store. *)
Fixpoint instantiate (h : gmap nat element) (n : hnode) : dtree * gmap nat element :=
  match n with
  | HText s => (TextNode s, h)
  | HElem t a s kids =>
      let i := fresh (dom h) in
      let '(ks, h') :=
        (fix forest (l : list hnode) (h0 : gmap nat element) : list dtree * gmap nat element :=
           match l with
           | [] => ([], h0)
           | k :: r =>
               let '(t1, h1) := instantiate h0 k in
               let '(ts, h2) := forest r h1 in
               (t1 :: ts, h2)
           end) kids (<[i := Element t a s]> h) in
      (Node i ks, h')
  end.

Fixpoint instantiate_forest (h : gmap nat element) (l : list hnode) : list dtree * gmap nat element :=
  match l with
  | [] => ([], h)
  | k :: r =>
      let '(t1, h1) := instantiate h k in
      let '(ts, h2) := instantiate_forest h1 r in
      (t1 :: ts, h2)
  end.

(** The parsed markup a subtree of the document is an instance of. *)
Fixpoint markup (h : gmap nat element) (t : dtree) : hnode :=
  match t with
  | TextNode s => HText s
  | Node i kids =>
      match h !! i with
      | Some e => HElem (tag e) (attrs e) (style e) (map (markup h) kids)
      | None => HElem "" ∅ ∅ (map (markup h) kids)
      end
  end.

(** The children of [x], as the parsed markup they are an instance of. *)
Definition inner_markup (p : page) (x : nat) : option (list hnode) :=
  match find_subtree x (tree p) with
  | Some (Node _ kids) => Some (map (markup (store p)) kids)
  | _ => None
  end.

(** [x.innerHTML = html], given what the parser builds from [html] inside
    [x]: the children of [x] are replaced by new nodes. *)
Definition set_innerHTML (x : nat) (inner : list hnode) (p : page) : page :=
  let '(kids, h) := instantiate_forest (store p) inner in
  set_store h (set_tree (with_children x (fun _ => kids) (tree p)) p).

(** A well-formed page: every element of the tree occurs once and is in the
    store. *)
Definition well_formed (p : page) : Prop :=
  NoDup (ids (tree p)) /\ forall i, i ∈ ids (tree p) -> i ∈ dom (store p).

(** ** The surroundings *)

(** A JSON body as the handler reads it: [null], or anything else seen
    through the two properties the handler asks for: [item_count], and
    ['cart-drawer'], the string that reaches the parser, or [None] when the
    property is absent, [null] or another falsy value that is not a string,
    which the handler does not tell apart. *)
Inductive json :=
| JNull
| JObject (item_count : count_value) (cart_drawer : option string).

(** The outcome of a [fetch]: rejected, or a response with its [ok] flag and
    its body ([None] when the body is not JSON). *)
Inductive response :=
| NetworkFailure
| Response (ok : bool) (json_body : option json).

(** The world outside the page. The storefront answers a request knowing
    the events so far. The rest is the browser: [DOMParser] followed by
    [querySelector('cart-element')]; the parser behind the [innerHTML] of a
    [cart-element] of the page, which need not build from a serialisation
    the nodes it was written from; the parser of the text of a [style]
    attribute; and the test [setAttribute] makes of a name, which a name
    read from markup need not pass (the parser lets [=x] through). *)
Record env := Env {
  server : list event -> request -> response;
  parse_cart_element : string -> option fragment;
  parse_inner : string -> list hnode;
  parse_style : string -> gmap string (string * bool);
  valid_name : string -> bool;
}.

(** A form whose [action] property is the address it submits to, and its
    entry list, as [new FormData(form)] sees it. *)
Record form := Form {
  action : string;
  fields : list (string * value);
}.

(** The target of a [submit] event, as the listener reads its [action]
    property: a form, for which it is the address; a form that has a control
    named [action], for which it is that control; or an element that has no
    such property. A form is also written for the target it is. *)
Inductive submit_target :=
| FormTarget (f : form)
| ShadowedForm
| NotAForm.
Coercion FormTarget : form >-> submit_target.

(** [formData.get(name)]. *)
Fixpoint form_get (entries : list (string * value)) (name : string) : value :=
  match entries with
  | [] => VNull
  | (n, v) :: r => if String.eqb n name then v else form_get r name
  end.

(** ** The handler *)

(** Computations over the page that may throw. *)
Inductive result (A : Type) :=
| Ok (a : A)
| Thrown (e : error).
Arguments Ok {A} a.
Arguments Thrown {A} e.

Definition M (A : Type) : Type := page -> result A * page.

#[global] Instance M_ret : MRet M := fun A a p => (Ok a, p).
#[global] Instance M_bind : MBind M := fun A B f m p =>
  match m p with
  | (Ok a, p') => f a p'
  | (Thrown e, p') => (Thrown e, p')
  end.

Definition throw {A : Type} (e : error) : M A := fun p => (Thrown e, p).

(** [try { m } catch (error) { handler error }]. *)
Definition try_catch {A : Type} (m : M A) (handler : error -> M A) : M A := fun p =>
  match m p with
  | (Ok a, p') => (Ok a, p')
  | (Thrown e, p') => handler e p'
  end.

Definition gets {A : Type} (f : page -> A) : M A := fun p => (Ok (f p), p).
Definition modify (f : page -> page) : M unit := fun p => (Ok tt, f p).

Definition console_error (label : string) (reason : option error) : M unit :=
  modify (emit (ConsoleError label reason)).

(** [await fetch(...)]. *)
Definition fetch (w : env) (r : request) : M (bool * option json) := fun p =>
  match server w (trace p) r with
  | NetworkFailure => (Thrown FetchRejected, emit (Fetch r) p)
  | Response ok b => (Ok (ok, b), emit (Fetch r) p)
  end.

(** [await response.json()]. *)
Definition response_json (r : bool * option json) : M json :=
  match snd r with
  | Some j => mret j
  | None => throw JsonSyntaxError
  end.

(** [cart.item_count] and [data['cart-drawer']]: reading a property of
    [null] throws. *)
Definition get_item_count (j : json) : M count_value :=
  match j with
  | JNull => throw NullPropertyError
  | JObject c _ => mret c
  end.

Definition get_cart_drawer (j : json) : M (option string) :=
  match j with
  | JNull => throw NullPropertyError
  | JObject _ d => mret d
  end.

(** The selectors of the script. *)
Definition sel_quick_add : selector :=
  Compound [IsTag "product-quick-add"; AttrIs "data-form" "false"].
Definition sel_button : selector := Compound [IsTag "button"].
Definition sel_cart_count : selector := Compound [HasAttr "data-cart-count"].
Definition sel_header_cart : selector := Compound [HasClass "header--cart"].
Definition sel_badge : selector := Compound [HasClass "cart-count-badge"].
Definition sel_live_cart_element : selector :=
  Descendant [AttrIs "data-drawer-view" "cart-drawer"] [IsTag "cart-element"].
Definition sel_drawer_view : selector :=
  Compound [AttrIs "data-drawer-view" "cart-drawer"].
Definition sel_drawer : selector := Compound [HasAttr "data-drawer"].
Definition sel_drawer_trigger : selector := Compound [HasAttr "data-cart-drawer-trigger"].
Definition sel_header_cart_link : selector :=
  Descendant [HasClass "header--cart"] [IsTag "a"].

(** The inline style given to a new badge. *)
Definition badge_css : list (string * (string * bool)) :=
  [ ("position", ("absolute", true));
    ("top", ("-8px", true));
    ("right", ("-8px", true));
    ("background-color", ("#d32f2f", true));
    ("color", ("white", true));
    ("border-radius", ("50%", true));
    ("min-width", ("18px", true));
    ("height", ("18px", true));
    ("display", ("flex", true));
    ("align-items", ("center", true));
    ("justify-content", ("center", true));
    ("font-size", ("11px", true));
    ("font-weight", ("bold", true));
    ("z-index", ("100", true)) ].

(** [String(count)] and [count > 0] for the count read from the cart. *)
Definition count_string (count : count_value) : string :=
  match count with
  | Count n => pretty n
  | Null => "null"
  | Undefined => "undefined"
  end.

Definition count_positive (count : count_value) : bool :=
  match count with
  | Count n => 0 <? n
  | Null => false
  | Undefined => false
  end.

(** The badge of a header cart, lines 129-151: the one found, or a new
    [span] with its class and inline style, appended to the header cart. *)
Definition find_or_create_badge (headerCart : nat) (p : page) : nat * page :=
  match select_in p headerCart sel_badge with
  | Some badge => (badge, p)
  | None =>
      let '(badge, p1) := createElement "span" p in
      let p2 := setAttribute badge "class" "cart-count-badge" p1 in
      let p3 := set_cssText badge badge_css p2 in
      (badge, appendChild headerCart badge p3)
  end.

(** [updateCartCount(count)], lines 119-160. *)
Definition updateCartCount (count : count_value) (p : page) : page :=
  let cartElements := select_all p sel_cart_count in
  let p1 := foldl (fun q element => setAttribute element "data-cart-count" (count_string count) q)
                  p cartElements in
  match select p1 sel_header_cart with
  | Some headerCart =>
      let '(badge, p2) := find_or_create_badge headerCart p1 in
      if count_positive count
      then set_style badge "display" "flex" (set_textContent badge (count_string count) p2)
      else set_style badge "display" "none" p2
  | None => p1
  end.

(** [openCartDrawer()], lines 194-218; [method2] is what follows the first
    strategy when it does not apply. *)
Definition openCartDrawer (p : page) : page :=
  let method2 :=
    match select p sel_drawer_trigger with
    | Some cartTrigger => emit (Click cartTrigger) p
    | None =>
        match select p sel_header_cart_link with
        | Some headerCartLink => emit (Click headerCartLink) p
        | None => p
        end
    end in
  match select p sel_drawer_view with
  | Some drawerView =>
      match closest p drawerView sel_drawer with
      | Some drawer =>
          set_style (body_id p) "overflow" "hidden"
            (setAttribute drawer "data-drawer-open" "true" p)
      | None => method2
      end
  | None => method2
  end.

(** [x.setAttribute(name, v)] for a name that passed the test: the [style]
    attribute is the declaration block. *)
Definition put_attribute (w : env) (x : nat) (attr : string * string) : page -> page :=
  if String.eqb (fst attr) "style" then set_declarations x (parse_style w (snd attr))
  else setAttribute x (fst attr) (snd attr).

(** [currentCartElement.setAttribute(attr.name, attr.value)], line 181, for
    a name read from markup: [InvalidCharacterError] is thrown when the name
    does not pass the test. *)
Definition copy_attribute (w : env) (currentCartElement : nat) (attr : string * string)
    : M unit :=
  if valid_name w (fst attr) then modify (put_attribute w currentCartElement attr)
  else throw InvalidCharacterError.

(** [attributes.forEach(attr => ...)], lines 180-182, in order. *)
Fixpoint copy_attributes (w : env) (currentCartElement : nat)
    (attributes : list (string * string)) : M unit :=
  match attributes with
  | [] => mret tt
  | attr :: rest =>
      copy_attribute w currentCartElement attr;;
      copy_attributes w currentCartElement rest
  end.

(** The merge of lines 176-182: the live element takes the fragment's inner
    content, then each of the fragment's attributes. *)
Definition merge_cart_element (w : env) (newCartElement : fragment)
    (currentCartElement : nat) : M unit :=
  modify (set_innerHTML currentCartElement
            (parse_inner w (frag_innerHTML newCartElement)));;
  copy_attributes w currentCartElement (frag_attrs newCartElement).

(** The [if (cartDrawerHTML)] block, lines 169-184. *)
Definition refresh_drawer (w : env) (cartDrawerHTML : option string) : M unit :=
  match cartDrawerHTML with
  | Some html =>
      if String.eqb html "" then mret tt
      else
        currentCartElement ← gets (fun p => select p sel_live_cart_element);
        match parse_cart_element w html, currentCartElement with
        | Some newCartElement, Some currentCartElement =>
            merge_cart_element w newCartElement currentCartElement
        | _, _ => mret tt
        end
  | None => mret tt
  end.

(** [refreshAndOpenCartDrawer()], lines 162-192. *)
Definition refreshAndOpenCartDrawer (w : env) : M unit :=
  try_catch
    (o ← gets origin;
     response ← fetch w (Request (o +:+ "/?sections=cart-drawer") "GET" [] None);
     data ← response_json response;
     cartDrawerHTML ← get_cart_drawer data;
     refresh_drawer w cartDrawerHTML;;
     modify openCartDrawer)
    (fun error => console_error "Error refreshing cart:" (Some error)).

(** The two requests of [addToCart]; the body of the first is the object
    given to [JSON.stringify], which writes a [NaN] quantity as [null]. *)
Definition add_request (variantId quantity : value) : request :=
  Request "/cart/add.js" "POST"
    [("Content-Type", "application/json"); ("X-Requested-With", "XMLHttpRequest")]
    (Some (Payload variantId (parseInt quantity))).

Definition cart_request : request := Request "/cart.js" "GET" [] None.

(** [addToCart(variantId, quantity)], lines 82-117. *)
Definition addToCart (w : env) (variantId quantity : value) : M unit :=
  try_catch
    (response ← fetch w (add_request variantId quantity);
     (if negb (fst response) then throw (Error "Failed to add to cart") else mret tt);;
     response_json response;;
     cartResponse ← fetch w cart_request;
     cart ← response_json cartResponse;
     count ← get_item_count cart;
     modify (updateCartCount count);;
     refreshAndOpenCartDrawer w)
    (fun error => console_error "Add to cart error:" (Some error);; throw error).

(** What the timer of the quick-add path runs, lines 53-56. *)
Definition run_callback (cb : callback) (p : page) : page :=
  match cb with
  | QuickAddReset element button =>
      set_disabled button false (setAttribute element "aria-busy" "false" p)
  end.

Definition attribute_value (a : option string) : value :=
  match a with
  | Some s => VStr s
  | None => VNull
  end.

(** [handleQuickAdd(element)], lines 39-63. The early return of line 43
    is taken without a button, or with one and no variant id. *)
Definition handleQuickAdd (w : env) (element : nat) : M unit :=
  variantId ← gets (fun p => attribute_value (getAttribute p element "data-id"));
  button ← gets (fun p => select_in p element sel_button);
  match button with
  | Some button =>
      if negb (truthy variantId) then mret tt
      else
        modify (setAttribute element "aria-busy" "true");;
        modify (set_disabled button true);;
        try_catch
          (addToCart w variantId (VNum 1);;
           modify (add_timer 1000 (QuickAddReset element button)))
          (fun error =>
             console_error "Quick add error:" (Some error);;
             modify (setAttribute element "aria-busy" "false");;
             modify (set_disabled button false))
  | None => mret tt
  end.

(** [formData.get('quantity') || 1]. *)
Definition form_quantity (f : form) : value :=
  js_or (form_get (fields f) "quantity") (VNum 1).

(** [handleFormSubmit(form)], lines 65-80. *)
Definition handleFormSubmit (w : env) (f : form) : M unit :=
  let variantId := form_get (fields f) "id" in
  let quantity := form_quantity f in
  if negb (truthy variantId) then console_error "No variant ID in form" None
  else
    try_catch (addToCart w variantId quantity)
      (fun error => console_error "Form submit error:" (Some error)).

(** The [submit] listener of [init], lines 17-26, on a form whose [action]
    is its address. *)
Definition on_submit (w : env) (f : form) : M unit :=
  if truthy (VStr (action f)) && includes (action f) "/cart/add"
  then
    modify (emit PreventDefault);;
    modify (emit StopPropagation);;
    handleFormSubmit w f
  else mret tt.

(** The same listener on any target. When [form.action] is an element it is
    truthy and has no [includes] method: the call of line 21 throws before
    the default submission is cancelled. When the target has no [action]
    the test fails and nothing is done. *)
Definition submit_listener (w : env) (target : submit_target) : M unit :=
  match target with
  | FormTarget f => on_submit w f
  | ShadowedForm => throw NotAFunction
  | NotAForm => mret tt
  end.

(** The [click] listener of [init], lines 29-36, on the target of the
    event. *)
Definition on_click (w : env) (target : nat) : M unit :=
  quickAddElement ← gets (fun p => closest p target sel_quick_add);
  match quickAddElement with
  | Some quickAddElement =>
      modify (emit PreventDefault);;
      modify (emit StopPropagation);;
      handleQuickAdd w quickAddElement
  | None => mret tt
  end.

(** ** The script *)

(** [document.readyState]. *)
Inductive ready_state :=
| Loading
| Interactive
| Complete.

(** The functions the script hands to [addEventListener]: the arrow function
    of line 223, which constructs the handler, and the two of [init]. *)
Inductive listener :=
| Construct
| SubmitListener
| ClickListener.

(** The events that reach the document: the end of parsing, a [submit]
    event on its target, a click on an element. *)
Inductive dom_event :=
| DOMContentLoaded
| Submit (target : submit_target)
| ClickOn (target : nat).

Definition event_type (ev : dom_event) : string :=
  match ev with
  | DOMContentLoaded => "DOMContentLoaded"
  | Submit _ => "submit"
  | ClickOn _ => "click"
  end.

(** The window the script runs in: the state of the document, the listeners
    registered on it, oldest first, each under its event type, and the
    page. *)
Record window := Window {
  readyState : ready_state;
  listeners : list (string * listener);
  document : page;
}.

Definition set_document (p : page) (b : window) : window :=
  Window (readyState b) (listeners b) p.

(** [document.addEventListener(type, l)]. Every evaluation of an arrow
    function is a new function, so the listener is never found registered
    already: it is added. *)
Definition addEventListener (type : string) (l : listener) (b : window) : window :=
  Window (readyState b) (listeners b ++ [(type, l)]) (document b).

(** [init()], lines 15-37, and the constructor, which calls it. *)
Definition init (b : window) : window :=
  addEventListener "click" ClickListener (addEventListener "submit" SubmitListener b).

Definition UniversalCartHandler (b : window) : window := init b.

(** The body of the script, lines 221-228. *)
Definition script (b : window) : window :=
  match readyState b with
  | Loading => addEventListener "DOMContentLoaded" Construct b
  | _ => UniversalCartHandler b
  end.

(** A listener called with an event. The listeners of [init] read the
    target of the event; what they start is run to its end. An exception
    that leaves a listener is reported by the browser, and the page stays as
    the listener left it. *)
Definition call (w : env) (l : listener) (ev : dom_event) (b : window) : window :=
  match l, ev with
  | Construct, _ => UniversalCartHandler b
  | SubmitListener, Submit target =>
      set_document (snd (submit_listener w target (document b))) b
  | ClickListener, ClickOn target => set_document (snd (on_click w target (document b))) b
  | _, _ => b
  end.

(** An event reaches the document: the listeners registered for its type
    when it arrives are called in the order of their registration. *)
Definition dispatchEvent (w : env) (ev : dom_event) (b : window) : window :=
  foldl (fun b' l => call w (snd l) ev b') b
        (filter (fun l => fst l = event_type ev) (listeners b)).

(** The end of parsing: the document is no longer loading, and
    [DOMContentLoaded] is fired. *)
Definition finish_parsing (w : env) (b : window) : window :=
  dispatchEvent w DOMContentLoaded (Window Interactive (listeners b) (document b)).

(** The window once the document is parsed. *)
Definition parsed (w : env) (b : window) : window :=
  match readyState b with
  | Loading => finish_parsing w b
  | _ => b
  end.

(** The listeners registered for one type of event. *)
Definition listeners_for (type : string) (b : window) : list listener :=
  map snd (filter (fun l => fst l = type) (listeners b)).

(** The request for the cart drawer section, line 165. *)
Definition section_request (p : page) : request :=
  Request (origin p +:+ "/?sections=cart-drawer") "GET" [] None.

(** ** Reading a run *)

(** The requests among a list of events, and those that add to the cart. *)
Definition requests (l : list event) : list request :=
  omap (fun e => match e with Fetch r => Some r | _ => None end) l.

Definition is_mutation (r : request) : bool :=
  String.eqb (method r) "POST" && String.eqb (url r) "/cart/add.js".

Definition mutation_requests (l : list event) : list request :=
  filter (fun r => is_mutation r = true) (requests l).

(** The drawer container strategy 1 of [openCartDrawer] locates. *)
Definition drawer_of (p : page) : option nat :=
  match select p sel_drawer_view with
  | Some drawerView => closest p drawerView sel_drawer
  | None => None
  end.

(** The attribute of a given name in a list of attributes that is read in
    order: the last one of that name. *)
Fixpoint attribute_of (attributes : list (string * string)) (name : string) : option string :=
  match attributes with
  | [] => None
  | attr :: rest =>
      match attribute_of rest name with
      | Some v => Some v
      | None => if String.eqb (fst attr) name then Some (snd attr) else None
      end
  end.

(** The attributes the copy reaches: those before the first whose name does
    not pass the test of [setAttribute]. *)
Fixpoint copied (w : env) (attributes : list (string * string)) : list (string * string) :=
  match attributes with
  | [] => []
  | attr :: rest => if valid_name w (fst attr) then attr :: copied w rest else []
  end.

(** Every name of a list of attributes passes the test of [setAttribute]. *)
Definition all_valid (w : env) (attributes : list (string * string)) : bool :=
  forallb (fun attr => valid_name w (fst attr)) attributes.

(** Every attribute name of the [cart-element] of the section, when there
    is one, passes the test: the copy of the merge cannot throw. *)
Definition names_accepted (w : env) (cartDrawerHTML : option string) : Prop :=
  forall html f, cartDrawerHTML = Some html -> parse_cart_element w html = Some f ->
    all_valid w (frag_attrs f) = true.

(** The run ended with an attempt to open the drawer: the page reached is
    what [openCartDrawer] leaves. *)
Definition open_attempted (p' : page) : Prop :=
  exists q, p' = openCartDrawer q.

(** The badge elements under the header cart control. *)
Definition badges (p : page) : list nat :=
  match select p sel_header_cart with
  | Some headerCart => select_all_in p headerCart sel_badge
  | None => []
  end.

(** A run of count updates, oldest first. *)
Definition updates (counts : list (option Z)) (p : page) : page :=
  foldl (fun q (count : option Z) => updateCartCount count q) p counts.


(** The header badge is in the tree and hidden. *)
Definition badge_hidden (p : page) : Prop :=
  exists badge, head (badges p) = Some badge /\
    get_style p badge "display" = Some ("none", false).

(** The request carries a variant identifier. *)
Definition has_variant (r : request) : Prop :=
  exists pl, body r = Some pl /\ truthy (payload_id pl) = true.

(** The request's quantity is an integer that is at least 1. *)
Definition quantity_at_least_one (r : request) : Prop :=
  exists pl n, body r = Some pl /\ payload_quantity pl = Num n /\ 1 <= n.

(** ** Sample pages and surroundings *)

Definition el (t : string) (a : list (string * string)) : element :=
  Element t (list_to_map a) ∅.

(** A storefront page: a header cart with its link, a count display, a
    drawer with its view and cart content, and a quick-add control. *)
Definition shop_store : gmap nat element := list_to_map
  [ (0%nat, el "html" []); (1%nat, el "body" []);
    (2%nat, el "div" [("class", "site-header header--cart")]);
    (3%nat, el "a" [("href", "/cart")]);
    (4%nat, el "span" [("data-cart-count", "0")]);
    (5%nat, el "div" [("data-drawer", "")]);
    (6%nat, el "div" [("data-drawer-view", "cart-drawer")]);
    (7%nat, el "cart-element" [("class", "old"); ("data-x", "1")]);
    (8%nat, el "product-quick-add" [("data-form", "false"); ("data-id", "123")]);
    (9%nat, el "button" []) ].

Definition shop_tree : dtree :=
  Node 0 [Node 1 [Node 2 [Node 3 []]; Node 4 [];
                  Node 5 [Node 6 [Node 7 [TextNode "empty"]]];
                  Node 8 [Node 9 [TextNode "Add"]]]].

Definition shop_page : page :=
  Page shop_tree shop_store 1 "https://shop.example" [] [].

(** The same page with neither drawer nor trigger: only the header link. *)
Definition link_only_page : page :=
  Page (Node 0 [Node 1 [Node 2 [Node 3 []]; Node 4 []]]) shop_store 1
       "https://shop.example" [] [].

(** A page with a count display but no header cart control. *)
Definition bare_page : page :=
  Page (Node 0 [Node 1 [Node 4 []]])
       (list_to_map [ (0%nat, el "html" []); (1%nat, el "body" []);
                      (4%nat, el "span" [("data-cart-count", "0")]) ])
       1 "https://shop.example" [] [].

(** The markup of a cart drawer section, and the [cart-element] in it. *)
Definition drawer_section : string :=
  "<cart-element class='new' data-count='3'><ul><li>item</li></ul>tail</cart-element>".

Definition drawer_fragment : fragment :=
  Fragment [("class", "new"); ("data-count", "3")] "<ul><li>item</li></ul>tail".

(** The same section with a stray [=x] before the last attribute: the parser
    reads it as an attribute of that name. *)
Definition stray_section : string :=
  "<cart-element class='new' =x data-count='3'><ul><li>item</li></ul>tail</cart-element>".

Definition stray_fragment : fragment :=
  Fragment [("class", "new"); ("=x", ""); ("data-count", "3")] "<ul><li>item</li></ul>tail".

(** A browser, as far as the samples need one. Its parsers know the two
    sections, their inner markup and one style text. Its test of attribute
    names is that of the DOM standard: a name is not empty and holds no
    white space, [NUL], [/], [=] or [>]. (The older test, the [Name]
    production of XML, gives the same answer on the names of the
    samples.) *)
Definition sample_parse_cart_element (html : string) : option fragment :=
  if String.eqb html drawer_section then Some drawer_fragment
  else if String.eqb html stray_section then Some stray_fragment
  else None.

Definition sample_parse_inner (html : string) : list hnode :=
  if String.eqb html "<ul><li>item</li></ul>tail"
  then [HElem "ul" ∅ ∅ [HElem "li" ∅ ∅ [HText "item"]]; HText "tail"]
  else [HText html].

Definition sample_parse_style (text : string) : gmap string (string * bool) :=
  if String.eqb text "display: none" then {[ "display" := ("none", false) ]} else ∅.

Definition valid_attribute_name (name : string) : bool :=
  negb (String.eqb name "") &&
  forallb (fun c => negb (is_class_space c || Ascii.eqb c "000" || Ascii.eqb c "/" ||
                          Ascii.eqb c "=" || Ascii.eqb c ">"))
          (list_ascii_of_string name).

Definition browser (server : list event -> request -> response) : env :=
  Env server sample_parse_cart_element sample_parse_inner sample_parse_style
      valid_attribute_name.

(** A storefront that accepts every request, with the [item_count] of its
    cart and the markup of its drawer section. *)
Definition accepting (count : count_value) (section : string) (_ : list event)
    (r : request) : response :=
  if String.eqb (url r) "/cart/add.js" then Response true (Some (JObject None None))
  else if String.eqb (url r) "/cart.js" then Response true (Some (JObject count None))
  else Response true (Some (JObject None (Some section))).

(** The cart then holds three items. *)
Definition online : env := browser (accepting (Some 3) drawer_section).

(** The same storefront, whose drawer section has the stray [=x]. *)
Definition online_stray : env := browser (accepting (Some 3) stray_section).

(** The same storefront, whose cart has no [item_count], or [null]. *)
Definition online_countless : env := browser (accepting None drawer_section).
Definition online_null_count : env := browser (accepting Null drawer_section).

(** A storefront that refuses the item with a non-success status. *)
Definition refusing : env :=
  browser (fun _ r =>
             if String.eqb (url r) "/cart/add.js" then Response false (Some (JObject None None))
             else Response true (Some (JObject (Some 3) None))).

(** A storefront that cannot be reached. *)
Definition unreachable : env := browser (fun _ _ => NetworkFailure).

Definition sample_form (quantity : list (string * value)) : form :=
  Form "https://shop.example/cart/add" (("id", VStr "123") :: quantity).

Definition form_without_id : form :=
  Form "https://shop.example/cart/add" [("quantity", VStr "2")].

(** A page with a second header cart control, after the first. *)
Definition two_header_page : page :=
  Page (Node 0 [Node 1 [Node 2 [Node 3 []]; Node 4 []; Node 11 [Node 12 []]]])
       (<[11%nat := el "div" [("class", "header--cart mobile")]]>
          (<[12%nat := el "a" [("href", "/cart")]]> shop_store))
       1 "https://shop.example" [] [].

(** A page with two drawer views: the first stands outside any drawer, the
    second inside the drawer; and a drawer trigger. *)
Definition two_view_page : page :=
  Page (Node 0 [Node 1 [Node 2 [Node 3 []]; Node 13 [];
                        Node 5 [Node 6 [Node 7 [TextNode "empty"]]]; Node 14 []]])
       (<[13%nat := el "div" [("data-drawer-view", "cart-drawer")]]>
          (<[14%nat := el "button" [("data-cart-drawer-trigger", "")]]> shop_store))
       1 "https://shop.example" [] [].

(** ** Definitions used by the proofs *)

(** Induction on a tree, and on markup, with the hypothesis for every child. *)
Section dtree_induction.
Variable P : dtree -> Prop.
Hypothesis text_case : forall s, P (TextNode s).
Hypothesis node_case : forall i kids, Forall P kids -> P (Node i kids).

Fixpoint dtree_forall_ind (t : dtree) : P t :=
  match t with
  | TextNode s => text_case s
  | Node i kids =>
      node_case i kids
        ((fix all (l : list dtree) : Forall P l :=
            match l with
            | [] => @List.Forall_nil _ P
            | k :: r => @List.Forall_cons _ P k r (dtree_forall_ind k) (all r)
            end) kids)
  end.
End dtree_induction.

Section hnode_induction.
Variable P : hnode -> Prop.
Hypothesis text_case : forall s, P (HText s).
Hypothesis elem_case : forall t a s kids, Forall P kids -> P (HElem t a s kids).

Fixpoint hnode_forall_ind (n : hnode) : P n :=
  match n with
  | HText s => text_case s
  | HElem t a s kids =>
      elem_case t a s kids
        ((fix all (l : list hnode) : Forall P l :=
            match l with
            | [] => @List.Forall_nil _ P
            | k :: r => @List.Forall_cons _ P k r (hnode_forall_ind k) (all r)
            end) kids)
  end.
End hnode_induction.

(** The first subtree rooted at [x] among the trees of a forest. *)
Fixpoint find_in_forest (x : nat) (l : list dtree) : option dtree :=
  match l with
  | [] => None
  | k :: r =>
      match find_subtree x k with
      | Some s => Some s
      | None => find_in_forest x r
      end
  end.

Definition ids_forest (l : list dtree) : list nat := flat_map ids l.

(** Where an element sits in a walk: the entries before it (which hold all
    its ancestors), its own entry, its subtree, and the entries after; and
    what rewriting its children does to the walk. *)
Definition split_at (x : nat) (anc : list nat) (w : list (nat * list nat))
    (rewritten : (list dtree -> list dtree) -> list (nat * list nat))
    (found : option dtree) : Prop :=
  exists pre a kids post path,
    w = (pre ++ (x, a) :: walk_forest (x :: a) kids ++ post) /\
    found = Some (Node x kids) /\
    (forall f, rewritten f = (pre ++ (x, a) :: walk_forest (x :: a) (f kids) ++ post)) /\
    a = (path ++ anc) /\ (forall y, y ∈ path -> y ∈ map fst pre).

(** The value of the [class] attribute of an element. *)
Definition class_of (h : gmap nat element) (i : nat) : option string :=
  e ← h !! i; attrs e !! "class".

Definition has_class (c : string) (h : gmap nat element) (i : nat) : bool :=
  match class_of h i with
  | Some v => bool_decide (c ∈ class_tokens v)
  | None => false
  end.

(** The record of an element after [setAttribute]. *)
Definition with_attribute (k v : string) (e : element) : element :=
  Element (tag e) (<[k := v]> (attrs e)) (style e).

(** The pages [updateCartCount] goes through. *)
Definition counted (count : count_value) (p : page) : page :=
  foldl (fun q element => setAttribute element "data-cart-count" (count_string count) q)
        p (select_all p sel_cart_count).

(** What holds of the header badge from one update to the next. *)
Definition badge_invariant (h : nat) (p : page) : Prop :=
  well_formed p /\ select p sel_header_cart = Some h /\ (List.length (badges p) <= 1)%nat.

(** What [instantiate] allocates: the store only grows, by the elements of
    the new tree, each of them once, and the new tree reads back as the
    markup it came from. *)
Definition instantiated (h h' : gmap nat element) (new : list nat)
    (reads_back : gmap nat element -> Prop) : Prop :=
  h ⊆ h' /\
  (forall i, i ∈ new -> h !! i = None /\ is_Some (h' !! i)) /\
  NoDup new /\
  (forall h'', h' ⊆ h'' -> reads_back h'').

(** The page the merge leaves, whether or not the copy went through. *)
Definition merged (w : env) (f : fragment) (c : nat) (p : page) : page :=
  foldl (fun q attr => put_attribute w c attr q)
        (set_innerHTML c (parse_inner w (frag_innerHTML f)) p)
        (copied w (frag_attrs f)).

(** From [p] to [p'], every element keeps its place in the store and its
    tag, no timer is set, and an element that is not a [cart-element] keeps
    every attribute but the count, the drawer's open-state marker and
    [style]. *)
Definition preserves (p p' : page) : Prop :=
  timers p' = timers p /\
  forall x e, store p !! x = Some e ->
    exists e', store p' !! x = Some e' /\ tag e' = tag e /\
      (tag e <> "cart-element" ->
       forall k, k <> "data-cart-count" -> k <> "data-drawer-open" -> k <> "style" ->
         attrs e' !! k = attrs e !! k).

(** The attribute a simple selector reads, if it reads one, and the
    attributes a selector reads. *)
Definition simple_key (s : simple) : option string :=
  match s with
  | IsTag _ => None
  | HasClass _ => Some "class"
  | HasAttr n => Some n
  | AttrIs n _ => Some n
  end.

Definition selector_keys (sel : selector) : list string :=
  match sel with
  | Compound c => omap simple_key c
  | Descendant outer inner => omap simple_key outer ++ omap simple_key inner
  end.

(** Two stores that hold the same elements, with the same tags and the same
    attributes but for [k]. *)
Definition same_but (k : string) (h h' : gmap nat element) : Prop :=
  forall i,
    match h !! i, h' !! i with
    | Some e, Some e' =>
        tag e' = tag e /\ forall k', k' <> k -> attrs e' !! k' = attrs e !! k'
    | None, None => True
    | _, _ => False
    end.

(** From [p] to [p'], [document.body] is the same element, and every
    element that is not a [cart-element] keeps its inline style, but for the
    [display] declaration of the elements in [badge] and the [overflow]
    declaration of the body. *)
Definition keeps_style (badge : nat -> Prop) (p p' : page) : Prop :=
  body_id p' = body_id p /\
  forall x e, store p !! x = Some e ->
    exists e', store p' !! x = Some e' /\ tag e' = tag e /\
      (tag e <> "cart-element" ->
       forall prop, (prop = "display" -> ~ badge x) -> (x = body_id p -> prop <> "overflow") ->
         style e' !! prop = style e !! prop).

(** The records of [i] in two stores agree: it is in both or in neither,
    with the same tag and the same attributes but for [k]. *)
Definition agree_at (k : string) (h h' : gmap nat element) (i : nat) : Prop :=
  match h !! i, h' !! i with
  | Some e, Some e' =>
      tag e' = tag e /\ forall k', k' <> k -> attrs e' !! k' = attrs e !! k'
  | None, None => True
  | _, _ => False
  end.

(** * Properties *)

(** ** JavaScript values *)

Example parseInt_examples :
  parseInt (VStr "3") = Num 3 /\ parseInt (VStr "  -12px") = Num (-12) /\
  parseInt (VStr "0x1f") = Num 31 /\ parseInt (VStr "abc") = NaN /\
  parseInt (VNum 1) = Num 1 /\ parseInt VFile = NaN /\ parseInt (VStr "0") = Num 0.
Proof. repeat split; reflexivity. Qed.

Example includes_examples :
  includes "https://shop.example/cart/add" "/cart/add" = true /\
  includes "https://shop.example/cart" "/cart/add" = false.
Proof. split; reflexivity. Qed.

(** ** The monad, step by step *)

Lemma run_bind {A B : Type} (m : M A) (f : A -> M B) (p : page) :
  (m ≫= f) p = match m p with
               | (Ok a, p') => f a p'
               | (Thrown e, p') => (Thrown e, p')
               end.
Proof. reflexivity. Qed.

Lemma run_fetch (w : env) (r : request) (p : page) :
  fetch w r p =
  (match server w (trace p) r with
   | NetworkFailure => Thrown FetchRejected
   | Response ok b => Ok (ok, b)
   end, emit (Fetch r) p).
Proof. unfold fetch. destruct (server w (trace p) r); reflexivity. Qed.

(** The copy of the attributes stops at the first name that does not pass
    the test, and throws there. *)
Lemma copy_attributes_run (w : env) (c : nat) (l : list (string * string)) (p : page) :
  copy_attributes w c l p =
  (if all_valid w l then Ok tt else Thrown InvalidCharacterError,
   foldl (fun q attr => put_attribute w c attr q) p (copied w l)).
Proof.
  revert p. induction l as [|a l IH]; intros p; [reflexivity|].
  cbn [copy_attributes copied all_valid forallb]. rewrite run_bind. unfold copy_attribute.
  destruct (valid_name w (fst a)); [|reflexivity].
  unfold modify. rewrite IH. reflexivity.
Qed.

Lemma merge_cart_element_run (w : env) (f : fragment) (c : nat) (p : page) :
  merge_cart_element w f c p =
  (if all_valid w (frag_attrs f) then Ok tt else Thrown InvalidCharacterError,
   merged w f c p).
Proof.
  unfold merge_cart_element. rewrite run_bind. unfold modify.
  by rewrite copy_attributes_run.
Qed.

Lemma refresh_drawer_run (w : env) (html : option string) (p : page) :
  refresh_drawer w html p =
  match html with
  | Some s =>
      if String.eqb s "" then (Ok tt, p)
      else
        match parse_cart_element w s, select p sel_live_cart_element with
        | Some f, Some c =>
            (if all_valid w (frag_attrs f) then Ok tt else Thrown InvalidCharacterError,
             merged w f c p)
        | _, _ => (Ok tt, p)
        end
  | None => (Ok tt, p)
  end.
Proof.
  unfold refresh_drawer. destruct html as [s|]; [|reflexivity].
  destruct (String.eqb s ""); [reflexivity|].
  rewrite run_bind. unfold gets.
  destruct (parse_cart_element w s) as [f|], (select p sel_live_cart_element) as [c|];
    try reflexivity.
  apply merge_cart_element_run.
Qed.

(** The only exception of the refresh is that of the attribute copy. *)
Lemma refresh_drawer_thrown (w : env) (html : option string) (p : page) (e : error) :
  fst (refresh_drawer w html p) = Thrown e -> e = InvalidCharacterError.
Proof.
  rewrite refresh_drawer_run. destruct html as [s|]; [|done].
  destruct (String.eqb s ""); [done|].
  destruct (parse_cart_element w s) as [f|], (select p sel_live_cart_element) as [c|];
    try done.
  simpl. destruct (all_valid w (frag_attrs f)); [done|]. by intros [= <-].
Qed.

Lemma refresh_drawer_returns (w : env) (html : option string) (p : page) :
  names_accepted w html -> fst (refresh_drawer w html p) = Ok tt.
Proof.
  intros Hvalid. rewrite refresh_drawer_run. destruct html as [s|]; [|done].
  destruct (String.eqb s ""); [done|].
  destruct (parse_cart_element w s) as [f|] eqn:Hparse; [|done].
  destruct (select p sel_live_cart_element); [|done].
  cbn [fst]. by rewrite (Hvalid s f).
Qed.

(** The refresh throws only when the merge takes place and an attribute name
    of the fragment does not pass the test. *)
Lemma refresh_drawer_thrown_only (w : env) (html : option string) (p : page) (e : error) :
  fst (refresh_drawer w html p) = Thrown e ->
  exists s f c, html = Some s /\ parse_cart_element w s = Some f /\
    select p sel_live_cart_element = Some c /\ all_valid w (frag_attrs f) = false.
Proof.
  rewrite refresh_drawer_run. destruct html as [s|]; [|done].
  destruct (String.eqb s ""); [done|].
  destruct (parse_cart_element w s) as [f|] eqn:Hparse; [|done].
  destruct (select p sel_live_cart_element) as [c|] eqn:Hsel; [|done].
  cbn [fst]. destruct (all_valid w (frag_attrs f)) eqn:Hall; [done|].
  intros _. by exists s, f, c.
Qed.

(** [refreshAndOpenCartDrawer], answer by answer. *)
Lemma refreshAndOpenCartDrawer_unfold (w : env) (p : page) :
  let r := Request (origin p +:+ "/?sections=cart-drawer") "GET" [] None in
  let p1 := emit (Fetch r) p in
  let logged e q := emit (ConsoleError "Error refreshing cart:" (Some e)) q in
  refreshAndOpenCartDrawer w p =
  (Ok tt,
   match server w (trace p) r with
   | NetworkFailure => logged FetchRejected p1
   | Response _ None => logged JsonSyntaxError p1
   | Response _ (Some JNull) => logged NullPropertyError p1
   | Response _ (Some (JObject _ html)) =>
       match fst (refresh_drawer w html p1) with
       | Ok _ => openCartDrawer (snd (refresh_drawer w html p1))
       | Thrown e => logged e (snd (refresh_drawer w html p1))
       end
   end).
Proof.
  intros r p1 logged. unfold refreshAndOpenCartDrawer.
  unfold mbind, M_bind, mret, M_ret, gets, modify, throw, try_catch,
    console_error, response_json, get_cart_drawer.
  rewrite run_fetch. fold r. fold p1.
  destruct (server w (trace p) r) as [|ok [[|c d]|]];
    unfold mret, M_ret, throw, modify; cbn -[refresh_drawer openCartDrawer];
    try reflexivity.
  by destruct (refresh_drawer w d p1) as [[[]|e] p2].
Qed.

Ltac unfold_monad :=
  unfold mbind, M_bind, mret, M_ret, gets, modify, throw, try_catch,
    console_error, response_json, get_item_count, get_cart_drawer in *.

(** C3. When the add-item request comes back with a non-success status,
    [addToCart] throws the error [Failed to add to cart]; the tree, the store
    (so every count display and the badge) and the timers are as before, and
    the run adds two events only, the request and the log line: the cart is
    not re-read and the drawer is not refreshed. And a run of [addToCart]
    that changes the tree or the store, or sends anything after its first
    request, is a run whose first request was answered with a success
    status. *)
Theorem addToCart_refused (w : env) (variantId quantity : value) (p : page) :
  let r := add_request variantId quantity in
  let failure := Error "Failed to add to cart" in
  let p' := snd (addToCart w variantId quantity p) in
  (forall b, server w (trace p) r = Response false b ->
     fst (addToCart w variantId quantity p) = Thrown failure /\
     tree p' = tree p /\ store p' = store p /\ timers p' = timers p /\
     trace p' = trace p ++ [Fetch r; ConsoleError "Add to cart error:" (Some failure)]) /\
  (tree p' <> tree p \/ store p' <> store p \/
   requests (trace p') <> requests (trace p) ++ [r] ->
   exists b, server w (trace p) r = Response true b).
Proof.
  intros r failure p'. split.
  - intros b Hserver. unfold p', addToCart. unfold_monad.
    fold r. rewrite run_fetch, Hserver. simpl.
    rewrite <- app_assoc. repeat split; reflexivity.
  - unfold p', addToCart. unfold_monad. fold r. rewrite run_fetch.
    destruct (server w (trace p) r) as [|[|] b] eqn:Hserver; simpl.
    + intros [H|[H|H]]; exfalso; apply H; try reflexivity.
      unfold requests. rewrite !omap_app. simpl. by rewrite app_nil_r.
    + intros _. by exists b.
    + intros [H|[H|H]]; exfalso; apply H; try reflexivity.
      unfold requests. rewrite !omap_app. simpl. by rewrite app_nil_r.
Qed.

Lemma addToCart_refused_witness :
  server refusing (trace shop_page) (add_request (VStr "123") (VNum 1))
    = Response false (Some (JObject None None)) /\
  fst (addToCart refusing (VStr "123") (VNum 1) shop_page)
    = Thrown (Error "Failed to add to cart") /\
  store (snd (addToCart refusing (VStr "123") (VNum 1) shop_page)) = store shop_page.
Proof.
  split; [reflexivity|].
  pose proof (proj1 (addToCart_refused refusing (VStr "123") (VNum 1) shop_page)
                (Some (JObject None None)) eq_refl) as H.
  destruct H as (H1 & _ & H3 & _). split; assumption.
Defined.

(** ** [parseInt] on decimal numerals *)

Lemma digit_value_pretty_N_char (d : N) :
  (d < 10)%N -> digit_value 10 (pretty_N_char d) = Some (Z.of_N d).
Proof.
  intros Hd.
  assert (d = 0 ∨ d = 1 ∨ d = 2 ∨ d = 3 ∨ d = 4 ∨ d = 5 ∨ d = 6 ∨ d = 7 ∨ d = 8 ∨ d = 9)%N
    as Hcases by lia.
  repeat (destruct Hcases as [->|Hcases]; [reflexivity|]). by subst.
Qed.

Lemma leading_digits_pretty_N_go (x : N) (s : string) :
  (0 < x)%N ->
  leading_digits 10 (pretty_N_go x s) None = leading_digits 10 s (Some (Z.of_N x)).
Proof.
  revert s. induction (N.lt_wf_0 x) as [x _ IH]; intros s Hx.
  rewrite pretty_N_go_step by done.
  destruct (N.eq_0_gt_0_cases (x `div` 10)) as [H0|Hpos].
  - rewrite H0, pretty_N_go_0. simpl.
    rewrite digit_value_pretty_N_char by (apply N.mod_lt; lia).
    f_equal. f_equal.
    pose proof (N.div_mod x 10 ltac:(lia)). lia.
  - rewrite IH by (done || apply N.div_lt; lia). simpl.
    rewrite digit_value_pretty_N_char by (apply N.mod_lt; lia).
    f_equal. f_equal. simpl.
    pose proof (N.div_mod x 10 ltac:(lia)). lia.
Qed.

(** A positive numeral starts with one of [1]..[9]. *)
Lemma pretty_N_go_head (x : N) (s : string) :
  (0 < x)%N ->
  exists d r, (1 <= d < 10)%N /\ pretty_N_go x s = String (pretty_N_char d) r.
Proof.
  revert s. induction (N.lt_wf_0 x) as [x _ IH]; intros s Hx.
  rewrite pretty_N_go_step by done.
  destruct (N.eq_0_gt_0_cases (x `div` 10)) as [H0|Hpos].
  - rewrite H0, pretty_N_go_0. exists (x `mod` 10)%N, s. split; [|done].
    pose proof (N.div_mod x 10 ltac:(lia)). pose proof (N.mod_lt x 10 ltac:(lia)). lia.
  - apply IH; [apply N.div_lt; lia|done].
Qed.

Lemma parse_int_string_positive (x : positive) :
  parse_int_string (pretty (N.pos x)) = to_number (Z.pos x) /\
  parse_int_string ("-" +:+ pretty (N.pos x)) = to_number (Z.neg x).
Proof.
  unfold pretty, pretty_N. rewrite decide_False by done.
  pose proof (leading_digits_pretty_N_go (N.pos x) "" eq_refl) as Hval.
  destruct (pretty_N_go_head (N.pos x) "" eq_refl) as (d & r & Hd & Hhead).
  rewrite Hhead in *.
  assert (d = 1 ∨ d = 2 ∨ d = 3 ∨ d = 4 ∨ d = 5 ∨ d = 6 ∨ d = 7 ∨ d = 8 ∨ d = 9)%N
    as Hcases by lia.
  repeat (destruct Hcases as [->|Hcases];
    [split; unfold parse_int_string; cbn [trim_start is_white_space pretty_N_char];
     simpl in Hval |- *; rewrite Hval; reflexivity|]).
  subst d. split; unfold parse_int_string; simpl in Hval |- *; rewrite Hval; reflexivity.
Qed.

(** Up to [2^53] an integer is its own Number value; above, it is rounded. *)
Lemma to_number_exact (n : Z) : - 2 ^ 53 <= n <= 2 ^ 53 -> to_number n = Num n.
Proof.
  intros Hn. destruct (decide (Z.abs n = 2 ^ 53)) as [Heq|Hne].
  - assert (n = 2 ^ 53 \/ n = - 2 ^ 53) as [->| ->] by lia; reflexivity.
  - unfold to_number.
    assert (Z.log2 (Z.abs n) - 52 <= 0) as Hshift.
    { destruct (decide (Z.abs n = 0)) as [->|H0]; [done|].
      assert (Z.log2 (Z.abs n) < 53); [|lia].
      apply Z.log2_lt_pow2; lia. }
    apply Z.leb_le in Hshift. by rewrite Hshift.
Qed.

Example to_number_examples :
  to_number (2 ^ 53 + 1) = Num (2 ^ 53) /\ to_number (2 ^ 53 + 3) = Num (2 ^ 53 + 4) /\
  to_number (- (2 ^ 53 + 1)) = Num (- 2 ^ 53) /\ to_number (2 ^ 1024) = Infinity false /\
  to_number (2 ^ 1024 - 2 ^ 970 - 1) = Num (2 ^ 1024 - 2 ^ 971).
Proof. repeat split; vm_compute; reflexivity. Qed.

(** [parseInt] reads the decimal numeral of an integer as the Number value
    of that integer. *)
Lemma parseInt_numeral (n : Z) : parseInt (VStr (pretty n)) = to_number n.
Proof.
  unfold parseInt. simpl. destruct n as [|x|x]; [reflexivity|..].
  - apply parse_int_string_positive.
  - apply parse_int_string_positive.
Qed.

Lemma pretty_Z_nonempty (n : Z) : String.eqb (pretty n) "" = false.
Proof.
  destruct n as [|x|x]; [reflexivity| |reflexivity].
  unfold pretty, pretty_Z, pretty, pretty_positive, pretty, pretty_N.
  rewrite decide_False by done.
  destruct (pretty_N_go_head (N.pos x) "" eq_refl) as (d & r & _ & ->). reflexivity.
Qed.

(** ** Which events a step adds *)

Lemma trace_foldl_setAttribute (name v : string) (l : list nat) (p : page) :
  trace (foldl (fun q x => setAttribute x name v q) p l) = trace p.
Proof. revert p. induction l as [|x l IH]; intros p; simpl; [done|]. by rewrite IH. Qed.

Lemma trace_find_or_create_badge (h : nat) (p : page) :
  trace (snd (find_or_create_badge h p)) = trace p.
Proof. unfold find_or_create_badge. destruct (select_in p h sel_badge); reflexivity. Qed.

Lemma trace_updateCartCount (count : count_value) (p : page) :
  trace (updateCartCount count p) = trace p.
Proof.
  unfold updateCartCount.
  set (p1 := foldl _ p _).
  assert (trace p1 = trace p) as H1 by apply trace_foldl_setAttribute.
  destruct (select p1 sel_header_cart) as [h|]; [|done].
  pose proof (trace_find_or_create_badge h p1) as H2.
  destruct (find_or_create_badge h p1) as [badge p2]. simpl in H2.
  destruct (count_positive count); simpl; congruence.
Qed.

Lemma trace_set_innerHTML (x : nat) (inner : list hnode) (p : page) :
  trace (set_innerHTML x inner p) = trace p.
Proof. unfold set_innerHTML. destruct (instantiate_forest (store p) inner). reflexivity. Qed.

Lemma trace_put_attribute (w : env) (x : nat) (attr : string * string) (p : page) :
  trace (put_attribute w x attr p) = trace p.
Proof. unfold put_attribute. by destruct (String.eqb (fst attr) "style"). Qed.

(** What holds after [innerHTML] is written and is kept by each attribute
    holds of the page the merge leaves. *)
Lemma merged_ind (P : page -> Prop) (w : env) (f : fragment) (c : nat) (p : page) :
  P (set_innerHTML c (parse_inner w (frag_innerHTML f)) p) ->
  (forall q attr, P q -> P (put_attribute w c attr q)) ->
  P (merged w f c p).
Proof.
  intros H0 Hstep. unfold merged. generalize (copied w (frag_attrs f)) as l. intros l.
  revert H0. generalize (set_innerHTML c (parse_inner w (frag_innerHTML f)) p) as q.
  induction l as [|a l IH]; intros q Hq; [done|]. simpl. by apply IH, Hstep.
Qed.

Lemma trace_merged (w : env) (f : fragment) (x : nat) (p : page) :
  trace (merged w f x p) = trace p.
Proof.
  unfold merged. generalize (copied w (frag_attrs f)) as l.
  generalize (parse_inner w (frag_innerHTML f)) as inner. intros inner l.
  rewrite <- (trace_set_innerHTML x inner p).
  generalize (set_innerHTML x inner p) as q. induction l as [|a l IH]; intros q; [done|].
  simpl. by rewrite IH, trace_put_attribute.
Qed.

(** What the refresh leaves, when it is not the page it found, is the
    merge. *)
Lemma refresh_drawer_cases (w : env) (html : option string) (p : page) :
  snd (refresh_drawer w html p) = p \/
  exists f c, select p sel_live_cart_element = Some c /\
    snd (refresh_drawer w html p) = merged w f c p.
Proof.
  rewrite refresh_drawer_run. destruct html as [s|]; [|by left].
  destruct (String.eqb s ""); [by left|].
  destruct (parse_cart_element w s) as [f|]; [|by left].
  destruct (select p sel_live_cart_element) as [c|]; [|by left].
  right. by exists f, c.
Qed.

Lemma trace_refresh_drawer (w : env) (html : option string) (p : page) :
  trace (snd (refresh_drawer w html p)) = trace p.
Proof.
  destruct (refresh_drawer_cases w html p) as [->|(f & c & _ & ->)]; [done|].
  apply trace_merged.
Qed.

(** [openCartDrawer] adds at most one event, the activation of one element. *)
Lemma trace_openCartDrawer (p : page) :
  trace (openCartDrawer p) = trace p \/
  exists x, trace (openCartDrawer p) = (trace p ++ [Click x]).
Proof.
  unfold openCartDrawer.
  assert (forall q, q = match select p sel_drawer_trigger with
      | Some cartTrigger => emit (Click cartTrigger) p
      | None => match select p sel_header_cart_link with
                | Some headerCartLink => emit (Click headerCartLink) p
                | None => p
                end
      end -> trace q = trace p \/ exists x, trace q = (trace p ++ [Click x])) as Hm2.
  { intros q ->. destruct (select p sel_drawer_trigger) as [t|]; [right; by exists t|].
    destruct (select p sel_header_cart_link) as [l|]; [right; by exists l|]. by left. }
  destruct (select p sel_drawer_view) as [v|]; [|by apply Hm2].
  destruct (closest p v sel_drawer) as [d|]; [|by apply Hm2].
  by left.
Qed.

Lemma mutation_requests_app (l1 l2 : list event) :
  mutation_requests (l1 ++ l2) = (mutation_requests l1 ++ mutation_requests l2).
Proof. unfold mutation_requests, requests. by rewrite omap_app, filter_app. Qed.

(** [refreshAndOpenCartDrawer] never throws and sends no mutation request. *)
Lemma refreshAndOpenCartDrawer_events (w : env) (p : page) :
  exists l, fst (refreshAndOpenCartDrawer w p) = Ok tt /\
    trace (snd (refreshAndOpenCartDrawer w p)) = (trace p ++ l) /\
    mutation_requests l = [].
Proof.
  rewrite refreshAndOpenCartDrawer_unfold. cbv zeta.
  set (r := Request _ _ _ _).
  destruct (server w (trace p) r) as [|ok [[|c d]|]]; simpl;
    try (eexists; split; [reflexivity|]; rewrite <- app_assoc; split; [reflexivity|]; reflexivity).
  set (p1 := snd (refresh_drawer w d (emit (Fetch r) p))).
  assert (trace p1 = (trace p ++ [Fetch r])) as H1.
  { unfold p1. by rewrite trace_refresh_drawer. }
  destruct (fst (refresh_drawer w d (emit (Fetch r) p))) as [[]|e].
  - destruct (trace_openCartDrawer p1) as [H2|[x H2]]; rewrite H2, H1.
    + eexists; split; [reflexivity|]. split; reflexivity.
    + eexists; split; [reflexivity|]. rewrite <- app_assoc. split; reflexivity.
  - simpl. rewrite H1. eexists; split; [reflexivity|].
    rewrite <- app_assoc. split; reflexivity.
Qed.

(** [addToCart] sends its mutation request first, and no other one. *)
Lemma addToCart_events (w : env) (variantId quantity : value) (p : page) :
  exists l, trace (snd (addToCart w variantId quantity p)) =
              (trace p ++ Fetch (add_request variantId quantity) :: l) /\
    mutation_requests l = [].
Proof.
  unfold addToCart. unfold_monad. rewrite run_fetch.
  set (r := add_request variantId quantity).
  destruct (server w (trace p) r) as [|[|] [j|]]; simpl;
    try (eexists; rewrite <- app_assoc; split; reflexivity).
  rewrite run_fetch.
  set (p1 := emit (Fetch r) p).
  destruct (server w (trace p1) cart_request) as [|ok [[|c d]|]]; simpl;
    try (eexists; rewrite <- !app_assoc; split; reflexivity).
  set (p2 := updateCartCount c (emit (Fetch cart_request) p1)).
  destruct (refreshAndOpenCartDrawer_events w p2) as (l & Hok & Htr & Hl).
  destruct (refreshAndOpenCartDrawer w p2) as [res p3]. simpl in *. subst res.
  simpl. rewrite Htr. unfold p2. rewrite trace_updateCartCount. simpl.
  exists (Fetch cart_request :: l). rewrite <- !app_assoc. split; [reflexivity|].
  change (Fetch cart_request :: l) with ([Fetch cart_request] ++ l).
  rewrite mutation_requests_app, Hl. reflexivity.
Qed.

(** ** Form submissions *)

Lemma includes_nonempty (s sub : string) :
  includes s sub = true -> sub <> "" -> String.eqb s "" = false.
Proof. intros H Hsub. destruct s; [|done]. destruct sub; [done|]. discriminate H. Qed.

(** What the [submit] listener does with a cart-add form: the default
    submission is cancelled, then the form is handed over. *)
Lemma on_submit_intercepted (w : env) (f : form) (p : page) :
  includes (action f) "/cart/add" = true ->
  on_submit w f p = handleFormSubmit w f (emit StopPropagation (emit PreventDefault p)).
Proof.
  intros H. unfold on_submit. simpl.
  rewrite (includes_nonempty _ _ H), H by done. reflexivity.
Qed.

(** A cart-add form without an [id] (absent, or empty): cancelled, logged,
    and nothing sent. *)
Lemma on_submit_without_id (w : env) (f : form) (p : page) :
  includes (action f) "/cart/add" = true ->
  truthy (form_get (fields f) "id") = false ->
  on_submit w f p =
    (Ok tt, emit (ConsoleError "No variant ID in form" None)
              (emit StopPropagation (emit PreventDefault p))) /\
  requests (trace (snd (on_submit w f p))) = requests (trace p).
Proof.
  intros Hact Hid. rewrite on_submit_intercepted by done.
  unfold handleFormSubmit. rewrite Hid. simpl. split; [reflexivity|].
  unfold requests. rewrite !omap_app. simpl. by rewrite !app_nil_r.
Qed.

(** C2, as the code has it. A cart-add form with an [id] has its submission
    cancelled and sends exactly one mutation request, with that id and
    [parseInt] of the quantity entry. The quantity is 1 when the entry is
    missing or empty. When the entry is the decimal numeral of an integer
    [n], the quantity is the Number value of [n]: [n] itself up to [2^53] in
    absolute value, the nearest double beyond. So it is at least 1 only if
    the entry is. *)
Theorem submit_sends_one_mutation (w : env) (f : form) (p : page) :
  includes (action f) "/cart/add" = true ->
  truthy (form_get (fields f) "id") = true ->
  let sent := Request "/cart/add.js" "POST"
      [("Content-Type", "application/json"); ("X-Requested-With", "XMLHttpRequest")]
      (Some (Payload (form_get (fields f) "id") (parseInt (form_quantity f)))) in
  (exists l, trace (snd (on_submit w f p)) =
      (trace p ++ [PreventDefault; StopPropagation; Fetch sent] ++ l) /\
      mutation_requests l = []) /\
  (truthy (form_get (fields f) "quantity") = false -> parseInt (form_quantity f) = Num 1) /\
  (forall n, form_get (fields f) "quantity" = VStr (pretty n) ->
     parseInt (form_quantity f) = to_number n /\
     (- 2 ^ 53 <= n <= 2 ^ 53 -> parseInt (form_quantity f) = Num n)).
Proof.
  intros Hact Hid sent. split.
  - rewrite on_submit_intercepted by done.
    unfold handleFormSubmit. rewrite Hid. simpl. unfold try_catch.
    set (p0 := emit StopPropagation (emit PreventDefault p)).
    destruct (addToCart_events w (form_get (fields f) "id")
                (js_or (form_get (fields f) "quantity") (VNum 1)) p0) as (l & Htr & Hl).
    change (add_request _ _) with sent in Htr.
    destruct (addToCart w _ _ p0) as [[[]|e] p1]; simpl in *.
    + exists l. rewrite Htr. rewrite <- !app_assoc. done.
    + exists (l ++ [ConsoleError "Form submit error:" (Some e)]).
      rewrite Htr. rewrite <- !app_assoc. simpl. split; [done|].
      rewrite mutation_requests_app, Hl. reflexivity.
  - split.
    + intros Hq. unfold form_quantity, js_or. rewrite Hq. reflexivity.
    + intros n Hq. unfold form_quantity, js_or. rewrite Hq. simpl.
      rewrite pretty_Z_nonempty. simpl. rewrite parseInt_numeral.
      split; [reflexivity|apply to_number_exact].
Qed.

Lemma submit_sends_one_mutation_witness :
  includes (action (sample_form [("quantity", VStr "2")])) "/cart/add" = true /\
  truthy (form_get (fields (sample_form [("quantity", VStr "2")])) "id") = true /\
  parseInt (form_quantity (sample_form [("quantity", VStr "2")])) = Num 2 /\
  parseInt (form_quantity (sample_form [])) = Num 1.
Proof.
  split; [reflexivity|]. split; [reflexivity|].
  pose proof (submit_sends_one_mutation online (sample_form [("quantity", VStr "2")])
                shop_page eq_refl eq_refl) as (_ & _ & H2).
  pose proof (submit_sends_one_mutation online (sample_form [])
                shop_page eq_refl eq_refl) as (_ & H1 & _).
  split; [exact (proj2 (H2 2 eq_refl) ltac:(lia))|exact (H1 eq_refl)].
Defined.

(** C2 fails on a form whose quantity field reads [0]: the request carries
    the quantity 0. *)
Lemma submit_quantity_zero_is_sent :
  ~ Forall quantity_at_least_one
      (mutation_requests
         (trace (snd (on_submit online (sample_form [("quantity", VStr "0")]) shop_page)))).
Proof.
  assert (mutation_requests
            (trace (snd (on_submit online (sample_form [("quantity", VStr "0")]) shop_page)))
          = [add_request (VStr "123") (VStr "0")]) as -> by (vm_compute; reflexivity).
  intros H. apply Forall_inv in H. destruct H as (pl & n & Hbody & Hq & Hn).
  injection Hbody as <-. simpl in Hq. injection Hq as <-. lia.
Qed.

(** ** Opening the drawer *)

Lemma closest_in_Some (h : gmap nat element) (sel : selector) (chain : list nat) (i : nat) :
  closest_in h sel chain = Some i ->
  exists up, matches h sel (i, up) = true.
Proof.
  induction chain as [|j up IH]; simpl; [done|].
  destruct (matches h sel (j, up)) eqn:Hm.
  - intros [= ->]. by exists up.
  - exact IH.
Qed.

Lemma matches_compound_Some (h : gmap nat element) (c : list simple) (i : nat) :
  matches_compound h c i = true -> exists e, h !! i = Some e /\ forallb (matches_simple e) c = true.
Proof. unfold matches_compound. destruct (h !! i) as [e|]; [|done]. intros H. by exists e. Qed.

Lemma matches_in_store (h : gmap nat element) (sel : selector) (e : nat * list nat) :
  matches h sel e = true -> is_Some (h !! fst e).
Proof.
  destruct sel as [c|outer inner]; simpl.
  - intros (x & Hx & _)%matches_compound_Some. by exists x.
  - intros [(x & Hx & _)%matches_compound_Some _]%andb_prop. by exists x.
Qed.

Lemma drawer_of_in_store (p : page) (d : nat) :
  drawer_of p = Some d -> is_Some (store p !! d).
Proof.
  unfold drawer_of. destruct (select p sel_drawer_view) as [v|]; [|done].
  unfold closest. intros (up & Hm)%closest_in_Some.
  by apply matches_in_store in Hm.
Qed.

Lemma getAttribute_setAttribute_eq (p : page) (x : nat) (k v : string) :
  is_Some (store p !! x) -> getAttribute (setAttribute x k v p) x k = Some v.
Proof.
  intros [e He]. unfold getAttribute, setAttribute, on_element. simpl.
  rewrite lookup_alter_eq, He. simpl. by rewrite lookup_insert_eq.
Qed.

Lemma getAttribute_set_style (p : page) (x y : nat) (prop v k : string) :
  getAttribute (set_style y prop v p) x k = getAttribute p x k.
Proof.
  unfold getAttribute, set_style, on_element. simpl.
  destruct (decide (y = x)) as [->|Hne].
  - rewrite lookup_alter_eq. by destruct (store p !! x).
  - by rewrite lookup_alter_ne.
Qed.

Lemma get_style_set_style_eq (p : page) (x : nat) (prop v : string) :
  is_Some (store p !! x) -> get_style (set_style x prop v p) x prop = Some (v, false).
Proof.
  intros [e He]. unfold get_style, set_style, on_element. simpl.
  rewrite lookup_alter_eq, He. simpl. by rewrite lookup_insert_eq.
Qed.

Lemma store_setAttribute_is_Some (p : page) (x y : nat) (k v : string) :
  is_Some (store (setAttribute y k v p) !! x) <-> is_Some (store p !! x).
Proof.
  unfold setAttribute, on_element. simpl.
  destruct (decide (y = x)) as [->|Hne].
  - rewrite lookup_alter_eq. destruct (store p !! x); simpl; split; intros [? ?]; eauto; done.
  - by rewrite lookup_alter_ne.
Qed.

(** [openCartDrawer], strategy by strategy. *)
Lemma openCartDrawer_unfold (p : page) :
  openCartDrawer p =
  match drawer_of p with
  | Some drawer =>
      set_style (body_id p) "overflow" "hidden" (setAttribute drawer "data-drawer-open" "true" p)
  | None =>
      match select p sel_drawer_trigger with
      | Some cartTrigger => emit (Click cartTrigger) p
      | None =>
          match select p sel_header_cart_link with
          | Some headerCartLink => emit (Click headerCartLink) p
          | None => p
          end
      end
  end.
Proof.
  unfold openCartDrawer, drawer_of.
  destruct (select p sel_drawer_view) as [v|]; [|done].
  by destruct (closest p v sel_drawer).
Qed.

(** C5, as the code has it. [openCartDrawer] tries its strategies in order
    and stops at the first that applies. The first applies when the drawer
    view that comes first in the document has a drawer container around it:
    that container gets its open-state marker and the body stops scrolling,
    with no activation; a later drawer view is not looked at. Else
    the drawer trigger is activated; else the header cart link is activated,
    and that event is the only change; else the page is left as it is. In
    each case a page is returned: no error is raised. *)
Theorem openCartDrawer_strategy_order (p : page) :
  (forall drawer, drawer_of p = Some drawer ->
     openCartDrawer p =
       set_style (body_id p) "overflow" "hidden"
         (setAttribute drawer "data-drawer-open" "true" p) /\
     getAttribute (openCartDrawer p) drawer "data-drawer-open" = Some "true" /\
     (is_Some (store p !! body_id p) ->
        get_style (openCartDrawer p) (body_id p) "overflow" = Some ("hidden", false)) /\
     trace (openCartDrawer p) = trace p /\ tree (openCartDrawer p) = tree p) /\
  (drawer_of p = None ->
     forall cartTrigger, select p sel_drawer_trigger = Some cartTrigger ->
     openCartDrawer p = emit (Click cartTrigger) p) /\
  (drawer_of p = None -> select p sel_drawer_trigger = None ->
     forall headerCartLink, select p sel_header_cart_link = Some headerCartLink ->
     openCartDrawer p = emit (Click headerCartLink) p) /\
  (drawer_of p = None -> select p sel_drawer_trigger = None ->
     select p sel_header_cart_link = None ->
     openCartDrawer p = p).
Proof.
  rewrite openCartDrawer_unfold. repeat split.
  - by rewrite H.
  - rewrite H. rewrite getAttribute_set_style.
    apply getAttribute_setAttribute_eq. by apply drawer_of_in_store.
  - intros Hbody. rewrite H. apply get_style_set_style_eq.
    by apply store_setAttribute_is_Some.
  - by rewrite H.
  - by rewrite H.
  - intros Hd t Ht. by rewrite Hd, Ht.
  - intros Hd Ht l Hl. by rewrite Hd, Ht, Hl.
  - intros Hd Ht Hl. by rewrite Hd, Ht, Hl.
Qed.

Lemma openCartDrawer_strategy_order_witness :
  drawer_of shop_page = Some 5%nat /\
  getAttribute (openCartDrawer shop_page) 5 "data-drawer-open" = Some "true" /\
  drawer_of link_only_page = None /\
  select link_only_page sel_drawer_trigger = None /\
  select link_only_page sel_header_cart_link = Some 3%nat /\
  openCartDrawer link_only_page = emit (Click 3) link_only_page.
Proof.
  split; [reflexivity|]. split.
  - exact (proj1 (proj2 (proj1 (openCartDrawer_strategy_order shop_page) 5%nat eq_refl))).
  - split; [reflexivity|]. split; [reflexivity|]. split; [reflexivity|].
    exact (proj1 (proj2 (proj2 (openCartDrawer_strategy_order link_only_page)))
             eq_refl eq_refl 3%nat eq_refl).
Defined.

(** C5 fails on a page whose first drawer view stands outside the drawer: a
    drawer view with a drawer container around it exists, the second one,
    and the drawer is not opened; the trigger is activated instead. *)
Lemma first_drawer_view_decides :
  (exists view drawer, view ∈ select_all two_view_page sel_drawer_view /\
     closest two_view_page view sel_drawer = Some drawer) /\
  select two_view_page sel_drawer_view = Some 13%nat /\
  openCartDrawer two_view_page = emit (Click 14) two_view_page /\
  getAttribute (openCartDrawer two_view_page) 5 "data-drawer-open" = None.
Proof.
  split; [|repeat split; vm_compute; reflexivity].
  exists 6%nat, 5%nat. split; [|vm_compute; reflexivity].
  assert (select_all two_view_page sel_drawer_view = [13; 6]%nat) as ->
    by (vm_compute; reflexivity).
  apply list_elem_of_further, list_elem_of_here.
Qed.

(** What a call of [openCartDrawer] leaves behind: an open drawer, or one
    more activation, or nothing at all when no strategy applies. *)
Lemma openCartDrawer_cases (q : page) :
  (exists d e, store (openCartDrawer q) !! d = Some e /\
               attrs e !! "data-drawer-open" = Some "true") \/
  (exists x, trace (openCartDrawer q) = (trace q ++ [Click x])) \/
  (drawer_of q = None /\ openCartDrawer q = q).
Proof.
  rewrite openCartDrawer_unfold.
  destruct (drawer_of q) as [d|] eqn:Hd.
  - left. pose proof (drawer_of_in_store _ _ Hd) as Hin.
    pose proof (getAttribute_setAttribute_eq q d "data-drawer-open" "true" Hin) as Hget.
    rewrite <- (getAttribute_set_style _ d (body_id q) "overflow" "hidden") in Hget.
    set (p' := set_style _ _ _ _) in *. unfold getAttribute in Hget.
    destruct (store p' !! d) as [e|] eqn:He; [|done]. by exists d, e.
  - destruct (select q sel_drawer_trigger) as [t|]; [right; left; by exists t|].
    destruct (select q sel_header_cart_link) as [l|]; [right; left; by exists l|].
    right; right. done.
Qed.

(** ** Refreshing the drawer *)

(** C1, as the code has it. [refreshAndOpenCartDrawer] never throws. When the
    fragment request is answered with a JSON body that is not [null], the run
    goes on to the merge. When the merge returns, as it does when it does
    not take place and when every attribute name of the fragment passes the
    test of [setAttribute], the run ends with [openCartDrawer]. When the
    merge throws, on an attribute name that does not pass the test, the
    error is logged and the run ends there. When the request is rejected,
    the body is not JSON, or the body is [null], the failure is logged and
    the run ends there too: in these cases no attempt is made to open the
    drawer. *)
Theorem refreshAndOpenCartDrawer_outcomes (w : env) (p : page) :
  let r := Request (origin p +:+ "/?sections=cart-drawer") "GET" [] None in
  let p1 := emit (Fetch r) p in
  let logged e q := emit (ConsoleError "Error refreshing cart:" (Some e)) q in
  fst (refreshAndOpenCartDrawer w p) = Ok tt /\
  (forall ok c html, server w (trace p) r = Response ok (Some (JObject c html)) ->
     let p2 := snd (refresh_drawer w html p1) in
     (fst (refresh_drawer w html p1) = Ok tt ->
        snd (refreshAndOpenCartDrawer w p) = openCartDrawer p2 /\
        open_attempted (snd (refreshAndOpenCartDrawer w p))) /\
     (forall e, fst (refresh_drawer w html p1) = Thrown e ->
        e = InvalidCharacterError /\
        snd (refreshAndOpenCartDrawer w p) = logged e p2 /\
        exists s f c, html = Some s /\ parse_cart_element w s = Some f /\
          select p1 sel_live_cart_element = Some c /\ all_valid w (frag_attrs f) = false) /\
     (names_accepted w html -> fst (refresh_drawer w html p1) = Ok tt)) /\
  (server w (trace p) r = NetworkFailure ->
     snd (refreshAndOpenCartDrawer w p) = logged FetchRejected p1) /\
  (forall ok, server w (trace p) r = Response ok None ->
     snd (refreshAndOpenCartDrawer w p) = logged JsonSyntaxError p1) /\
  (forall ok, server w (trace p) r = Response ok (Some JNull) ->
     snd (refreshAndOpenCartDrawer w p) = logged NullPropertyError p1).
Proof.
  intros r p1 logged. rewrite refreshAndOpenCartDrawer_unfold. cbv zeta. fold r. fold p1.
  destruct (server w (trace p) r) as [|ok [[|c d]|]]; cbn [fst snd];
    (split; [reflexivity|]);
    (split; [intros ok' c' html' Heq|
     split; [intros Heq|split; intros ok' Heq]]);
    try discriminate Heq; try reflexivity.
  injection Heq as -> -> ->. split; [|split].
  - intros ->. split; [reflexivity|]. by eexists.
  - intros e He. split; [by eapply refresh_drawer_thrown|]. split; [by rewrite He|].
    by eapply refresh_drawer_thrown_only.
  - apply refresh_drawer_returns.
Qed.

Lemma refreshAndOpenCartDrawer_outcomes_witness :
  snd (refreshAndOpenCartDrawer unreachable shop_page) =
    emit (ConsoleError "Error refreshing cart:" (Some FetchRejected))
      (emit (Fetch (Request "https://shop.example/?sections=cart-drawer" "GET" [] None))
         shop_page) /\
  open_attempted (snd (refreshAndOpenCartDrawer online shop_page)).
Proof.
  split.
  - exact (proj1 (proj2 (proj2 (refreshAndOpenCartDrawer_outcomes unreachable shop_page)))
             eq_refl).
  - exact (proj2 (proj1 (proj1 (proj2 (refreshAndOpenCartDrawer_outcomes online shop_page))
             true None (Some drawer_section) eq_refl) eq_refl)).
Defined.

Lemma shop_store_no_open_marker (d : nat) (e : element) :
  shop_store !! d = Some e -> attrs e !! "data-drawer-open" = None.
Proof.
  intros H.
  assert (map_Forall (fun _ e => attrs e !! "data-drawer-open" = None) shop_store) as HF.
  { apply (bool_decide_unpack _). vm_compute. exact I. }
  exact (HF d e H).
Qed.

(** C1 fails when the fragment cannot be fetched: the run ends with the log
    line, and the drawer that [openCartDrawer] would have opened stays
    closed. *)
Lemma refresh_failure_skips_open :
  ~ open_attempted (snd (refreshAndOpenCartDrawer unreachable shop_page)).
Proof.
  intros [q Hq]. simpl in Hq.
  destruct (openCartDrawer_cases q) as [(d & e & Hd & He)|[(x & Hx)|(Hd & Hsame)]].
  - rewrite <- Hq in Hd. simpl in Hd.
    apply shop_store_no_open_marker in Hd. congruence.
  - rewrite <- Hq in Hx. simpl in Hx.
    change [Fetch ?r; ?c] with ([Fetch r] ++ [c]) in Hx.
    apply app_inj_tail in Hx as [_ Hx]. discriminate Hx.
  - rewrite Hsame in Hq. subst q. vm_compute in Hd. discriminate Hd.
Qed.

(** ** Quick add *)

Lemma handleQuickAdd_unfold (w : env) (element : nat) (p : page) :
  handleQuickAdd w element p =
  let variantId := attribute_value (getAttribute p element "data-id") in
  match select_in p element sel_button with
  | Some button =>
      if truthy variantId then
        match addToCart w variantId (VNum 1)
                (set_disabled button true (setAttribute element "aria-busy" "true" p)) with
        | (Ok _, p1) => (Ok tt, add_timer 1000 (QuickAddReset element button) p1)
        | (Thrown e, p1) =>
            (Ok tt, set_disabled button false
                      (setAttribute element "aria-busy" "false"
                         (emit (ConsoleError "Quick add error:" (Some e)) p1)))
        end
      else (Ok tt, p)
  | None => (Ok tt, p)
  end.
Proof.
  unfold handleQuickAdd. unfold_monad. simpl.
  destruct (select_in p element sel_button) as [b|]; [|done].
  destruct (truthy _); [|done]. simpl.
  by destruct (addToCart w _ _ _) as [[[]|e] p1].
Qed.

(** C10. Every mutation request sent by [handleQuickAdd] carries the
    quantity 1, whatever the element holds. *)
Theorem quick_add_quantity_is_one (w : env) (element : nat) (p : page) :
  exists l, trace (snd (handleQuickAdd w element p)) = (trace p ++ l) /\
    Forall (fun r => exists id, body r = Some (Payload id (Num 1))) (mutation_requests l).
Proof.
  rewrite handleQuickAdd_unfold. cbv zeta.
  destruct (select_in p element sel_button) as [b|];
    [|exists []; by rewrite app_nil_r].
  destruct (truthy _); [|exists []; by rewrite app_nil_r].
  set (vid := attribute_value _).
  set (p0 := set_disabled b true _).
  assert (trace p0 = trace p) as Hp0 by (unfold p0, set_disabled; reflexivity).
  destruct (addToCart_events w vid (VNum 1) p0) as (l & Htr & Hl).
  rewrite Hp0 in Htr.
  assert (Forall (fun r => exists id, body r = Some (Payload id (Num 1)))
            (mutation_requests (Fetch (add_request vid (VNum 1)) :: l))) as Hone.
  { change (Fetch ?r :: l) with ([Fetch r] ++ l).
    rewrite mutation_requests_app, Hl, app_nil_r.
    assert (mutation_requests [Fetch (add_request vid (VNum 1))]
            = [add_request vid (VNum 1)]) as -> by reflexivity.
    constructor; [by exists vid|constructor]. }
  destruct (addToCart w vid (VNum 1) p0) as [[[]|e] p1]; simpl in *.
  - exists (Fetch (add_request vid (VNum 1)) :: l). by rewrite Htr.
  - exists ((Fetch (add_request vid (VNum 1)) :: l) ++
            [ConsoleError "Quick add error:" (Some e)]).
    unfold set_disabled. simpl. rewrite Htr, <- app_assoc. split; [done|].
    match goal with
    | |- Forall _ (mutation_requests ?evs) =>
        change evs with ((Fetch (add_request vid (VNum 1)) :: l) ++
                         [ConsoleError "Quick add error:" (Some e)])
    end.
    rewrite mutation_requests_app. apply Forall_app. split; [done|constructor].
Qed.

(** ** No mutation without a variant *)

Lemma mutation_requests_nil_tail (l : list event) (label : string) (e : option error) :
  mutation_requests (l ++ [ConsoleError label e]) = mutation_requests l.
Proof. rewrite mutation_requests_app. simpl. by rewrite app_nil_r. Qed.

Lemma addToCart_requests (w : env) (variantId quantity : value) (p : page) :
  exists l, trace (snd (addToCart w variantId quantity p)) = trace p ++ l /\
    mutation_requests l = [add_request variantId quantity].
Proof.
  destruct (addToCart_events w variantId quantity p) as (l & Htr & Hl).
  exists (Fetch (add_request variantId quantity) :: l). split; [done|].
  change (Fetch ?r :: l) with ([Fetch r] ++ l).
  rewrite mutation_requests_app, Hl. reflexivity.
Qed.

Lemma on_submit_events (w : env) (f : form) (p : page) :
  exists l, trace (snd (on_submit w f p)) = trace p ++ l /\
    Forall has_variant (mutation_requests l).
Proof.
  unfold on_submit.
  destruct (truthy (VStr (action f)) && includes (action f) "/cart/add");
    [|exists []; split; [by rewrite app_nil_r|constructor]].
  unfold_monad. simpl. unfold handleFormSubmit.
  destruct (truthy (form_get (fields f) "id")) eqn:Hid; simpl.
  - unfold try_catch. set (p0 := emit StopPropagation (emit PreventDefault p)).
    destruct (addToCart_requests w (form_get (fields f) "id") (form_quantity f) p0)
      as (l & Htr & Hl).
    assert (Forall has_variant (mutation_requests ([PreventDefault; StopPropagation] ++ l)))
      as Hall.
    { rewrite mutation_requests_app, Hl. simpl.
      constructor; [|constructor]. by eexists. }
    destruct (addToCart w _ _ p0) as [[[]|e] p1]; cbn [fst snd] in Htr |- *.
    + exists ([PreventDefault; StopPropagation] ++ l). split; [|done].
      rewrite Htr. unfold p0. simpl. by rewrite <- !app_assoc.
    + exists (([PreventDefault; StopPropagation] ++ l) ++
              [ConsoleError "Form submit error:" (Some e)]).
      split; [|by rewrite mutation_requests_nil_tail].
      unfold console_error, modify. simpl. rewrite Htr. unfold p0. simpl.
      by rewrite <- !app_assoc.
  - exists [PreventDefault; StopPropagation; ConsoleError "No variant ID in form" None].
    split; [|constructor]. simpl. by rewrite <- !app_assoc.
Qed.

Lemma handleQuickAdd_events (w : env) (element : nat) (p : page) :
  exists l, trace (snd (handleQuickAdd w element p)) = trace p ++ l /\
    (l = [] \/
     exists variantId, truthy variantId = true /\
       mutation_requests l = [add_request variantId (VNum 1)]).
Proof.
  rewrite handleQuickAdd_unfold. cbv zeta.
  destruct (select_in p element sel_button) as [b|];
    [|exists []; split; [by rewrite app_nil_r|by left]].
  destruct (truthy _) eqn:Hvid; [|exists []; split; [by rewrite app_nil_r|by left]].
  set (vid := attribute_value _) in *.
  set (p0 := set_disabled b true _).
  assert (trace p0 = trace p) as Hp0 by (unfold p0, set_disabled; reflexivity).
  destruct (addToCart_requests w vid (VNum 1) p0) as (l & Htr & Hl).
  rewrite Hp0 in Htr.
  destruct (addToCart w vid (VNum 1) p0) as [[[]|e] p1]; simpl in *.
  - exists l. split; [done|]. right. by exists vid.
  - exists (l ++ [ConsoleError "Quick add error:" (Some e)]).
    unfold set_disabled. simpl. rewrite Htr, <- app_assoc. split; [done|].
    right. exists vid. by rewrite mutation_requests_nil_tail.
Qed.

Lemma on_click_events (w : env) (target : nat) (p : page) :
  exists l, trace (snd (on_click w target p)) = trace p ++ l /\
    Forall has_variant (mutation_requests l).
Proof.
  unfold on_click. unfold_monad. simpl.
  destruct (closest p target sel_quick_add) as [q|];
    [|exists []; split; [by rewrite app_nil_r|constructor]].
  simpl. set (p0 := emit StopPropagation (emit PreventDefault p)).
  destruct (handleQuickAdd_events w q p0) as (l & Htr & Hl).
  exists ([PreventDefault; StopPropagation] ++ l). split.
  - rewrite Htr. simpl. by rewrite <- !app_assoc.
  - rewrite mutation_requests_app. simpl.
    destruct Hl as [->|(vid & Hvid & ->)]; [constructor|].
    constructor; [|constructor]. by eexists.
Qed.

(** C8. A mutation request is never sent without a variant identifier. A
    cart-add form whose [id] entry is absent (or empty) has its default
    submission cancelled and the failure logged, and sends no request at all;
    and whatever the form or the click, every mutation request of the run
    carries a variant identifier. *)
Theorem no_mutation_without_variant (w : env) (p : page) :
  (forall f,
     includes (action f) "/cart/add" = true ->
     truthy (form_get (fields f) "id") = false ->
     on_submit w f p =
       (Ok tt, emit (ConsoleError "No variant ID in form" None)
                 (emit StopPropagation (emit PreventDefault p))) /\
     requests (trace (snd (on_submit w f p))) = requests (trace p)) /\
  (forall f, exists l, trace (snd (on_submit w f p)) = trace p ++ l /\
     Forall has_variant (mutation_requests l)) /\
  (forall target, exists l, trace (snd (on_click w target p)) = trace p ++ l /\
     Forall has_variant (mutation_requests l)).
Proof.
  split; [|split].
  - intros f Hact Hid. by apply on_submit_without_id.
  - intros f. apply on_submit_events.
  - intros target. apply on_click_events.
Qed.

Lemma no_mutation_without_variant_witness :
  includes (action form_without_id) "/cart/add" = true /\
  truthy (form_get (fields form_without_id) "id") = false /\
  requests (trace (snd (on_submit online form_without_id shop_page))) = [].
Proof.
  split; [reflexivity|]. split; [reflexivity|].
  exact (proj2 (proj1 (no_mutation_without_variant online shop_page) form_without_id
                  eq_refl eq_refl)).
Defined.

(** ** Trees *)

Lemma find_subtree_Node (x i : nat) (kids : list dtree) :
  find_subtree x (Node i kids) =
  if decide (i = x) then Some (Node i kids) else find_in_forest x kids.
Proof.
  simpl. destruct (decide (i = x)); [done|].
  induction kids as [|k r IH]; simpl; [done|].
  destruct (find_subtree x k); [done|]. exact IH.
Qed.

Lemma walk_Node (anc : list nat) (i : nat) (kids : list dtree) :
  walk anc (Node i kids) = (i, anc) :: walk_forest (i :: anc) kids.
Proof. reflexivity. Qed.

Lemma walk_forest_cons (anc : list nat) (k : dtree) (r : list dtree) :
  walk_forest anc (k :: r) = (walk anc k ++ walk_forest anc r).
Proof. reflexivity. Qed.

Lemma walk_forest_app (anc : list nat) (l1 l2 : list dtree) :
  walk_forest anc (l1 ++ l2) = (walk_forest anc l1 ++ walk_forest anc l2).
Proof. unfold walk_forest. apply flat_map_app. Qed.

(** The identities met by a walk do not depend on the ancestors it starts
    from. *)
Lemma walk_ids (t : dtree) (anc : list nat) : map fst (walk anc t) = ids t.
Proof.
  unfold ids. revert anc. generalize (@nil nat) as anc0. revert t.
  induction t as [s|i kids IH] using dtree_forall_ind; intros anc0 anc; [done|].
  rewrite !walk_Node. simpl. f_equal.
  induction IH as [|k r Hk _ IHr]; [done|].
  rewrite !walk_forest_cons, !map_app. f_equal; [apply Hk|apply IHr].
Qed.

Lemma walk_forest_ids (l : list dtree) (anc : list nat) :
  map fst (walk_forest anc l) = ids_forest l.
Proof.
  induction l as [|k r IH]; [done|].
  rewrite walk_forest_cons, map_app, walk_ids, IH. reflexivity.
Qed.

Lemma ids_Node (i : nat) (kids : list dtree) : ids (Node i kids) = i :: ids_forest kids.
Proof. unfold ids. rewrite walk_Node. simpl. by rewrite walk_forest_ids. Qed.

(** Every entry of a walk keeps the ancestors the walk started from. *)
Lemma walk_ancestors (t : dtree) (anc : list nat) (e : nat * list nat) :
  e ∈ walk anc t -> exists path, snd e = (path ++ anc).
Proof.
  revert anc. induction t as [s|i kids IH] using dtree_forall_ind; intros anc.
  - intros H. by apply elem_of_nil in H.
  - rewrite walk_Node. intros [->|H]%elem_of_cons; [by exists []|].
    revert H. induction IH as [|k r Hk _ IHr]; [by intros ?%elem_of_nil|].
    rewrite walk_forest_cons. intros [H|H]%elem_of_app; [|by apply IHr].
    destruct (Hk _ H) as [path ->]. exists (path ++ [i]). by rewrite <- app_assoc.
Qed.

Lemma walk_forest_ancestors (l : list dtree) (anc : list nat) (e : nat * list nat) :
  e ∈ walk_forest anc l -> exists path, snd e = (path ++ anc).
Proof.
  induction l as [|k r IH]; [by intros ?%elem_of_nil|].
  rewrite walk_forest_cons. intros [H|H]%elem_of_app; [|by apply IH].
  by eapply walk_ancestors.
Qed.

Lemma with_children_absent (x : nat) (f : list dtree -> list dtree) (t : dtree) :
  x ∉ ids t -> with_children x f t = t.
Proof.
  induction t as [s|i kids IH] using dtree_forall_ind; [done|].
  rewrite ids_Node. intros [Hne Hkids]%not_elem_of_cons. simpl.
  rewrite decide_False by done. f_equal.
  induction IH as [|k r Hk _ IHr]; [done|].
  simpl in Hkids. apply not_elem_of_app in Hkids as [H1 H2].
  simpl. by rewrite Hk, IHr.
Qed.

Lemma with_children_forest_absent (x : nat) (f : list dtree -> list dtree) (l : list dtree) :
  x ∉ ids_forest l -> map (with_children x f) l = l.
Proof.
  induction l as [|k r IH]; [done|].
  simpl. intros [H1 H2]%not_elem_of_app.
  by rewrite with_children_absent, IH.
Qed.

Lemma find_subtree_absent (x : nat) (t : dtree) : x ∉ ids t -> find_subtree x t = None.
Proof.
  induction t as [s|i kids IH] using dtree_forall_ind; [done|].
  rewrite ids_Node, find_subtree_Node. intros [Hne Hkids]%not_elem_of_cons.
  rewrite decide_False by done.
  induction IH as [|k r Hk _ IHr]; [done|].
  simpl in Hkids. apply not_elem_of_app in Hkids as [H1 H2].
  simpl. by rewrite Hk, IHr.
Qed.

Ltac reassociate :=
  repeat (rewrite <- app_assoc || rewrite <- app_comm_cons); try reflexivity.

Lemma walk_forest_split (x : nat) (l : list dtree) :
  Forall (fun t => forall anc, x ∈ ids t -> NoDup (ids t) ->
            split_at x anc (walk anc t) (fun f => walk anc (with_children x f t))
              (find_subtree x t)) l ->
  forall anc, x ∈ ids_forest l -> NoDup (ids_forest l) ->
    split_at x anc (walk_forest anc l)
      (fun f => walk_forest anc (map (with_children x f) l)) (find_in_forest x l).
Proof.
  induction 1 as [|k r Hk _ IHr]; intros anc Hin Hnd; [by apply elem_of_nil in Hin|].
  simpl in Hin, Hnd. apply NoDup_app in Hnd as (Hndk & Hdisj & Hndr).
  apply elem_of_app in Hin as [Hin|Hin].
  - assert (x ∉ ids_forest r) as Hr' by (by apply Hdisj).
    destruct (Hk anc Hin Hndk) as (pre & a & kids & post & path & Hw & Hf & Hrw & Ha & Hpath).
    exists pre, a, kids, (post ++ walk_forest anc r), path.
    split; [|split; [|split; [|split]]]; try done.
    + rewrite walk_forest_cons, Hw. reassociate.
    + simpl. by rewrite Hf.
    + intros f. rewrite map_cons, walk_forest_cons, Hrw.
      rewrite with_children_forest_absent by done.
      reassociate.
  - assert (x ∉ ids k) as Hk' by (intros Hk'; by apply (Hdisj x)).
    destruct (IHr anc Hin Hndr) as (pre & a & kids & post & path & Hw & Hf & Hrw & Ha & Hpath).
    exists (walk anc k ++ pre), a, kids, post, path.
    split; [|split; [|split; [|split]]]; try done.
    + rewrite walk_forest_cons, Hw. reassociate.
    + simpl. by rewrite find_subtree_absent.
    + intros f. rewrite map_cons, walk_forest_cons, Hrw, with_children_absent by done.
      reassociate.
    + intros y Hy. rewrite map_app. apply elem_of_app. right. by apply Hpath.
Qed.

Lemma walk_split (x : nat) (t : dtree) (anc : list nat) :
  x ∈ ids t -> NoDup (ids t) ->
  split_at x anc (walk anc t) (fun f => walk anc (with_children x f t)) (find_subtree x t).
Proof.
  revert anc. induction t as [s|i kids IH] using dtree_forall_ind; intros anc.
  - intros H. by apply elem_of_nil in H.
  - rewrite ids_Node. intros Hin Hnd. apply NoDup_cons in Hnd as [Hi Hnd].
    destruct (decide (i = x)) as [->|Hne].
    + exists [], anc, kids, [], [].
      split; [|split; [|split; [|split]]].
      * rewrite walk_Node. simpl. by rewrite app_nil_r.
      * rewrite find_subtree_Node. by rewrite decide_True.
      * intros f. simpl. rewrite decide_True by done. rewrite walk_Node.
        by rewrite app_nil_r.
      * done.
      * intros y Hy. by apply elem_of_nil in Hy.
    + apply elem_of_cons in Hin as [->|Hin]; [done|].
      destruct (walk_forest_split x kids IH (i :: anc) Hin Hnd)
        as (pre & a & ks & post & path & Hw & Hf & Hrw & Ha & Hpath).
      exists ((i, anc) :: pre), a, ks, post, (path ++ [i]).
      split; [|split; [|split; [|split]]].
      * rewrite walk_Node, Hw. reflexivity.
      * rewrite find_subtree_Node. by rewrite decide_False.
      * intros f. simpl. rewrite decide_False by done. rewrite walk_Node.
        fold (walk_forest (i :: anc) (map (with_children x f) kids)). by rewrite Hrw.
      * rewrite Ha. reassociate.
      * intros y [Hy|Hy]%elem_of_app.
        -- simpl. apply elem_of_cons. right. by apply Hpath.
        -- apply list_elem_of_singleton in Hy as ->. simpl. apply elem_of_cons. by left.
Qed.

(** Rewriting the children of [x] keeps [x] where it is. *)
Lemma find_subtree_with_children (x : nat) (f : list dtree -> list dtree) (t : dtree) :
  x ∈ ids t ->
  exists kids, find_subtree x t = Some (Node x kids) /\
    find_subtree x (with_children x f t) = Some (Node x (f kids)).
Proof.
  induction t as [s|i kids IH] using dtree_forall_ind.
  - intros H. by apply elem_of_nil in H.
  - rewrite ids_Node. intros Hin.
    destruct (decide (i = x)) as [->|Hne].
    + exists kids. simpl. rewrite !decide_True by done. simpl.
      by rewrite decide_True.
    + apply elem_of_cons in Hin as [->|Hin]; [done|].
      assert (with_children x f (Node i kids) = Node i (map (with_children x f) kids)) as ->.
      { simpl. by rewrite decide_False. }
      rewrite !find_subtree_Node, !decide_False by done.
      induction IH as [|k r Hk _ IHr]; [by apply elem_of_nil in Hin|].
      simpl in Hin. simpl.
      destruct (decide (x ∈ ids k)) as [Hk'|Hk'].
      * destruct (Hk Hk') as (ks & -> & ->). by exists ks.
      * apply elem_of_app in Hin as [Hin|Hin]; [done|].
        rewrite with_children_absent, find_subtree_absent by done. by apply IHr.
Qed.

(** Filling a child that was just appended is appending the filled child. *)
Lemma with_children_appended (b h : nat) (g : list dtree -> list dtree) (t : dtree) :
  b ∉ ids t ->
  with_children b g (with_children h (fun kids => (kids ++ [Node b []])) t) =
  with_children h (fun kids => (kids ++ [Node b (g [])])) t.
Proof.
  induction t as [s|i kids IH] using dtree_forall_ind; [done|].
  rewrite ids_Node. intros [Hne Hkids]%not_elem_of_cons.
  simpl. destruct (decide (i = h)) as [->|Hih].
  - simpl. rewrite decide_False by done. f_equal.
    rewrite map_app, with_children_forest_absent by done. simpl.
    by rewrite decide_True.
  - simpl. rewrite decide_False by done. f_equal.
    rewrite map_map.
    induction IH as [|k r Hk _ IHr]; [done|].
    simpl in Hkids. apply not_elem_of_app in Hkids as [H1 H2].
    simpl. by rewrite Hk, IHr.
Qed.

(** ** Selections *)

Lemma filter_ext_in {A : Type} (P Q : A -> Prop) `{forall x, Decision (P x)}
    `{forall x, Decision (Q x)} (l : list A) :
  (forall x, x ∈ l -> (P x <-> Q x)) -> filter P l = filter Q l.
Proof.
  induction l as [|x l IH]; intros Hext; [done|].
  rewrite !filter_cons.
  assert (filter P l = filter Q l) as ->.
  { apply IH. intros y Hy. apply Hext. by right. }
  destruct (decide (P x)) as [HP|HP], (decide (Q x)) as [HQ|HQ]; try done.
  - exfalso. apply HQ, Hext; [by left|done].
  - exfalso. apply HP, Hext; [by left|done].
Qed.

Lemma filter_nil_app {A : Type} (P : A -> Prop) `{forall x, Decision (P x)} (l1 l2 : list A) :
  filter P (l1 ++ l2) = [] <-> filter P l1 = [] /\ filter P l2 = [].
Proof. rewrite filter_app. split; [by intros [? ?]%app_eq_nil|by intros [-> ->]]. Qed.

(** The first selected entry is met before the walk is changed: changing
    what follows does not change it. *)
Lemma head_filter_stable {P : nat * list nat -> Prop} `{forall e, Decision (P e)}
    (pre rest rest' : list (nat * list nat)) (x : nat) :
  NoDup (map fst (pre ++ rest)) -> x ∈ map fst pre ->
  head (map fst (filter P (pre ++ rest))) = Some x ->
  head (map fst (filter P (pre ++ rest'))) = Some x.
Proof.
  intros Hnd Hx. rewrite !filter_app, !map_app.
  destruct (map fst (filter P pre)) as [|y l] eqn:Hpre; [|done].
  simpl. intros Hhead. exfalso.
  rewrite map_app in Hnd. apply NoDup_app in Hnd as (_ & Hdisj & _).
  apply (Hdisj x Hx).
  destruct (filter P rest) as [|e l] eqn:Hrest; [done|].
  simpl in Hhead. injection Hhead as <-.
  apply (list_elem_of_fmap_2 fst). 
  assert (e ∈ filter P rest) as He by (rewrite Hrest; by left).
  by apply list_elem_of_filter in He as [_ He].
Qed.

Lemma matches_class (h : gmap nat element) (c : string) (e : nat * list nat) :
  matches h (Compound [HasClass c]) e = has_class c h (fst e).
Proof.
  unfold has_class, class_of. simpl. unfold matches_compound.
  destruct (h !! fst e) as [x|]; [|done]. simpl.
  destruct (attrs x !! "class"); [|done]. by rewrite andb_true_r.
Qed.

(** *** Attributes after a step *)

Lemma store_foldl_setAttribute (k v : string) (l : list nat) (p : page) (x : nat) :
  store (foldl (fun q y => setAttribute y k v q) p l) !! x =
  if decide (x ∈ l) then with_attribute k v <$> store p !! x else store p !! x.
Proof.
  revert p. induction l as [|y l IH]; intros p; simpl; [done|].
  rewrite IH.
  assert (store (setAttribute y k v p) !! x =
          if decide (y = x) then with_attribute k v <$> store p !! x else store p !! x) as ->.
  { unfold setAttribute, on_element. simpl.
    destruct (decide (y = x)) as [->|Hne]; [by rewrite lookup_alter_eq|by rewrite lookup_alter_ne]. }
  destruct (decide (x ∈ y :: l)) as [Hin|Hin], (decide (x ∈ l)) as [Hin'|Hin'],
    (decide (y = x)) as [->|Hne]; try done.
  - destruct (store p !! x) as [e|]; [|done]. simpl. unfold with_attribute. simpl.
    by rewrite insert_insert_eq.
  - apply elem_of_cons in Hin as [->|Hin]; done.
  - exfalso. apply Hin. by right.
  - exfalso. apply Hin. by right.
  - exfalso. apply Hin. by left.
Qed.

Lemma tree_foldl_setAttribute (k v : string) (l : list nat) (p : page) :
  tree (foldl (fun q y => setAttribute y k v q) p l) = tree p.
Proof. revert p. induction l as [|y l IH]; intros p; simpl; [done|]. by rewrite IH. Qed.

Lemma class_of_foldl_setAttribute (k v : string) (l : list nat) (p : page) (x : nat) :
  k <> "class" ->
  class_of (store (foldl (fun q y => setAttribute y k v q) p l)) x = class_of (store p) x.
Proof.
  intros Hk. unfold class_of. rewrite store_foldl_setAttribute.
  destruct (decide (x ∈ l)) as [_|_]; [|done].
  destruct (store p !! x) as [e|]; [|done]. simpl. by rewrite lookup_insert_ne.
Qed.

Lemma dom_foldl_setAttribute (k v : string) (l : list nat) (p : page) :
  dom (store (foldl (fun q y => setAttribute y k v q) p l)) = dom (store p).
Proof.
  apply set_eq. intros x. rewrite !elem_of_dom, store_foldl_setAttribute.
  destruct (decide (x ∈ l)) as [_|_]; [|done]. by rewrite fmap_is_Some.
Qed.

Lemma NoDup_fst_functional {A B : Type} (l : list (A * B)) (x : A) (y y' : B) :
  NoDup (map fst l) -> (x, y) ∈ l -> (x, y') ∈ l -> y = y'.
Proof.
  induction l as [|[x0 y0] l IH]; simpl; [by intros _ ?%elem_of_nil|].
  intros [Hx0 Hnd]%NoDup_cons [Heq|Hin]%elem_of_cons [Heq'|Hin']%elem_of_cons.
  - congruence.
  - injection Heq as -> ->. exfalso. apply Hx0.
    by apply (list_elem_of_fmap_2 fst) in Hin'.
  - injection Heq' as -> ->. exfalso. apply Hx0.
    by apply (list_elem_of_fmap_2 fst) in Hin.
  - by apply IH.
Qed.

Lemma select_all_class_ext (p q : page) (c : string) :
  tree q = tree p ->
  (forall i, i ∈ ids (tree p) -> class_of (store q) i = class_of (store p) i) ->
  select_all q (Compound [HasClass c]) = select_all p (Compound [HasClass c]).
Proof.
  intros Ht Hc. unfold select_all. rewrite Ht. f_equal.
  apply filter_ext_in. intros e He. rewrite !matches_class. unfold has_class.
  rewrite Hc; [done|]. rewrite <- (walk_ids _ []). by apply (list_elem_of_fmap_2 fst).
Qed.

Lemma select_all_in_class_ext (p q : page) (x : nat) (c : string) :
  tree q = tree p ->
  (forall i, i ∈ ids (tree p) -> class_of (store q) i = class_of (store p) i) ->
  select_all_in q x (Compound [HasClass c]) = select_all_in p x (Compound [HasClass c]).
Proof.
  intros Ht Hc. unfold select_all_in. rewrite Ht. f_equal.
  apply filter_ext_in. intros e He. rewrite !matches_class. unfold has_class.
  rewrite Hc; [done|]. rewrite <- (walk_ids _ []). by apply (list_elem_of_fmap_2 fst).
Qed.

Lemma badges_class_ext (p q : page) :
  tree q = tree p ->
  (forall i, i ∈ ids (tree p) -> class_of (store q) i = class_of (store p) i) ->
  badges q = badges p.
Proof.
  intros Ht Hc. unfold badges, select, sel_header_cart, sel_badge.
  rewrite (select_all_class_ext p q) by done.
  destruct (head _) as [h|]; [|done]. by apply select_all_in_class_ext.
Qed.

(** A selected element is in the tree and in the store. *)
Lemma select_all_in_elem (p : page) (x b : nat) (sel : selector) :
  b ∈ select_all_in p x sel ->
  exists a, (b, a) ∈ walk [] (tree p) /\ x ∈ a /\ matches (store p) sel (b, a) = true.
Proof.
  unfold select_all_in. intros ([b' a] & -> & He)%list_elem_of_fmap.
  apply list_elem_of_filter in He as [HP He]. exists a.
  apply andb_prop_elim in HP as [H1 H2].
  apply bool_decide_unpack in H1. split; [done|]. split; [done|].
  by apply Is_true_eq_true.
Qed.

Lemma select_all_elem (p : page) (b : nat) (sel : selector) :
  b ∈ select_all p sel <->
  exists a, (b, a) ∈ walk [] (tree p) /\ matches (store p) sel (b, a) = true.
Proof.
  unfold select_all. rewrite list_elem_of_fmap. split.
  - intros ([b' a] & -> & He). apply list_elem_of_filter in He as [HP He].
    exists a. split; [done|]. by apply Is_true_eq_true.
  - intros (a & He & Hm). exists (b, a). split; [done|].
    apply list_elem_of_filter. split; [|done]. by apply Is_true_eq_left.
Qed.

Lemma head_elem {A : Type} (l : list A) (x : A) : head l = Some x -> x ∈ l.
Proof. destruct l; [done|]. intros [= ->]. by left. Qed.

Lemma updateCartCount_unfold (count : count_value) (p : page) :
  updateCartCount count p =
  match select p sel_header_cart with
  | Some headerCart =>
      let '(badge, p2) := find_or_create_badge headerCart (counted count p) in
      if count_positive count
      then set_style badge "display" "flex" (set_textContent badge (count_string count) p2)
      else set_style badge "display" "none" p2
  | None => counted count p
  end.
Proof.
  unfold updateCartCount. fold (counted count p).
  assert (select (counted count p) sel_header_cart = select p sel_header_cart) as ->; [|done].
  unfold select. f_equal. apply select_all_class_ext.
  - apply tree_foldl_setAttribute.
  - intros i _. by apply class_of_foldl_setAttribute.
Qed.

Lemma find_or_create_badge_unfold (count : count_value) (h : nat) (p : page) :
  find_or_create_badge h (counted count p) =
  match select_in p h sel_badge with
  | Some badge => (badge, counted count p)
  | None =>
      let badge := fresh (dom (store p)) in
      (badge,
       appendChild h badge
         (set_cssText badge badge_css
            (setAttribute badge "class" "cart-count-badge"
               (set_store (<[badge := Element "span" ∅ ∅]> (store (counted count p)))
                  (counted count p)))))
  end.
Proof.
  unfold find_or_create_badge.
  assert (select_in (counted count p) h sel_badge = select_in p h sel_badge) as ->.
  { unfold select_in. f_equal. apply select_all_in_class_ext.
    - apply tree_foldl_setAttribute.
    - intros i _. by apply class_of_foldl_setAttribute. }
  destruct (select_in p h sel_badge); [done|].
  unfold createElement. cbv zeta.
  assert (dom (store (counted count p)) = dom (store p)) as -> by apply dom_foldl_setAttribute.
  reflexivity.
Qed.

Lemma matches_class_ext (h h' : gmap nat element) (c : string) (e : nat * list nat) :
  class_of h' (fst e) = class_of h (fst e) ->
  matches h' (Compound [HasClass c]) e = matches h (Compound [HasClass c]) e.
Proof. intros Hc. rewrite !matches_class. unfold has_class. by rewrite Hc. Qed.

Lemma walk_elem_ids (t : dtree) (e : nat * list nat) : e ∈ walk [] t -> fst e ∈ ids t.
Proof. intros He. rewrite <- (walk_ids t []). by apply (list_elem_of_fmap_2 fst). Qed.

Lemma filter_sublist_mono {A : Type} (P : A -> Prop) `{forall x, Decision (P x)}
    (l k : list A) :
  l `sublist_of` k -> filter P l `sublist_of` filter P k.
Proof.
  induction 1 as [|x l k _ IH|x l k _ IH]; [done| |].
  - rewrite !filter_cons. destruct (decide (P x)); [by apply sublist_skip|done].
  - rewrite filter_cons. destruct (decide (P x)); [by apply sublist_cons|done].
Qed.

(** *** The badge when the children of an existing badge are replaced by
    text *)
Lemma prune_keeps_badge (p q : page) (h b : nat) (kids' : list dtree) :
  NoDup (ids (tree p)) ->
  tree q = with_children b (fun _ => kids') (tree p) ->
  (forall anc, walk_forest anc kids' = []) ->
  (forall i, class_of (store q) i = class_of (store p) i) ->
  select p sel_header_cart = Some h -> head (badges p) = Some b ->
  select q sel_header_cart = Some h /\ head (badges q) = Some b /\
  (List.length (badges q) <= List.length (badges p))%nat /\
  walk [] (tree q) `sublist_of` walk [] (tree p).
Proof.
  intros Hnd Ht Hk Hc Hh Hb.
  assert (badges p = select_all_in p h sel_badge) as Hbp by (unfold badges; by rewrite Hh).
  pose proof (head_elem _ _ Hb) as Hbin. rewrite Hbp in Hbin.
  apply select_all_in_elem in Hbin as (a0 & Hin0 & Hha0 & _).
  pose proof (walk_elem_ids _ _ Hin0) as Hbids. simpl in Hbids.
  destruct (walk_split b (tree p) [] Hbids Hnd)
    as (pre & a & kids & post & path & HW & _ & Hrw & Ha & Hpath).
  specialize (Hrw (fun _ => kids')). cbv beta in Hrw.
  rewrite <- Ht, Hk in Hrw. simpl in Hrw.
  rewrite app_nil_r in Ha. subst path.
  assert (a0 = a) as ->.
  { eapply (NoDup_fst_functional (walk [] (tree p))); [by rewrite walk_ids|done|].
    rewrite HW. apply elem_of_app. right. by left. }
  assert (NoDup (map fst (pre ++ (b, a) :: walk_forest (b :: a) kids ++ post))) as HndW.
  { rewrite <- HW, walk_ids. done. }
  assert (select q sel_header_cart = Some h) as Hhq.
  { unfold select, select_all, sel_header_cart in *. rewrite Hrw.
    rewrite (filter_ext_in _ (fun e => matches (store p) (Compound [HasClass "header--cart"]) e)).
    2:{ intros e _. by rewrite (matches_class_ext (store p) (store q)). }
    rewrite HW in Hh.
    exact (head_filter_stable pre _ _ h HndW (Hpath h Hha0) Hh). }
  split; [done|].
  assert (badges q = select_all_in q h sel_badge) as Hbq by (unfold badges; by rewrite Hhq).
  rewrite Hbq, Hbp in *. unfold select_all_in, sel_badge in *.
  rewrite Hrw.
  rewrite (filter_ext_in _ (fun e => bool_decide (h ∈ snd e) &&
             matches (store p) (Compound [HasClass "cart-count-badge"]) e)).
  2:{ intros e _. by rewrite (matches_class_ext (store p) (store q)). }
  rewrite HW in Hb |- *.
  split; [|split].
  - change (pre ++ (b, a) :: ?r) with (pre ++ [(b, a)] ++ r) in Hb |- *.
    rewrite app_assoc in Hb |- *.
    change (pre ++ (b, a) :: ?r) with (pre ++ [(b, a)] ++ r) in HndW.
    rewrite app_assoc in HndW.
    refine (head_filter_stable _ _ _ b HndW _ Hb).
    rewrite map_app. apply elem_of_app. right. by left.
  - rewrite !length_map. apply sublist_length.
    apply filter_sublist_mono.
    apply sublist_app; [done|]. apply sublist_skip. by apply sublist_inserts_l.
  - apply sublist_app; [done|]. apply sublist_skip. by apply sublist_inserts_l.
Qed.

(** *** The badge when a new one is appended to the header cart *)
Lemma append_creates_badge (p q : page) (h b : nat) (kb : list dtree) :
  NoDup (ids (tree p)) ->
  b ∉ ids (tree p) -> store p !! b = None ->
  tree q = with_children h (fun kids => kids ++ [Node b kb]) (tree p) ->
  (forall anc, walk_forest anc kb = []) ->
  (forall i, i <> b -> class_of (store q) i = class_of (store p) i) ->
  class_of (store q) b = Some "cart-count-badge" ->
  select p sel_header_cart = Some h -> badges p = [] ->
  select q sel_header_cart = Some h /\ badges q = [b] /\
  exists pre a mid post,
    walk [] (tree p) = pre ++ (h, a) :: mid ++ post /\
    walk [] (tree q) = pre ++ (h, a) :: (mid ++ [(b, h :: a)]) ++ post.
Proof.
  intros Hnd Hfresh Hnew Ht Hk Hc Hcb Hh Hb.
  assert (badges p = select_all_in p h sel_badge) as Hbp by (unfold badges; by rewrite Hh).
  pose proof (head_elem _ _ Hh) as Hhin.
  apply select_all_elem in Hhin as (a0 & Hin0 & _).
  pose proof (walk_elem_ids _ _ Hin0) as Hhids. simpl in Hhids.
  destruct (walk_split h (tree p) [] Hhids Hnd)
    as (pre & a & kids & post & path & HW & _ & Hrw & _ & _).
  specialize (Hrw (fun kids => kids ++ [Node b kb])). cbv beta in Hrw.
  rewrite <- Ht, walk_forest_app in Hrw.
  assert (walk_forest (h :: a) [Node b kb] = [(b, h :: a)]) as Hone.
  { unfold walk_forest. simpl. fold (walk_forest (b :: h :: a) kb). by rewrite Hk. }
  rewrite Hone in Hrw. set (mid := walk_forest (h :: a) kids) in *.
  assert (NoDup (map fst (pre ++ (h, a) :: mid ++ post))) as HndW.
  { rewrite <- HW, walk_ids. done. }
  assert (forall e, e ∈ walk [] (tree p) -> fst e <> b) as Hold.
  { intros e He Heq. apply Hfresh. rewrite <- Heq. by apply walk_elem_ids. }
  assert (class_of (store p) b = None) as Hcp by (unfold class_of; by rewrite Hnew).
  assert (forall c e, e ∈ walk [] (tree p) ->
            matches (store q) (Compound [HasClass c]) e
            = matches (store p) (Compound [HasClass c]) e) as Hext.
  { intros c e He. apply matches_class_ext. apply Hc. by apply Hold. }
  assert (select q sel_header_cart = Some h) as Hhq.
  { unfold select, select_all, sel_header_cart in *. rewrite Hrw.
    rewrite (filter_ext_in _ (fun e => matches (store p) (Compound [HasClass "header--cart"]) e)).
    2:{ intros e He. destruct (decide (fst e = b)) as [Heq|Hne].
        - rewrite !matches_class. unfold has_class. rewrite Heq, Hcb, Hcp. done.
        - by rewrite (matches_class_ext (store p) (store q)) by (by apply Hc). }
    rewrite HW in Hh.
    change (pre ++ (h, a) :: ?r) with (pre ++ [(h, a)] ++ r) in Hh, HndW |- *.
    rewrite app_assoc in Hh, HndW |- *.
    refine (head_filter_stable _ _ _ h HndW _ Hh).
    rewrite map_app. apply elem_of_app. right. by left. }
  split; [done|]. split; [|by exists pre, a, mid, post].
  assert (badges q = select_all_in q h sel_badge) as -> by (unfold badges; by rewrite Hhq).
  rewrite Hbp in Hb. unfold select_all_in, sel_badge in *.
  apply fmap_nil_inv in Hb. rewrite HW in Hb.
  change (pre ++ (h, a) :: mid ++ post) with (pre ++ [(h, a)] ++ mid ++ post) in Hb.
  apply filter_nil_app in Hb as (Hb1 & Hb2). apply filter_nil_app in Hb2 as (Hb2 & Hb3).
  apply filter_nil_app in Hb3 as (Hb3 & Hb4).
  assert (forall l : list (nat * list nat), (forall e, e ∈ l -> e ∈ walk [] (tree p)) ->
            filter (fun e => bool_decide (h ∈ e.2) &&
                             matches (store q) (Compound [HasClass "cart-count-badge"]) e) l
            = filter (fun e => bool_decide (h ∈ e.2) &&
                             matches (store p) (Compound [HasClass "cart-count-badge"]) e) l)
    as Hparts.
  { intros l Hl. apply filter_ext_in. intros e He. by rewrite Hext by (by apply Hl). }
  rewrite Hrw.
  change (pre ++ (h, a) :: (mid ++ [(b, h :: a)]) ++ post)
    with (pre ++ [(h, a)] ++ (mid ++ [(b, h :: a)]) ++ post).
  rewrite !filter_app.
  rewrite (Hparts pre), (Hparts [(h, a)]), (Hparts mid), (Hparts post), Hb1, Hb2, Hb3, Hb4.
  - rewrite filter_cons_True; [done|].
    rewrite matches_class. unfold has_class. cbn [fst snd]. rewrite Hcb.
    rewrite bool_decide_true by (by left). done.
  - intros e He. rewrite HW. repeat (rewrite elem_of_app || rewrite elem_of_cons). tauto.
  - intros e He. rewrite HW. repeat (rewrite elem_of_app || rewrite elem_of_cons). tauto.
  - intros e He%list_elem_of_singleton. rewrite HW.
    repeat (rewrite elem_of_app || rewrite elem_of_cons). tauto.
  - intros e He. rewrite HW. repeat (rewrite elem_of_app || rewrite elem_of_cons). tauto.
Qed.

(** *** Element records after a step *)

Lemma store_on_element_eq (x : nat) (f : element -> element) (p : page) :
  store (on_element x f p) !! x = f <$> store p !! x.
Proof. unfold on_element. simpl. by rewrite lookup_alter_eq. Qed.

Lemma store_on_element_ne (x y : nat) (f : element -> element) (p : page) :
  x <> y -> store (on_element x f p) !! y = store p !! y.
Proof. intros Hne. unfold on_element. simpl. by rewrite lookup_alter_ne. Qed.

Lemma dom_on_element (x : nat) (f : element -> element) (p : page) :
  dom (store (on_element x f p)) = dom (store p).
Proof. unfold on_element. simpl. by rewrite dom_alter_L. Qed.

Lemma class_of_set_style (y : nat) (prop v : string) (p : page) (x : nat) :
  class_of (store (set_style y prop v p)) x = class_of (store p) x.
Proof.
  unfold class_of, set_style. destruct (decide (y = x)) as [->|Hne].
  - rewrite store_on_element_eq. by destruct (store p !! x).
  - by rewrite store_on_element_ne.
Qed.

Lemma append_nil_r (s : string) : s +:+ "" = s.
Proof.
  induction s as [|c s IH]; [done|].
  change (String c (s +:+ "") = String c s). by rewrite IH.
Qed.

Lemma text_of_text_children (x : nat) (s : string) : text_of (Node x (text_children s)) = s.
Proof.
  unfold text_children. destruct (String.eqb s "") eqn:Hs; simpl.
  - by apply String.eqb_eq in Hs.
  - apply append_nil_r.
Qed.

Lemma walk_forest_text_children (anc : list nat) (s : string) :
  walk_forest anc (text_children s) = [].
Proof. unfold text_children. by destruct (String.eqb s ""). Qed.

Lemma textContent_set_textContent (x : nat) (s : string) (p : page) :
  x ∈ ids (tree p) -> textContent (set_textContent x s p) x = Some s.
Proof.
  intros Hx. unfold textContent, set_textContent. simpl.
  destruct (find_subtree_with_children x (fun _ => text_children s) (tree p) Hx)
    as (kids & _ & Hf).
  rewrite Hf. change (Some (text_of (Node x (text_children s))) = Some s).
  by rewrite text_of_text_children.
Qed.

Lemma select_in_badges (p : page) (h : nat) :
  select p sel_header_cart = Some h -> badges p = select_all_in p h sel_badge.
Proof. intros Hh. unfold badges. by rewrite Hh. Qed.

Lemma NoDup_insert_middle {A : Type} (x : A) (l1 l2 : list A) :
  x ∉ l1 ++ l2 -> NoDup (l1 ++ l2) -> NoDup (l1 ++ x :: l2).
Proof. intros Hx Hnd. rewrite <- Permutation_middle. by apply NoDup_cons. Qed.

(** *** What [updateCartCount] does to the header badge *)

(** With a header cart control, [updateCartCount] ends with a badge [b]
    that heads the badges of that control, shown or hidden as the count
    says: either the badge that was there, or a new element when there was
    none. *)
Lemma updateCartCount_with_header (count : count_value) (p : page) (h : nat) :
  well_formed p -> select p sel_header_cart = Some h ->
  exists b,
    let p' := updateCartCount count p in
    select p' sel_header_cart = Some h /\ head (badges p') = Some b /\
    get_style p' b "display" =
      Some (if count_positive count then "flex" else "none", false) /\
    (count_positive count = true -> textContent p' b = Some (count_string count)) /\
    well_formed p' /\
    ((head (badges p) = Some b /\
      (List.length (badges p') <= List.length (badges p))%nat /\
      (forall x, x ∈ ids (tree p') -> x ∈ ids (tree p)) /\
      (forall x k, getAttribute p' x k = getAttribute (counted count p) x k)) \/
     (badges p = [] /\ store p !! b = None /\ badges p' = [b] /\
      (forall x, x ∈ ids (tree p') -> x = b \/ x ∈ ids (tree p)) /\
      (forall x k, x <> b -> getAttribute p' x k = getAttribute (counted count p) x k) /\
      (forall k, k <> "class" -> getAttribute p' b k = None))).
Proof.
  intros [Hnd Hdom] Hh. rewrite updateCartCount_unfold, Hh, find_or_create_badge_unfold.
  pose proof (select_in_badges p h Hh) as Hbp.
  set (p1 := counted count p).
  assert (tree p1 = tree p) as Ht1 by apply tree_foldl_setAttribute.
  assert (dom (store p1) = dom (store p)) as Hd1 by apply dom_foldl_setAttribute.
  assert (forall i, class_of (store p1) i = class_of (store p) i) as Hc1.
  { intros i. by apply class_of_foldl_setAttribute. }
  destruct (select_in p h sel_badge) as [b|] eqn:Hsel.
  - (* the badge is there *)
    exists b. cbv zeta.
    assert (head (badges p) = Some b) as Hb by (by rewrite Hbp).
    pose proof (head_elem _ _ Hb) as Hbin. rewrite Hbp in Hbin.
    apply select_all_in_elem in Hbin as (a0 & Hin0 & _ & Hm).
    pose proof (walk_elem_ids _ _ Hin0) as Hbids. simpl in Hbids.
    assert (is_Some (store p1 !! b)) as Hbs.
    { apply elem_of_dom. rewrite Hd1. by apply Hdom. }
    destruct (count_positive count).
    + set (p' := set_style b "display" "flex" (set_textContent b (count_string count) p1)).
      destruct (prune_keeps_badge p p' h b (text_children (count_string count)))
        as (H1 & H2 & H3 & H4); try done.
      { unfold p'. simpl. by rewrite Ht1. }
      { intros anc. apply walk_forest_text_children. }
      { intros i. unfold p'. rewrite class_of_set_style. apply Hc1. }
      assert (forall x, x ∈ ids (tree p') -> x ∈ ids (tree p)) as Hids.
      { intros x. rewrite <- !(walk_ids _ []). intros Hx.
        apply (elem_of_sublist _ _ _ Hx). by apply (fmap_sublist fst). }
      split; [done|]. split; [done|]. split; [by apply get_style_set_style_eq|].
      split.
      { intros _. unfold p'. unfold textContent. 
        change (tree (set_style ?a ?b0 ?c ?q)) with (tree q).
        apply textContent_set_textContent. by rewrite Ht1. }
      split.
      { split.
        - rewrite <- (walk_ids _ []). apply (sublist_NoDup _ (map fst (walk [] (tree p)))).
          + by rewrite walk_ids.
          + by apply (fmap_sublist fst).
        - intros i Hi. unfold p', set_style. rewrite dom_on_element. simpl.
          rewrite Hd1. by apply Hdom, Hids. }
      left. split; [done|]. split; [done|]. split; [done|].
      intros x k. unfold p'. by rewrite getAttribute_set_style.
    + set (p' := set_style b "display" "none" p1).
      assert (tree p' = tree p) as Ht' by (unfold p'; simpl; done).
      assert (forall i, class_of (store p') i = class_of (store p) i) as Hc'.
      { intros i. unfold p'. rewrite class_of_set_style. apply Hc1. }
      assert (badges p' = badges p) as Hbb by (apply badges_class_ext; auto).
      split.
      { unfold select, sel_header_cart in *. rewrite (select_all_class_ext p p'); auto. }
      split; [by rewrite Hbb|]. split; [by apply get_style_set_style_eq|].
      split; [done|]. split.
      { split; [by rewrite Ht'|]. intros i Hi. unfold p', set_style.
        rewrite dom_on_element, Hd1. apply Hdom. by rewrite <- Ht'. }
      left. split; [done|]. split; [by rewrite Hbb|]. split; [by rewrite Ht'|].
      intros x k. unfold p'. by rewrite getAttribute_set_style.
  - (* a badge is created *)
    set (b := fresh (dom (store p))). exists b. cbv zeta.
    assert (badges p = []) as Hb.
    { rewrite Hbp. unfold select_in in Hsel. by destruct (select_all_in p h sel_badge). }
    assert (store p !! b = None) as Hnew by (apply not_elem_of_dom, is_fresh).
    assert (b ∉ ids (tree p)) as Hfresh.
    { intros Hin. apply Hdom in Hin. by apply (is_fresh (dom (store p))). }
    set (p2 := appendChild h b _).
    set (kb := if count_positive count then text_children (count_string count) else []).
    set (p' := if count_positive count
               then set_style b "display" "flex" (set_textContent b (count_string count) p2)
               else set_style b "display" "none" p2).
    assert (tree p' = with_children h (fun kids => kids ++ [Node b kb]) (tree p)) as Ht'.
    { unfold p', kb. destruct (count_positive count); simpl; rewrite Ht1; [|done].
      by rewrite with_children_appended. }
    assert (forall x, x <> b -> store p' !! x = store p1 !! x) as Hother.
    { intros x Hx. unfold p'.
      assert (store p2 !! x = store p1 !! x) as H2.
      { unfold p2, appendChild, set_cssText, setAttribute. simpl.
        rewrite !lookup_alter_ne, lookup_insert_ne by done. done. }
      destruct (count_positive count); unfold set_style;
        rewrite store_on_element_ne by done; exact H2. }
    assert (exists st, store p' !! b =
              Some (Element "span" {["class" := "cart-count-badge"]} st) /\
              st !! "display" = Some (if count_positive count then "flex" else "none", false))
      as (st & Hbrec & Hst).
    { assert (store p2 !! b = Some (Element "span" {["class" := "cart-count-badge"]}
                                     (list_to_map badge_css))) as H2.
      { unfold p2, appendChild, set_cssText, setAttribute. simpl.
        rewrite !lookup_alter_eq, lookup_insert_eq. simpl. by rewrite insert_empty. }
      unfold p'. destruct (count_positive count); unfold set_style;
        rewrite store_on_element_eq;
        try change (store (set_textContent b (count_string count) p2)) with (store p2);
        rewrite H2; cbn [fmap option_fmap option_map tag attrs style];
        (eexists; split; [reflexivity|]; by rewrite lookup_insert_eq). }
    destruct (append_creates_badge p p' h b kb) as (H1 & H2 & pre & a & mid & post & HW & HW');
      try done.
    { intros anc. unfold kb. destruct (count_positive count); [|done].
      apply walk_forest_text_children. }
    { intros i Hi. unfold class_of. rewrite Hother by done. apply Hc1. }
    { unfold class_of. rewrite Hbrec. simpl. by rewrite lookup_singleton_eq. }
    assert (forall x, x ∈ ids (tree p') -> x = b \/ x ∈ ids (tree p)) as Hids.
    { intros x. rewrite <- !(walk_ids _ []), HW, HW'. rewrite !map_app, !map_cons, !map_app.
      simpl. repeat (rewrite elem_of_app || rewrite elem_of_cons).
      rewrite elem_of_nil. tauto. }
    fold p'. split; [done|]. split; [by rewrite H2|].
    split. { unfold get_style. rewrite Hbrec. simpl. exact Hst. }
    split.
    { intros Hpos. unfold p'. rewrite Hpos. unfold textContent.
      change (tree (set_style ?a ?b0 ?c ?q)) with (tree q).
      apply textContent_set_textContent. unfold p2, appendChild. simpl. rewrite Ht1.
      destruct (find_subtree_with_children h (fun kids => kids ++ [Node b []]) (tree p))
        as (kids & Hf & Hf').
      { pose proof (head_elem _ _ Hh) as Hhin.
        apply select_all_elem in Hhin as (a1 & Hin1 & _). by apply walk_elem_ids in Hin1. }
      destruct (walk_split h (tree p) []) as (pre1 & a1 & kids1 & post1 & path & _ & _ & Hrw & _).
      { pose proof (head_elem _ _ Hh) as Hhin.
        apply select_all_elem in Hhin as (a1 & Hin1 & _). by apply walk_elem_ids in Hin1. }
      { done. }
      rewrite <- (walk_ids _ []), Hrw, walk_forest_app, !map_app, map_cons, map_app.
      simpl. rewrite !map_app. simpl.
      repeat (rewrite elem_of_app || rewrite elem_of_cons). auto 10. }
    split.
    { split.
      - rewrite <- (walk_ids _ []), HW'.
        assert (pre ++ (h, a) :: (mid ++ [(b, h :: a)]) ++ post
                = (pre ++ (h, a) :: mid) ++ (b, h :: a) :: post) as -> by reassociate.
        rewrite map_app, map_cons. apply NoDup_insert_middle.
        * rewrite <- map_app.
          assert ((pre ++ (h, a) :: mid) ++ post = walk [] (tree p)) as ->
            by (rewrite HW; reassociate).
          by rewrite walk_ids.
        * rewrite <- map_app.
          assert ((pre ++ (h, a) :: mid) ++ post = walk [] (tree p)) as ->
            by (rewrite HW; reassociate).
          by rewrite walk_ids.
      - intros i Hi. destruct (Hids i Hi) as [->|Hold].
        + apply elem_of_dom. rewrite Hbrec. by eexists.
        + apply elem_of_dom. destruct (decide (i = b)) as [->|Hne].
          * rewrite Hbrec. by eexists.
          * rewrite Hother by done. apply elem_of_dom. rewrite Hd1. by apply Hdom. }
    right. split; [done|]. split; [done|]. split; [done|]. split; [done|]. split.
    + intros x k Hx. unfold getAttribute. by rewrite Hother.
    + intros k Hk. unfold getAttribute. rewrite Hbrec. simpl.
      by rewrite lookup_singleton_ne.
Qed.

Lemma updateCartCount_without_header (count : count_value) (p : page) :
  select p sel_header_cart = None ->
  updateCartCount count p = counted count p /\
  badges (updateCartCount count p) = [] /\ tree (updateCartCount count p) = tree p.
Proof.
  intros Hh. rewrite updateCartCount_unfold, Hh. split; [done|]. split.
  - rewrite (badges_class_ext p).
    + unfold badges. by rewrite Hh.
    + apply tree_foldl_setAttribute.
    + intros i _. by apply class_of_foldl_setAttribute.
  - apply tree_foldl_setAttribute.
Qed.

Lemma matches_HasAttr (h : gmap nat element) (n : string) (e : nat * list nat) :
  matches h (Compound [HasAttr n]) e = true <->
  exists x, h !! fst e = Some x /\ is_Some (attrs x !! n).
Proof.
  simpl. unfold matches_compound. destruct (h !! fst e) as [x|]; simpl.
  - rewrite andb_true_r, bool_decide_eq_true. split; [by exists x|by intros (? & [= <-] & ?)].
  - split; [done|by intros (? & ? & _)].
Qed.

Lemma getAttribute_counted_selected (count : count_value) (p : page) (x : nat) :
  x ∈ select_all p sel_cart_count ->
  getAttribute (counted count p) x "data-cart-count" = Some (count_string count).
Proof.
  intros Hx. unfold getAttribute, counted. rewrite store_foldl_setAttribute.
  rewrite decide_True by done.
  apply select_all_elem in Hx as (a & _ & Hm).
  apply matches_HasAttr in Hm as (e & He & _). simpl in He. rewrite He. simpl.
  by rewrite lookup_insert_eq.
Qed.

Lemma getAttribute_counted_other (count : count_value) (p : page) (x : nat) (k : string) :
  x ∉ select_all p sel_cart_count ->
  getAttribute (counted count p) x k = getAttribute p x k.
Proof.
  intros Hx. unfold getAttribute, counted. rewrite store_foldl_setAttribute.
  by rewrite decide_False.
Qed.

(** After [counted], an element of the tree that carries the count attribute
    carries the new count. *)
Lemma counted_displays (count : count_value) (p : page) (x : nat) :
  x ∈ ids (tree p) ->
  is_Some (getAttribute (counted count p) x "data-cart-count") ->
  getAttribute (counted count p) x "data-cart-count" = Some (count_string count).
Proof.
  intros Hx Hattr.
  destruct (decide (x ∈ select_all p sel_cart_count)) as [Hsel|Hsel].
  - by apply getAttribute_counted_selected.
  - exfalso. apply Hsel. rewrite getAttribute_counted_other in Hattr by done.
    rewrite <- (walk_ids _ []) in Hx.
    apply list_elem_of_fmap in Hx as ([x' a] & -> & Hin).
    apply select_all_elem. exists a. split; [done|].
    apply matches_HasAttr. unfold getAttribute in Hattr. simpl in *.
    destruct (store p !! x') as [e|]; [|by destruct Hattr]. by exists e.
Qed.

Lemma select_all_in_tree (p : page) (sel : selector) (x : nat) :
  x ∈ select_all p sel -> x ∈ ids (tree p).
Proof. intros (a & Hin & _)%select_all_elem. by apply walk_elem_ids in Hin. Qed.

(** The count displays after [updateCartCount]. *)
Lemma count_displays_updated (count : count_value) (p : page) (x : nat) :
  well_formed p ->
  x ∈ select_all p sel_cart_count \/ x ∈ select_all (updateCartCount count p) sel_cart_count ->
  getAttribute (updateCartCount count p) x "data-cart-count" = Some (count_string count).
Proof.
  intros Hwf Hx.
  destruct (select p sel_header_cart) as [h|] eqn:Hh.
  - destruct (updateCartCount_with_header count p h Hwf Hh) as (b & Hlemma).
    cbv zeta in Hlemma. set (p' := updateCartCount count p) in *.
    destruct Hlemma as (_ & _ & _ & _ & _ & Hcases).
    assert (forall y, y ∈ select_all p' sel_cart_count ->
              is_Some (getAttribute p' y "data-cart-count")) as Hattr.
    { intros y (a & _ & Hm)%select_all_elem. apply matches_HasAttr in Hm as (e & He & Ha).
      unfold getAttribute. simpl in He. by rewrite He. }
    destruct Hcases as [(_ & _ & Hids & Hsame)|(_ & Hnew & _ & Hids & Hsame & Hb)].
    + rewrite Hsame. destruct Hx as [Hx|Hx].
      * by apply getAttribute_counted_selected.
      * apply counted_displays.
        -- by apply Hids, (select_all_in_tree p' sel_cart_count).
        -- rewrite <- Hsame. by apply Hattr.
    + assert (x <> b) as Hxb.
      { intros ->. destruct Hx as [Hx|Hx].
        - apply select_all_elem in Hx as (a & _ & Hm).
          apply matches_HasAttr in Hm as (e & He & _). simpl in He. congruence.
        - apply Hattr in Hx. rewrite Hb in Hx by done. by destruct Hx. }
      rewrite Hsame by done. destruct Hx as [Hx|Hx].
      * by apply getAttribute_counted_selected.
      * apply counted_displays.
        -- destruct (Hids x (select_all_in_tree p' sel_cart_count x Hx)); done.
        -- rewrite <- Hsame by done. by apply Hattr.
  - destruct (updateCartCount_without_header count p Hh) as (Heq & _ & Ht).
    destruct Hx as [Hx|Hx].
    + rewrite Heq. by apply getAttribute_counted_selected.
    + pose proof (select_all_in_tree _ _ _ Hx) as Hin. rewrite Ht in Hin.
      apply select_all_elem in Hx as (a & _ & Hm). apply matches_HasAttr in Hm as (e & He & Ha).
      rewrite Heq in *. apply counted_displays; [done|].
      unfold getAttribute. simpl in He. by rewrite He.
Qed.


Lemma shop_page_well_formed : well_formed shop_page.
Proof.
  split.
  - apply (bool_decide_unpack _). vm_compute. exact I.
  - intros i Hi. apply elem_of_dom.
    assert (Forall (fun i => is_Some (shop_store !! i)) (ids shop_tree)) as HF.
    { apply (bool_decide_unpack _). vm_compute. exact I. }
    by apply (proj1 (Forall_forall _ _) HF).
Qed.



(** ** The life of the header badge *)

Lemma head_at_most_one {A : Type} (l : list A) (x : A) :
  head l = Some x -> (List.length l <= 1)%nat -> l = [x].
Proof. destruct l as [|y [|z l]]; simpl; intros; simplify_eq; [done|lia]. Qed.

Lemma updateCartCount_badge_step (count : count_value) (p : page) (h : nat) :
  badge_invariant h p ->
  let p' := updateCartCount count p in
  badge_invariant h p' /\
  (forall b, head (badges p) = Some b -> badges p' = [b]) /\
  (badges p = [] -> exists b, badges p' = [b] /\ store p !! b = None) /\
  (count_positive count = false -> badge_hidden p') /\
  badges p' <> [].
Proof.
  intros (Hwf & Hh & Hlen) p'.
  destruct (updateCartCount_with_header count p h Hwf Hh) as (b & Hlemma).
  cbv zeta in Hlemma. fold p' in Hlemma.
  destruct Hlemma as (Hh' & Hhead & Hstyle & _ & Hwf' & Hcases).
  assert (badges p' = [b]) as Hone.
  { destruct Hcases as [(_ & Hle & _)|(_ & _ & ? & _)]; [|done].
    apply head_at_most_one; [done|lia]. }
  split; [|split; [|split; [|split]]].
  - split; [done|]. split; [done|]. by rewrite Hone.
  - intros b' Hb'. destruct Hcases as [(Hb & _)|(Hnil & _)]; [|by rewrite Hnil in Hb'].
    congruence.
  - intros Hnil. exists b. destruct Hcases as [(Hb & _)|(_ & Hnew & _)]; [|done].
    by rewrite Hnil in Hb.
  - intros Hneg. exists b. split; [done|]. by rewrite Hstyle, Hneg.
  - by rewrite Hone.
Qed.

Lemma updates_invariant (counts : list (option Z)) (p : page) (h : nat) :
  badge_invariant h p -> badge_invariant h (updates counts p).
Proof.
  revert p. induction counts as [|c counts IH]; intros p Hinv; [done|].
  simpl. apply IH. by apply updateCartCount_badge_step.
Qed.

Lemma updates_snoc (counts : list (option Z)) (c : option Z) (p : page) :
  updates (counts ++ [c]) p = updateCartCount c (updates counts p).
Proof. unfold updates. by rewrite foldl_snoc. Qed.

(** C4, as the code has it. On a well-formed page with a header cart control
    that holds at most one badge, after any run of count updates the control
    still holds at most one badge. One more update reuses the badge that is
    there; when there is none it creates one, a new element, whatever the
    count; when the count is not positive the badge is hidden, still in the
    tree. After the first update there is always a badge. *)
Theorem header_badge_lifecycle (p : page) (counts : list (option Z)) (count : option Z) :
  well_formed p -> is_Some (select p sel_header_cart) ->
  (List.length (badges p) <= 1)%nat ->
  let q := updates counts p in
  let q' := updateCartCount count q in
  (List.length (badges q) <= 1)%nat /\ (List.length (badges q') <= 1)%nat /\
  (forall b, head (badges q) = Some b -> badges q' = [b]) /\
  (badges q = [] -> exists b, badges q' = [b] /\ store q !! b = None) /\
  (count_positive count = false -> badge_hidden q') /\
  (counts <> [] -> badges q <> []).
Proof.
  intros Hwf [h Hh] Hlen q q'.
  assert (badge_invariant h p) as Hinv by done.
  pose proof (updates_invariant counts p h Hinv) as Hq. fold q in Hq.
  destruct (updateCartCount_badge_step count q h Hq) as (Hq' & Hreuse & Hcreate & Hhide & _).
  fold q' in Hq', Hreuse, Hcreate, Hhide.
  split; [by destruct Hq as (_ & _ & ?)|]. split; [by destruct Hq' as (_ & _ & ?)|].
  split; [done|]. split; [done|]. split; [done|].
  intros Hne. destruct (exists_last Hne) as (cs & c & Hcs).
  unfold q. rewrite Hcs, updates_snoc.
  by destruct (updateCartCount_badge_step c (updates cs p) h
                 (updates_invariant cs p h Hinv)) as (_ & _ & _ & _ & ?).
Qed.

Lemma header_badge_lifecycle_witness :
  well_formed shop_page /\ is_Some (select shop_page sel_header_cart) /\
  (List.length (badges shop_page) <= 1)%nat /\
  badges (updates [Some 3; Some 0] shop_page) <> [] /\
  badge_hidden (updateCartCount (Some 0) (updates [Some 3] shop_page)).
Proof.
  split; [exact shop_page_well_formed|]. split; [by exists 2%nat|].
  split; [vm_compute; lia|].
  pose proof (header_badge_lifecycle shop_page [Some 3; Some 0] (Some 0)
                shop_page_well_formed (ex_intro _ 2%nat eq_refl)) as H.
  pose proof (header_badge_lifecycle shop_page [Some 3] (Some 0)
                shop_page_well_formed (ex_intro _ 2%nat eq_refl)) as H'.
  split.
  - apply H; [vm_compute; lia|done].
  - apply H'; [vm_compute; lia|done].
Defined.

(** C4 fails on an update with count 0 that finds no badge: the badge is
    created all the same. *)
Lemma zero_count_creates_badge :
  ~ (badges shop_page = [] -> badges (updateCartCount (Some 0) shop_page) = []).
Proof. intros H. specialize (H eq_refl). vm_compute in H. discriminate H. Qed.

(** ** Markup entering the document *)

Lemma instantiate_HElem (h : gmap nat element) (t : string) (a : gmap string string)
    (s : gmap string (string * bool)) (kids : list hnode) :
  instantiate h (HElem t a s kids) =
  let i := fresh (dom h) in
  let '(ks, h') := instantiate_forest (<[i := Element t a s]> h) kids in
  (Node i ks, h').
Proof.
  simpl. generalize (<[fresh (dom h) := Element t a s]> h) as h0.
  generalize (fresh (dom h)) as i. intros i.
  assert (forall h0,
    (fix forest (l : list hnode) (h1 : gmap nat element) {struct l} :
         list dtree * gmap nat element :=
       match l with
       | [] => ([], h1)
       | k :: r =>
           let '(t1, h2) := instantiate h1 k in
           let '(ts, h3) := forest r h2 in (t1 :: ts, h3)
       end) kids h0 = instantiate_forest h0 kids) as Hsame.
  { induction kids as [|k r IH]; intros h0; [done|].
    simpl. destruct (instantiate h0 k) as [t1 h2]. by rewrite IH. }
  intros h0. by rewrite Hsame.
Qed.

Lemma markup_Node (h : gmap nat element) (i : nat) (kids : list dtree) :
  markup h (Node i kids) =
  match h !! i with
  | Some e => HElem (tag e) (attrs e) (style e) (map (markup h) kids)
  | None => HElem "" ∅ ∅ (map (markup h) kids)
  end.
Proof. reflexivity. Qed.

Lemma instantiate_forest_spec (l : list hnode) :
  Forall (fun n => forall h t h', instantiate h n = (t, h') ->
            instantiated h h' (ids t) (fun h'' => markup h'' t = n)) l ->
  forall h ts h', instantiate_forest h l = (ts, h') ->
    instantiated h h' (ids_forest ts) (fun h'' => map (markup h'') ts = l).
Proof.
  induction 1 as [|k r Hk _ IHr]; intros h ts h'; simpl.
  - intros [= <- <-]. split; [done|]. split; [by intros i ?%elem_of_nil|].
    split; [apply NoDup_nil_2|done].
  - destruct (instantiate h k) as [t1 h1] eqn:H1.
    destruct (instantiate_forest h1 r) as [ts' h2] eqn:H2.
    intros [= <- <-].
    destruct (Hk _ _ _ H1) as (Hsub1 & Hnew1 & Hnd1 & Hread1).
    destruct (IHr _ _ _ H2) as (Hsub2 & Hnew2 & Hnd2 & Hread2).
    split; [by etrans|]. split; [|split].
    + simpl. intros i [Hi|Hi]%elem_of_app.
      * destruct (Hnew1 i Hi) as [Hnone [e He]]. split; [done|].
        exists e. by eapply lookup_weaken.
      * destruct (Hnew2 i Hi) as [Hnone Hsome]. split; [|done].
        by eapply lookup_weaken_None.
    + simpl. apply NoDup_app. split; [done|]. split; [|done].
      intros i Hi Hi'. destruct (Hnew1 i Hi) as [_ [e He]].
      destruct (Hnew2 i Hi') as [Hnone _]. congruence.
    + intros h'' Hsub. simpl. rewrite Hread1 by (by etrans). by rewrite Hread2.
Qed.

Lemma instantiate_spec (n : hnode) (h : gmap nat element) (t : dtree) (h' : gmap nat element) :
  instantiate h n = (t, h') -> instantiated h h' (ids t) (fun h'' => markup h'' t = n).
Proof.
  revert h t h'. induction n as [s|tg a st kids IH] using hnode_forall_ind; intros h t h'.
  - simpl. intros [= <- <-]. split; [done|]. split; [by intros i ?%elem_of_nil|].
    split; [apply NoDup_nil_2|done].
  - rewrite instantiate_HElem. cbv zeta.
    set (i := fresh (dom h)).
    destruct (instantiate_forest (<[i := Element tg a st]> h) kids) as [ks h1] eqn:Hf.
    intros [= <- <-].
    destruct (instantiate_forest_spec kids IH _ _ _ Hf) as (Hsub & Hnew & Hndk & Hread).
    assert (h !! i = None) as Hi by (apply not_elem_of_dom, is_fresh).
    assert (h ⊆ <[i := Element tg a st]> h) as Hins by (by apply insert_subseteq).
    assert (h1 !! i = Some (Element tg a st)) as Hi1.
    { eapply lookup_weaken; [|done]. by rewrite lookup_insert_eq. }
    split; [by etrans|]. split; [|split].
    + rewrite ids_Node. intros j [->|Hj]%elem_of_cons; [split; [done|by eexists]|].
      destruct (Hnew j Hj) as [Hnone Hsome]. split; [|done].
      by eapply lookup_weaken_None.
    + rewrite ids_Node. apply NoDup_cons. split; [|done].
      intros Hj. destruct (Hnew i Hj) as [Hnone _]. by rewrite lookup_insert_eq in Hnone.
    + intros h'' Hsub'. rewrite markup_Node.
      rewrite (lookup_weaken _ _ _ _ Hi1 Hsub'). simpl. by rewrite Hread.
Qed.

Lemma instantiate_forest_instantiated (l : list hnode) (h : gmap nat element)
    (ts : list dtree) (h' : gmap nat element) :
  instantiate_forest h l = (ts, h') ->
  instantiated h h' (ids_forest ts) (fun h'' => map (markup h'') ts = l).
Proof.
  apply instantiate_forest_spec. apply Forall_forall. intros n _ h0 t h0'.
  apply instantiate_spec.
Qed.

(** The markup of a tree depends only on the records of its elements. *)
Lemma markup_ext (h h' : gmap nat element) (t : dtree) :
  (forall i, i ∈ ids t -> h !! i = h' !! i) -> markup h t = markup h' t.
Proof.
  induction t as [s|i kids IH] using dtree_forall_ind; [done|].
  rewrite ids_Node. intros Hsame. rewrite !markup_Node.
  rewrite <- (Hsame i) by (by left).
  assert (map (markup h) kids = map (markup h') kids) as ->; [|done].
  assert (forall j, j ∈ ids_forest kids -> h !! j = h' !! j) as Hkids.
  { intros j Hj. apply Hsame. by right. }
  clear Hsame. induction IH as [|k r Hk _ IHr]; [done|].
  simpl. rewrite Hk, IHr; [done| |].
  - intros j Hj. apply Hkids. simpl. apply elem_of_app. by right.
  - intros j Hj. apply Hkids. simpl. apply elem_of_app. by left.
Qed.

Lemma markup_forest_ext (h h' : gmap nat element) (l : list dtree) :
  (forall i, i ∈ ids_forest l -> h !! i = h' !! i) -> map (markup h) l = map (markup h') l.
Proof.
  induction l as [|k r IH]; [done|]. intros Hsame. simpl.
  rewrite (markup_ext h h' k), IH; [done| |].
  - intros j Hj. apply Hsame. simpl. apply elem_of_app. by right.
  - intros j Hj. apply Hsame. simpl. apply elem_of_app. by left.
Qed.

(** ** The drawer merge *)

(** Copying attributes onto [c], attribute by attribute: the tree and every
    other element are untouched, and [c] keeps its tag; of each name the
    last attribute stays, and the [style] attribute is the block. *)
Lemma put_attribute_style (w : env) (x : nat) (v : string) (p : page) :
  put_attribute w x ("style", v) p = set_declarations x (parse_style w v) p.
Proof. reflexivity. Qed.

Lemma put_attribute_other (w : env) (x : nat) (n v : string) (p : page) :
  String.eqb n "style" = false -> put_attribute w x (n, v) p = setAttribute x n v p.
Proof. unfold put_attribute. cbn [fst snd]. by intros ->. Qed.

Lemma put_attributes_effect (w : env) (c : nat) (l : list (string * string)) (e0 : element)
    (q0 : page) :
  store q0 !! c = Some e0 ->
  let q := foldl (fun q attr => put_attribute w c attr q) q0 l in
  tree q = tree q0 /\
  (forall x, x <> c -> store q !! x = store q0 !! x) /\
  exists e, store q !! c = Some e /\ tag e = tag e0 /\
    style e = match attribute_of l "style" with
              | Some v => parse_style w v
              | None => style e0
              end /\
    forall k, k <> "style" ->
      attrs e !! k = match attribute_of l k with Some v => Some v | None => attrs e0 !! k end.
Proof.
  cbv zeta. revert e0 q0. induction l as [|[n v] l IH]; intros e0 q0 Hc.
  - split; [done|]. split; [done|]. exists e0. repeat split; done.
  - cbn [foldl attribute_of fst snd].
    destruct (String.eqb n "style") eqn:Hn.
    + apply String.eqb_eq in Hn as ->. rewrite put_attribute_style.
      set (q1 := set_declarations c (parse_style w v) q0).
      assert (store q1 !! c = Some (Element (tag e0) (attrs e0) (parse_style w v))) as Hc1.
      { unfold q1, set_declarations. by rewrite store_on_element_eq, Hc. }
      destruct (IH _ q1 Hc1) as (Ht & Hother & e & He & Htag & Hstyle & Hattrs).
      split; [done|]. split.
      * intros x Hx. rewrite Hother by done. unfold q1, set_declarations.
        by rewrite store_on_element_ne.
      * exists e. split; [done|]. split; [done|]. split.
        -- rewrite Hstyle. cbn [attrs style tag]. by destruct (attribute_of l "style").
        -- intros k Hk. rewrite Hattrs by done. cbn [attrs style tag].
           destruct (attribute_of l k); [done|].
           destruct (String.eqb "style" k) eqn:Hk'; [|done].
           apply String.eqb_eq in Hk'. congruence.
    + rewrite put_attribute_other by done. apply String.eqb_neq in Hn.
      set (q1 := setAttribute c n v q0).
      assert (store q1 !! c = Some (Element (tag e0) (<[n := v]> (attrs e0)) (style e0)))
        as Hc1.
      { unfold q1, setAttribute. by rewrite store_on_element_eq, Hc. }
      destruct (IH _ q1 Hc1) as (Ht & Hother & e & He & Htag & Hstyle & Hattrs).
      split; [done|]. split.
      * intros x Hx. rewrite Hother by done. unfold q1, setAttribute.
        by rewrite store_on_element_ne.
      * exists e. split; [done|]. split; [done|]. split.
        -- rewrite Hstyle. cbn [attrs style tag]. destruct (attribute_of l "style"); [done|].
           destruct (String.eqb n "style") eqn:Hn'; [|done].
           by apply String.eqb_eq in Hn'.
        -- intros k Hk. rewrite Hattrs by done. cbn [attrs style tag].
           destruct (attribute_of l k); [done|].
           destruct (String.eqb n k) eqn:Hk'.
           ++ apply String.eqb_eq in Hk' as ->. by rewrite lookup_insert_eq.
           ++ apply String.eqb_neq in Hk'. by rewrite lookup_insert_ne.
Qed.

(** The attributes the copy reaches are all of them when every name passes
    the test, and otherwise those before the first name that does not. *)
Lemma copied_all (w : env) (l : list (string * string)) :
  all_valid w l = true -> copied w l = l.
Proof.
  induction l as [|a l IH]; [done|]. cbn [all_valid forallb copied].
  intros [-> Hl]%andb_prop. by rewrite IH.
Qed.

Lemma copied_stops (w : env) (l : list (string * string)) :
  all_valid w l = false ->
  exists name v rest, l = copied w l ++ (name, v) :: rest /\ valid_name w name = false.
Proof.
  induction l as [|[n v] l IH]; [done|]. cbn [all_valid forallb copied fst].
  destruct (valid_name w n) eqn:Hn.
  - intros Hl. destruct (IH Hl) as (name & v' & rest & Heq & Hname).
    exists name, v', rest. split; [|done]. simpl. by rewrite <- Heq.
  - intros _. by exists n, v, l.
Qed.

(** C7, as the code has it. When the fragment and the live cart element are
    both found, the children of the live element are replaced by what the
    parser builds, inside it, from the serialisation of the fragment's
    children. The fragment's attributes are then copied in order: all of
    them when every name passes the test of [setAttribute], and otherwise
    those before the first name that does not, where the merge throws. Of
    the attributes reached, each is on the live element with the fragment's
    value, the [style] attribute as the inline style; every attribute that
    is not among them is as before. It is the same element: it stands at the
    same place of the walk, between the same entries and under the same
    ancestors, with its tag, and every other element of the page keeps its
    record. *)
Theorem drawer_merge_effect (w : env) (html : string) (f : fragment) (c : nat) (p : page) :
  well_formed p ->
  String.eqb html "" = false ->
  parse_cart_element w html = Some f ->
  select p sel_live_cart_element = Some c ->
  let p' := snd (refresh_drawer w (Some html) p) in
  let reached := copied w (frag_attrs f) in
  inner_markup p' c = Some (parse_inner w (frag_innerHTML f)) /\
  (all_valid w (frag_attrs f) = true ->
     fst (refresh_drawer w (Some html) p) = Ok tt /\ reached = frag_attrs f) /\
  (all_valid w (frag_attrs f) = false ->
     fst (refresh_drawer w (Some html) p) = Thrown InvalidCharacterError /\
     exists name v rest,
       frag_attrs f = reached ++ (name, v) :: rest /\ valid_name w name = false) /\
  (forall k v, k <> "style" -> attribute_of reached k = Some v ->
     getAttribute p' c k = Some v) /\
  (forall k, k <> "style" -> attribute_of reached k = None ->
     getAttribute p' c k = getAttribute p c k) /\
  (exists pre a kids kids' post,
     walk [] (tree p) = pre ++ (c, a) :: walk_forest (c :: a) kids ++ post /\
     walk [] (tree p') = pre ++ (c, a) :: walk_forest (c :: a) kids' ++ post) /\
  (exists e e', store p !! c = Some e /\ store p' !! c = Some e' /\
     tag e' = tag e /\
     style e' = match attribute_of reached "style" with
                | Some v => parse_style w v
                | None => style e
                end) /\
  (forall x, x <> c -> is_Some (store p !! x) -> store p' !! x = store p !! x).
Proof.
  intros [Hnd Hdom] Hhtml Hparse Hsel p' reached.
  assert (refresh_drawer w (Some html) p =
          (if all_valid w (frag_attrs f) then Ok tt else Thrown InvalidCharacterError,
           merged w f c p)) as Hrun.
  { by rewrite refresh_drawer_run, Hhtml, Hparse, Hsel. }
  assert (p' = merged w f c p) as -> by (unfold p'; by rewrite Hrun).
  pose proof (head_elem _ _ Hsel) as Hcin.
  apply select_all_elem in Hcin as (a0 & Hin0 & Hm).
  pose proof (walk_elem_ids _ _ Hin0) as Hcids. simpl in Hcids.
  apply matches_in_store in Hm as [e0 He0]. simpl in He0.
  unfold merged, set_innerHTML. fold reached.
  destruct (instantiate_forest (store p) (parse_inner w (frag_innerHTML f)))
    as [kids' h2] eqn:Hinst.
  destruct (instantiate_forest_instantiated _ _ _ _ Hinst) as (Hsub & Hnew & _ & Hread).
  set (q0 := set_store h2 (set_tree (with_children c (fun _ => kids') (tree p)) p)).
  assert (store q0 !! c = Some e0) as Hc0 by (by eapply lookup_weaken).
  destruct (put_attributes_effect w c reached e0 q0 Hc0)
    as (Ht & Hother & e & He & Htag & Hstyle & Hattrs).
  set (q := foldl _ q0 _) in *.
  destruct (walk_split c (tree p) [] Hcids Hnd)
    as (pre & a & kids & post & path & HW & _ & Hrw & _ & _).
  assert (forall i, i ∈ ids_forest kids' -> i <> c) as Hfresh.
  { intros i Hi ->. destruct (Hnew c Hi) as [Hnone _]. congruence. }
  split; [|split; [|split; [|split; [|split; [|split; [|split]]]]]].
  - unfold inner_markup. rewrite Ht. unfold q0. simpl.
    destruct (find_subtree_with_children c (fun _ => kids') (tree p) Hcids)
      as (ks & _ & ->).
    f_equal. rewrite (markup_forest_ext _ h2).
    + by apply Hread.
    + intros i Hi. rewrite Hother by (by apply Hfresh). done.
  - intros Hall. rewrite Hrun, Hall. split; [done|]. by apply copied_all.
  - intros Hall. rewrite Hrun, Hall. split; [done|]. by apply copied_stops.
  - intros k v Hk Hv. unfold getAttribute. rewrite He. simpl. by rewrite Hattrs, Hv.
  - intros k Hk Hv. unfold getAttribute. rewrite He, He0. simpl. by rewrite Hattrs, Hv.
  - exists pre, a, kids, kids', post. split; [done|]. rewrite Ht. unfold q0. simpl.
    apply Hrw.
  - by exists e0, e.
  - intros x Hx [ex Hex]. rewrite Hother by done. unfold q0. simpl.
    rewrite Hex. by eapply lookup_weaken.
Qed.

Lemma drawer_merge_effect_witness :
  well_formed shop_page /\
  select shop_page sel_live_cart_element = Some 7%nat /\
  inner_markup (snd (refresh_drawer online (Some drawer_section) shop_page)) 7
    = Some [HElem "ul" ∅ ∅ [HElem "li" ∅ ∅ [HText "item"]]; HText "tail"] /\
  fst (refresh_drawer online (Some drawer_section) shop_page) = Ok tt /\
  getAttribute (snd (refresh_drawer online (Some drawer_section) shop_page)) 7 "class"
    = Some "new" /\
  getAttribute (snd (refresh_drawer online (Some drawer_section) shop_page)) 7 "data-x"
    = Some "1".
Proof.
  split; [exact shop_page_well_formed|]. split; [reflexivity|].
  pose proof (drawer_merge_effect online drawer_section drawer_fragment 7
                shop_page shop_page_well_formed eq_refl eq_refl eq_refl)
    as (H1 & H2 & _ & H3 & H4 & _).
  split; [exact H1|]. split; [exact (proj1 (H2 eq_refl))|]. split.
  - apply H3; [discriminate|reflexivity].
  - rewrite H4 by (discriminate || reflexivity). reflexivity.
Defined.

(** C7 fails on a section whose [cart-element] has an attribute that
    [setAttribute] does not take: the merge throws at the stray [=x], and
    the attribute that follows it is not copied onto the live element. *)
Lemma merge_stops_at_a_stray_name :
  select shop_page sel_live_cart_element = Some 7%nat /\
  parse_cart_element online_stray stray_section = Some stray_fragment /\
  attribute_of (frag_attrs stray_fragment) "data-count" = Some "3" /\
  fst (refresh_drawer online_stray (Some stray_section) shop_page)
    = Thrown InvalidCharacterError /\
  getAttribute (snd (refresh_drawer online_stray (Some stray_section) shop_page)) 7 "class"
    = Some "new" /\
  getAttribute (snd (refresh_drawer online_stray (Some stray_section) shop_page)) 7 "data-count"
    = None.
Proof. repeat split; vm_compute; reflexivity. Qed.

(** ** What a pipeline leaves alone *)

Lemma preserves_refl (p : page) : preserves p p.
Proof. split; [done|]. intros x e He. by exists e. Qed.

Lemma preserves_trans (p1 p2 p3 : page) :
  preserves p1 p2 -> preserves p2 p3 -> preserves p1 p3.
Proof.
  intros [Ht1 H1] [Ht2 H2]. split; [congruence|].
  intros x e He. destruct (H1 x e He) as (e' & He' & Htag & Hattrs).
  destruct (H2 x e' He') as (e'' & He'' & Htag' & Hattrs').
  exists e''. split; [done|]. split; [congruence|].
  intros Hne k Hk1 Hk2 Hk3. rewrite Hattrs', Hattrs by congruence. done.
Qed.

Lemma preserves_same_store (p p' : page) :
  store p' = store p -> timers p' = timers p -> preserves p p'.
Proof. intros Hs Ht. split; [done|]. intros x e He. exists e. by rewrite Hs. Qed.

(** A step that only extends the store, or rewrites elements that were not
    there before. *)
Lemma preserves_old_elements (p p' : page) :
  timers p' = timers p ->
  (forall x e, store p !! x = Some e -> store p' !! x = Some e) -> preserves p p'.
Proof. intros Ht H. split; [done|]. intros x e He. exists e. split; [by apply H|done]. Qed.

Lemma preserves_on_element (x : nat) (f : element -> element) (p : page) :
  (forall e, tag (f e) = tag e) ->
  (forall e k, k <> "data-cart-count" -> k <> "data-drawer-open" ->
     attrs (f e) !! k = attrs e !! k) ->
  preserves p (on_element x f p).
Proof.
  intros Htag Hattrs. split; [done|]. intros y e He.
  destruct (decide (x = y)) as [->|Hne].
  - exists (f e). rewrite store_on_element_eq, He. split; [done|]. split; [done|].
    intros _ k Hk1 Hk2 _. by apply Hattrs.
  - exists e. by rewrite store_on_element_ne.
Qed.

Lemma preserves_set_style (x : nat) (prop v : string) (p : page) :
  preserves p (set_style x prop v p).
Proof. by apply preserves_on_element. Qed.

Lemma preserves_counted (count : count_value) (p : page) : preserves p (counted count p).
Proof.
  unfold counted. generalize (select_all p sel_cart_count) as l. intros l. revert p.
  induction l as [|y l IH]; intros p; [apply preserves_refl|].
  simpl. eapply preserves_trans; [|apply IH].
  apply preserves_on_element; [done|]. intros e k Hk _. simpl. by rewrite lookup_insert_ne.
Qed.

Lemma preserves_updateCartCount (count : count_value) (p : page) :
  preserves p (updateCartCount count p).
Proof.
  rewrite updateCartCount_unfold.
  destruct (select p sel_header_cart) as [h|]; [|apply preserves_counted].
  rewrite find_or_create_badge_unfold.
  destruct (select_in p h sel_badge) as [b|].
  - eapply preserves_trans; [apply preserves_counted|].
    destruct (count_positive count).
    + eapply preserves_trans; [|apply preserves_set_style]. by apply preserves_same_store.
    + apply preserves_set_style.
  - set (b := fresh (dom (store p))). cbv zeta. set (p2 := appendChild h b _).
    assert (preserves p p2) as H2.
    { eapply preserves_trans; [apply preserves_counted|].
      apply preserves_old_elements; [done|]. intros x e He.
      assert (x <> b) as Hx.
      { intros ->. assert (b ∈ dom (store (counted count p))) as Hin by (apply elem_of_dom; eauto).
        unfold counted in Hin. rewrite dom_foldl_setAttribute in Hin.
        by apply (is_fresh (dom (store p))). }
      unfold p2, appendChild, set_cssText, setAttribute. simpl.
      rewrite !lookup_alter_ne, lookup_insert_ne by done. done. }
    destruct (count_positive count).
    + eapply preserves_trans; [exact H2|].
      eapply preserves_trans; [|apply preserves_set_style]. by apply preserves_same_store.
    + eapply preserves_trans; [exact H2|apply preserves_set_style].
Qed.

Lemma matches_IsTag (h : gmap nat element) (t : string) (rest : list simple)
    (e : nat * list nat) (outer : list simple) :
  matches h (Descendant outer (IsTag t :: rest)) e = true ->
  exists x, h !! fst e = Some x /\ tag x = t.
Proof.
  simpl. intros [Hm _]%andb_prop. apply matches_compound_Some in Hm as (x & Hx & Hall).
  simpl in Hall. apply andb_prop in Hall as [Htag _]. apply String.eqb_eq in Htag.
  by exists x.
Qed.

Lemma timers_merged (w : env) (f : fragment) (x : nat) (p : page) :
  timers (merged w f x p) = timers p.
Proof.
  unfold merged. generalize (copied w (frag_attrs f)) as l.
  generalize (parse_inner w (frag_innerHTML f)) as inner. intros inner l.
  assert (timers (set_innerHTML x inner p) = timers p) as <-.
  { unfold set_innerHTML. by destruct (instantiate_forest (store p) inner). }
  generalize (set_innerHTML x inner p) as q. induction l as [|a l IH]; intros q; [done|].
  simpl. rewrite IH. unfold put_attribute. by destruct (String.eqb (fst a) "style").
Qed.

Lemma preserves_refresh_drawer (w : env) (html : option string) (p : page) :
  preserves p (snd (refresh_drawer w html p)).
Proof.
  destruct (refresh_drawer_cases w html p) as [->|(f & c & Hsel & ->)];
    [apply preserves_refl|].
  pose proof (head_elem _ _ Hsel) as Hcin.
  apply select_all_elem in Hcin as (a0 & _ & Hm).
  apply matches_IsTag in Hm as (e0 & He0 & Htag0). simpl in He0.
  split; [apply timers_merged|].
  unfold merged, set_innerHTML.
  destruct (instantiate_forest (store p) (parse_inner w (frag_innerHTML f)))
    as [kids' h2] eqn:Hinst.
  destruct (instantiate_forest_instantiated _ _ _ _ Hinst) as (Hsub & _).
  set (q0 := set_store h2 (set_tree (with_children c (fun _ => kids') (tree p)) p)).
  assert (store q0 !! c = Some e0) as Hc0 by (by eapply lookup_weaken).
  destruct (put_attributes_effect w c (copied w (frag_attrs f)) e0 q0 Hc0)
    as (_ & Hother & e & He & Htag & _).
  intros x ex Hex. destruct (decide (x = c)) as [->|Hne].
  - exists e. split; [done|]. assert (ex = e0) as -> by congruence.
    split; [done|]. intros Hcart. by rewrite Htag0 in Hcart.
  - exists ex. rewrite Hother by done. split; [|done]. by eapply lookup_weaken.
Qed.

Lemma preserves_openCartDrawer (p : page) : preserves p (openCartDrawer p).
Proof.
  rewrite openCartDrawer_unfold. destruct (drawer_of p) as [d|].
  - eapply preserves_trans; [|apply preserves_set_style].
    apply preserves_on_element; [done|]. intros e k _ Hk. simpl. by rewrite lookup_insert_ne.
  - destruct (select p sel_drawer_trigger); [by apply preserves_same_store|].
    destruct (select p sel_header_cart_link); [by apply preserves_same_store|].
    apply preserves_refl.
Qed.

Lemma preserves_refreshAndOpenCartDrawer (w : env) (p : page) :
  preserves p (snd (refreshAndOpenCartDrawer w p)).
Proof.
  rewrite refreshAndOpenCartDrawer_unfold. cbv zeta.
  set (r := Request _ _ _ _).
  destruct (server w (trace p) r) as [|ok [[|c d]|]]; cbn [snd];
    try (by apply preserves_same_store).
  assert (preserves p (snd (refresh_drawer w d (emit (Fetch r) p)))) as Hp.
  { eapply preserves_trans; [|apply preserves_refresh_drawer].
    by apply preserves_same_store. }
  destruct (fst (refresh_drawer w d (emit (Fetch r) p))) as [[]|e].
  - eapply preserves_trans; [exact Hp|apply preserves_openCartDrawer].
  - eapply preserves_trans; [exact Hp|]. by apply preserves_same_store.
Qed.

Lemma preserves_addToCart (w : env) (variantId quantity : value) (p : page) :
  preserves p (snd (addToCart w variantId quantity p)).
Proof.
  unfold addToCart. unfold_monad. rewrite run_fetch.
  set (r := add_request variantId quantity).
  destruct (server w (trace p) r) as [|[|] [j|]]; simpl;
    try (by apply preserves_same_store).
  rewrite run_fetch. set (p1 := emit (Fetch r) p).
  destruct (server w (trace p1) cart_request) as [|ok [[|c d]|]]; simpl;
    try (by apply preserves_same_store).
  set (p2 := updateCartCount c (emit (Fetch cart_request) p1)).
  assert (preserves p p2) as H2.
  { eapply preserves_trans; [|apply preserves_updateCartCount]. by apply preserves_same_store. }
  pose proof (preserves_refreshAndOpenCartDrawer w p2) as H3.
  destruct (refreshAndOpenCartDrawer_events w p2) as (l & Hok & _).
  destruct (refreshAndOpenCartDrawer w p2) as [res p3]. simpl in *. subst res. simpl.
  by eapply preserves_trans.
Qed.

(** ** The busy state of a quick-add control *)

Lemma getAttribute_setAttribute_ne (p : page) (x y : nat) (k k' v : string) :
  k <> k' -> getAttribute (setAttribute y k v p) x k' = getAttribute p x k'.
Proof.
  intros Hk. unfold getAttribute, setAttribute.
  destruct (decide (y = x)) as [->|Hne].
  - rewrite store_on_element_eq. destruct (store p !! x); [|done]. simpl.
    by rewrite lookup_insert_ne.
  - by rewrite store_on_element_ne.
Qed.

Lemma getAttribute_removeAttribute_ne (p : page) (x y : nat) (k k' : string) :
  k <> k' -> getAttribute (removeAttribute y k p) x k' = getAttribute p x k'.
Proof.
  intros Hk. unfold getAttribute, removeAttribute.
  destruct (decide (y = x)) as [->|Hne].
  - rewrite store_on_element_eq. destruct (store p !! x); [|done]. simpl.
    by rewrite lookup_delete_ne.
  - by rewrite store_on_element_ne.
Qed.

Lemma getAttribute_removeAttribute_eq (p : page) (x : nat) (k : string) :
  getAttribute (removeAttribute x k p) x k = None.
Proof.
  unfold getAttribute, removeAttribute. rewrite store_on_element_eq.
  destruct (store p !! x); [|done]. simpl. by rewrite lookup_delete_eq.
Qed.

Lemma store_removeAttribute_is_Some (p : page) (x y : nat) (k : string) :
  is_Some (store (removeAttribute y k p) !! x) <-> is_Some (store p !! x).
Proof.
  unfold removeAttribute. destruct (decide (y = x)) as [->|Hne].
  - rewrite store_on_element_eq. by rewrite fmap_is_Some.
  - by rewrite store_on_element_ne.
Qed.

Lemma tag_setAttribute (p : page) (x y : nat) (k v : string) :
  tag <$> store (setAttribute y k v p) !! x = tag <$> store p !! x.
Proof.
  unfold setAttribute. destruct (decide (y = x)) as [->|Hne].
  - rewrite store_on_element_eq. by destruct (store p !! x).
  - by rewrite store_on_element_ne.
Qed.

Lemma tag_marked (p : page) (element button x : nat) :
  tag <$> store (set_disabled button true (setAttribute element "aria-busy" "true" p)) !! x
  = tag <$> store p !! x.
Proof. unfold set_disabled. by rewrite !tag_setAttribute. Qed.

(** Marking: the element is busy and the control disabled. *)
Lemma marked_busy (p : page) (element button : nat) :
  is_Some (store p !! element) -> is_Some (store p !! button) ->
  let p0 := set_disabled button true (setAttribute element "aria-busy" "true" p) in
  getAttribute p0 element "aria-busy" = Some "true" /\ is_disabled p0 button = true.
Proof.
  intros He Hb. unfold set_disabled, is_disabled. split.
  - rewrite getAttribute_setAttribute_ne by done. by apply getAttribute_setAttribute_eq.
  - rewrite getAttribute_setAttribute_eq by (by apply store_setAttribute_is_Some).
    by apply bool_decide_eq_true.
Qed.

(** Reverting: the element is no longer busy and the control is enabled. *)
Lemma reverted (p : page) (element button : nat) :
  is_Some (store p !! element) ->
  let p' := set_disabled button false (setAttribute element "aria-busy" "false" p) in
  getAttribute p' element "aria-busy" = Some "false" /\ is_disabled p' button = false.
Proof.
  intros He. unfold set_disabled, is_disabled. split.
  - rewrite getAttribute_removeAttribute_ne by done. by apply getAttribute_setAttribute_eq.
  - rewrite getAttribute_removeAttribute_eq. apply bool_decide_eq_false. by intros [? ?].
Qed.

Lemma select_in_button (p : page) (element button : nat) :
  select_in p element sel_button = Some button ->
  exists e, store p !! button = Some e /\ tag e = "button".
Proof.
  intros Hsel. pose proof (head_elem _ _ Hsel) as Hin.
  apply select_all_in_elem in Hin as (a & _ & _ & Hm).
  simpl in Hm. apply matches_compound_Some in Hm as (e & He & Hall).
  simpl in Hall. apply andb_prop in Hall as [Htag _]. apply String.eqb_eq in Htag.
  by exists e.
Qed.

Lemma attribute_value_truthy (a : option string) :
  truthy (attribute_value a) = true -> exists s, a = Some s.
Proof. destruct a as [s|]; [by exists s|done]. Qed.

(** C9. Without a variant id or without an inner button, [handleQuickAdd]
    leaves the page as it is: no request, no busy or disabled mark.
    Otherwise the element is marked busy and the button disabled before
    [addToCart] runs, with no event yet. If [addToCart] succeeds, no revert
    is done in the run: a timer of 1000 ms is set, whose callback marks the
    element not busy and enables the button; at the end of the run the
    button is still disabled, and the element (any element that is not
    itself a [cart-element]) still busy. If [addToCart] throws, the error is
    logged and both are reverted at once, with no timer. *)
Theorem quick_add_busy_protocol (w : env) (element : nat) (p : page) :
  let variantId := attribute_value (getAttribute p element "data-id") in
  (truthy variantId = false \/ select_in p element sel_button = None ->
     handleQuickAdd w element p = (Ok tt, p)) /\
  (forall button,
     truthy variantId = true -> select_in p element sel_button = Some button ->
     let p0 := set_disabled button true (setAttribute element "aria-busy" "true" p) in
     getAttribute p0 element "aria-busy" = Some "true" /\ is_disabled p0 button = true /\
     trace p0 = trace p /\
     match addToCart w variantId (VNum 1) p0 with
     | (Ok _, p1) =>
         handleQuickAdd w element p =
           (Ok tt, add_timer 1000 (QuickAddReset element button) p1) /\
         timers p1 = timers p /\
         is_disabled p1 button = true /\
         ((exists e, store p !! element = Some e /\ tag e <> "cart-element") ->
            getAttribute p1 element "aria-busy" = Some "true") /\
         (forall q, is_Some (store q !! element) ->
            getAttribute (run_callback (QuickAddReset element button) q) element "aria-busy"
              = Some "false" /\
            is_disabled (run_callback (QuickAddReset element button) q) button = false)
     | (Thrown e, p1) =>
         let p' := snd (handleQuickAdd w element p) in
         fst (handleQuickAdd w element p) = Ok tt /\
         trace p' = trace p1 ++ [ConsoleError "Quick add error:" (Some e)] /\
         timers p' = timers p /\
         getAttribute p' element "aria-busy" = Some "false" /\
         is_disabled p' button = false
     end).
Proof.
  intros variantId. split.
  - intros Hnone. rewrite handleQuickAdd_unfold. cbv zeta. fold variantId.
    destruct (select_in p element sel_button) as [b|]; [|done].
    destruct Hnone as [->|?]; done.
  - intros button Hvid Hsel p0.
    destruct (attribute_value_truthy _ Hvid) as (s & Hs).
    assert (is_Some (store p !! element)) as Hel.
    { unfold getAttribute in Hs. destruct (store p !! element); [by eexists|done]. }
    destruct (select_in_button _ _ _ Hsel) as (eb & Heb & Htagb).
    destruct (marked_busy p element button Hel (ex_intro _ eb Heb)) as (Hbusy & Hdis).
    fold p0 in Hbusy, Hdis.
    split; [done|]. split; [done|]. split; [by unfold p0, set_disabled|].
    rewrite handleQuickAdd_unfold. cbv zeta. fold variantId. rewrite Hsel, Hvid. fold p0.
    pose proof (preserves_addToCart w variantId (VNum 1) p0) as [Htimers Hpres].
    assert (timers p0 = timers p) as Ht0 by (by unfold p0, set_disabled).
    destruct (addToCart w variantId (VNum 1) p0) as [[[]|e] p1]; simpl in Htimers, Hpres.
    + split; [done|]. split; [congruence|]. split; [|split].
      * unfold is_disabled, getAttribute in Hdis |- *.
        destruct (store p0 !! button) as [eb0|] eqn:Heb0; [|done].
        assert (tag eb0 = "button") as Htag0.
        { pose proof (tag_marked p element button button) as Htag. fold p0 in Htag.
          rewrite Heb0, Heb in Htag. simpl in Htag. congruence. }
        destruct (Hpres _ _ Heb0) as (eb1 & -> & Htag1 & Hattrs). simpl in Hdis |- *.
        rewrite Hattrs; [done|by rewrite Htag0|done..].
      * intros (e0 & He0 & Htag0). unfold getAttribute in Hbusy |- *.
        destruct (store p0 !! element) as [e1|] eqn:He1; [|done].
        assert (tag e1 = tag e0) as Htag1.
        { pose proof (tag_marked p element button element) as Htag. fold p0 in Htag.
          rewrite He1, He0 in Htag. simpl in Htag. congruence. }
        destruct (Hpres _ _ He1) as (e2 & -> & _ & Hattrs). simpl in Hbusy |- *.
        rewrite Hattrs; [done|by rewrite Htag1|done..].
      * intros q Hq. by apply reverted.
    + split; [done|]. split; [by unfold set_disabled|]. split; [unfold set_disabled; simpl; congruence|].
      apply reverted.
      assert (is_Some (store p0 !! element)) as [e0 He0].
      { unfold p0, set_disabled. by apply store_setAttribute_is_Some, store_setAttribute_is_Some. }
      destruct (Hpres _ _ He0) as (e1 & He1 & _). by exists e1.
Qed.

Lemma quick_add_busy_protocol_witness :
  truthy (attribute_value (getAttribute shop_page 8 "data-id")) = true /\
  select_in shop_page 8 sel_button = Some 9%nat /\
  handleQuickAdd online 8 bare_page = (Ok tt, bare_page) /\
  is_disabled (set_disabled 9 true (setAttribute 8 "aria-busy" "true" shop_page)) 9 = true.
Proof.
  split; [reflexivity|]. split; [reflexivity|].
  pose proof (quick_add_busy_protocol online 8 bare_page) as [Hnoop _].
  pose proof (quick_add_busy_protocol online 8 shop_page) as [_ Hrun].
  split.
  - apply Hnoop. right. reflexivity.
  - exact (proj1 (proj2 (Hrun 9%nat eq_refl eq_refl))).
Defined.

(** ** Well-formed pages stay well-formed *)

Lemma well_formed_same_tree (p p' : page) :
  tree p' = tree p -> dom (store p) ⊆ dom (store p') -> well_formed p -> well_formed p'.
Proof.
  intros Ht Hd [Hnd Hdom]. split; rewrite Ht; [done|].
  intros i Hi. by apply Hd, Hdom.
Qed.

Lemma well_formed_on_element (x : nat) (f : element -> element) (p : page) :
  well_formed p -> well_formed (on_element x f p).
Proof. apply well_formed_same_tree; [done|]. by rewrite dom_on_element. Qed.

Lemma well_formed_counted (count : count_value) (p : page) :
  well_formed p -> well_formed (counted count p).
Proof.
  apply well_formed_same_tree; [apply tree_foldl_setAttribute|].
  unfold counted. by rewrite dom_foldl_setAttribute.
Qed.

Lemma well_formed_updateCartCount (count : count_value) (p : page) :
  well_formed p -> well_formed (updateCartCount count p).
Proof.
  intros Hwf. destruct (select p sel_header_cart) as [h|] eqn:Hh.
  - destruct (updateCartCount_with_header count p h Hwf Hh) as (b & Hlemma).
    by destruct Hlemma as (_ & _ & _ & _ & ? & _).
  - destruct (updateCartCount_without_header count p Hh) as (-> & _).
    by apply well_formed_counted.
Qed.

Lemma NoDup_insert_fresh {A : Type} (l1 l2 m : list A) :
  NoDup (l1 ++ l2) -> NoDup m -> (forall x, x ∈ m -> x ∉ l1 ++ l2) ->
  NoDup (l1 ++ m ++ l2).
Proof.
  intros Hnd Hm Hfresh.
  assert (l1 ++ m ++ l2 ≡ₚ m ++ l1 ++ l2) as ->.
  { rewrite !app_assoc. apply Permutation_app_tail, Permutation_app_comm. }
  apply NoDup_app. done.
Qed.

Lemma well_formed_set_innerHTML (x : nat) (inner : list hnode) (p : page) :
  well_formed p -> well_formed (set_innerHTML x inner p).
Proof.
  intros [Hnd Hdom]. unfold set_innerHTML.
  destruct (instantiate_forest (store p) inner) as [kids' h2] eqn:Hinst.
  destruct (instantiate_forest_instantiated _ _ _ _ Hinst) as (Hsub & Hnew & Hndk & _).
  assert (forall i, i ∈ dom (store p) -> i ∈ dom h2) as Hgrow.
  { intros i [e He]%elem_of_dom. apply elem_of_dom. exists e. by eapply lookup_weaken. }
  destruct (decide (x ∈ ids (tree p))) as [Hx|Hx].
  - destruct (walk_split x (tree p) [] Hx Hnd)
      as (pre & a & kids & post & path & HW & _ & Hrw & _ & _).
    specialize (Hrw (fun _ => kids')). cbv beta in Hrw.
    assert (ids (tree p) = (map fst pre ++ [x]) ++ ids_forest kids ++ map fst post) as Hids.
    { rewrite <- (walk_ids _ []), HW, map_app, map_cons, map_app, walk_forest_ids.
      simpl. rewrite <- app_assoc. done. }
    assert (ids (with_children x (fun _ => kids') (tree p))
            = (map fst pre ++ [x]) ++ ids_forest kids' ++ map fst post) as Hids'.
    { rewrite <- (walk_ids _ []), Hrw, map_app, map_cons, map_app, walk_forest_ids.
      simpl. rewrite <- app_assoc. done. }
    assert (forall i, i ∈ (map fst pre ++ [x]) ++ map fst post -> i ∈ ids (tree p)) as Hold.
    { intros i Hi. rewrite Hids. repeat rewrite elem_of_app in Hi. repeat rewrite elem_of_app. tauto. }
    split; simpl.
    + rewrite Hids'. apply NoDup_insert_fresh; [|done|].
      * rewrite Hids in Hnd. apply NoDup_app in Hnd as (H1 & H2 & H3).
        apply NoDup_app in H3 as (_ & _ & H3).
        apply NoDup_app. split; [done|]. split; [|done].
        intros i Hi Hi'. apply (H2 i Hi). apply elem_of_app. by right.
      * intros i Hi Hi'. destruct (Hnew i Hi) as [Hnone _].
        apply Hold, Hdom in Hi'. by apply not_elem_of_dom in Hnone.
    + intros i. rewrite Hids'. repeat rewrite elem_of_app.
      intros [[Hi|Hi]|[Hi|Hi]].
      * apply Hgrow, Hdom, Hold. repeat rewrite elem_of_app. tauto.
      * apply Hgrow, Hdom, Hold. repeat rewrite elem_of_app. tauto.
      * destruct (Hnew i Hi) as [_ Hsome]. by apply elem_of_dom.
      * apply Hgrow, Hdom, Hold. repeat rewrite elem_of_app. tauto.
  - split; simpl; rewrite with_children_absent by done; [done|].
    intros i Hi. by apply Hgrow, Hdom.
Qed.

Lemma well_formed_put_attribute (w : env) (x : nat) (attr : string * string) (p : page) :
  well_formed p -> well_formed (put_attribute w x attr p).
Proof.
  unfold put_attribute. destruct (String.eqb (fst attr) "style");
    apply well_formed_on_element.
Qed.

Lemma well_formed_merged (w : env) (f : fragment) (c : nat) (p : page) :
  well_formed p -> well_formed (merged w f c p).
Proof.
  intros Hwf. apply merged_ind.
  - by apply well_formed_set_innerHTML.
  - intros q attr. apply well_formed_put_attribute.
Qed.

Lemma well_formed_refresh_drawer (w : env) (html : option string) (p : page) :
  well_formed p -> well_formed (snd (refresh_drawer w html p)).
Proof.
  intros Hwf. destruct (refresh_drawer_cases w html p) as [->|(f & c & _ & ->)]; [done|].
  by apply well_formed_merged.
Qed.

Lemma well_formed_openCartDrawer (p : page) :
  well_formed p -> well_formed (openCartDrawer p).
Proof.
  intros Hwf. rewrite openCartDrawer_unfold. destruct (drawer_of p).
  - by apply well_formed_on_element, well_formed_on_element.
  - destruct (select p sel_drawer_trigger); [done|].
    by destruct (select p sel_header_cart_link).
Qed.

Lemma well_formed_refreshAndOpenCartDrawer (w : env) (p : page) :
  well_formed p -> well_formed (snd (refreshAndOpenCartDrawer w p)).
Proof.
  intros Hwf. rewrite refreshAndOpenCartDrawer_unfold. cbv zeta.
  set (r := Request _ _ _ _).
  destruct (server w (trace p) r) as [|ok [[|c d]|]]; cbn [snd]; try done.
  pose proof (well_formed_refresh_drawer w d (emit (Fetch r) p) Hwf) as Hwf'.
  destruct (fst (refresh_drawer w d (emit (Fetch r) p))) as [[]|e]; [|done].
  by apply well_formed_openCartDrawer.
Qed.

Lemma well_formed_addToCart (w : env) (variantId quantity : value) (p : page) :
  well_formed p -> well_formed (snd (addToCart w variantId quantity p)).
Proof.
  intros Hwf. unfold addToCart. unfold_monad. rewrite run_fetch.
  set (r := add_request variantId quantity).
  destruct (server w (trace p) r) as [|[|] [j|]]; simpl; try done.
  rewrite run_fetch. set (p1 := emit (Fetch r) p).
  destruct (server w (trace p1) cart_request) as [|ok [[|c d]|]]; simpl; try done.
  set (p2 := updateCartCount c (emit (Fetch cart_request) p1)).
  assert (well_formed p2) as H2 by (by apply well_formed_updateCartCount).
  pose proof (well_formed_refreshAndOpenCartDrawer w p2 H2) as H3.
  destruct (refreshAndOpenCartDrawer_events w p2) as (l & Hok & _).
  destruct (refreshAndOpenCartDrawer w p2) as [res p3]. simpl in *. by subst res.
Qed.

Lemma well_formed_setAttribute (x : nat) (k v : string) (p : page) :
  well_formed p -> well_formed (setAttribute x k v p).
Proof. apply well_formed_on_element. Qed.

Lemma well_formed_removeAttribute (x : nat) (k : string) (p : page) :
  well_formed p -> well_formed (removeAttribute x k p).
Proof. apply well_formed_on_element. Qed.

Lemma well_formed_set_disabled (x : nat) (b : bool) (p : page) :
  well_formed p -> well_formed (set_disabled x b p).
Proof. destruct b; apply well_formed_on_element. Qed.

Lemma well_formed_emit (e : event) (p : page) : well_formed p -> well_formed (emit e p).
Proof. done. Qed.

Create HintDb well_formed.
#[local] Hint Resolve well_formed_setAttribute well_formed_removeAttribute
  well_formed_set_disabled well_formed_emit well_formed_addToCart : well_formed.

(** Every entry point of the handler, and the timer it sets, takes a
    well-formed page to a well-formed page: no element comes to stand twice
    in the tree, and every element of the tree has its record in the
    store. *)
Theorem handler_keeps_pages_well_formed (w : env) (p : page) :
  well_formed p ->
  (forall f, fst (on_submit w f p) = Ok tt /\ well_formed (snd (on_submit w f p))) /\
  (forall target, fst (on_click w target p) = Ok tt /\
                  well_formed (snd (on_click w target p))) /\
  (forall cb, well_formed (run_callback cb p)).
Proof.
  intros Hwf. split; [|split].
  - intros f. unfold on_submit.
    destruct (truthy (VStr (action f)) && includes (action f) "/cart/add"); [|done].
    unfold_monad. simpl. unfold handleFormSubmit.
    destruct (truthy (form_get (fields f) "id")); simpl; [|done].
    unfold try_catch.
    set (p0 := emit StopPropagation (emit PreventDefault p)).
    assert (well_formed (snd (addToCart w (form_get (fields f) "id") (form_quantity f) p0)))
      as H by (unfold p0; auto with well_formed).
    by destruct (addToCart w _ _ p0) as [[[]|e] p1].
  - intros target. unfold on_click. unfold_monad. simpl.
    destruct (closest p target sel_quick_add) as [q|]; [|done]. simpl.
    set (p0 := emit StopPropagation (emit PreventDefault p)).
    rewrite handleQuickAdd_unfold. cbv zeta.
    destruct (select_in p0 q sel_button) as [b|]; [|done].
    destruct (truthy _); [|done].
    set (pm := set_disabled b true _).
    assert (well_formed (snd (addToCart w
      (attribute_value (getAttribute p0 q "data-id")) (VNum 1) pm))) as H
      by (unfold pm, p0; auto 6 with well_formed).
    destruct (addToCart w _ _ pm) as [[[]|e] p1]; cbn [fst snd] in *; [done|].
    split; [done|]. unfold console_error, modify. simpl. auto with well_formed.
  - intros [element button]. unfold run_callback. auto with well_formed.
Qed.

Lemma handler_keeps_pages_well_formed_witness :
  well_formed shop_page /\
  well_formed (snd (on_submit online (sample_form []) shop_page)) /\
  well_formed (snd (on_click online 9 shop_page)).
Proof.
  split; [exact shop_page_well_formed|].
  pose proof (handler_keeps_pages_well_formed online shop_page shop_page_well_formed)
    as (Hs & Hc & _).
  split; [exact (proj2 (Hs (sample_form [])))|exact (proj2 (Hc 9%nat))].
Defined.

(** ** The script and its listeners *)

Lemma listeners_for_addEventListener (type type' : string) (l : listener) (b : window) :
  listeners_for type (addEventListener type' l b) =
  listeners_for type b ++ (if decide (type' = type) then [l] else []).
Proof.
  unfold listeners_for, addEventListener. simpl.
  rewrite filter_app, map_app. f_equal.
  rewrite filter_cons, filter_nil. simpl. by destruct (decide (type' = type)).
Qed.

Lemma dispatchEvent_listeners_for (w : env) (ev : dom_event) (b : window) :
  dispatchEvent w ev b =
  foldl (fun b' l => call w l ev b') b (listeners_for (event_type ev) b).
Proof. unfold dispatchEvent, listeners_for. by rewrite foldl_fmap. Qed.

Lemma listeners_for_init (type : string) (b : window) :
  listeners_for type (init b) =
  listeners_for type b ++ (if decide ("submit" = type) then [SubmitListener] else [])
                       ++ (if decide ("click" = type) then [ClickListener] else []).
Proof.
  unfold init. rewrite !listeners_for_addEventListener. by rewrite <- app_assoc.
Qed.

(** The window once the script has run and the document is parsed. *)
Lemma parsed_script (w : env) (b : window) :
  listeners_for "DOMContentLoaded" b = [] ->
  parsed w (script b) =
  match readyState b with
  | Loading =>
      init (Window Interactive (listeners b ++ [("DOMContentLoaded", Construct)]) (document b))
  | _ => init b
  end.
Proof.
  intros Hnone. unfold script, parsed.
  destruct (readyState b) eqn:Hready; simpl; rewrite Hready; try done.
  unfold finish_parsing. rewrite dispatchEvent_listeners_for.
  change (event_type DOMContentLoaded) with "DOMContentLoaded".
  assert (listeners_for "DOMContentLoaded"
            (Window Interactive (listeners (addEventListener "DOMContentLoaded" Construct b))
               (document (addEventListener "DOMContentLoaded" Construct b)))
          = [Construct]) as ->; [|reflexivity].
  change (listeners_for "DOMContentLoaded" (addEventListener "DOMContentLoaded" Construct
            (Window Interactive (listeners b) (document b))) = [Construct]).
  rewrite listeners_for_addEventListener.
  change (listeners_for "DOMContentLoaded" (Window Interactive (listeners b) (document b)))
    with (listeners_for "DOMContentLoaded" b).
  by rewrite Hnone.
Qed.

(** X2. Running the script installs the handler once, whether the document
    is still being parsed (the handler is then constructed when
    [DOMContentLoaded] fires) or not: once the document is parsed, one
    [submit] listener and one [click] listener have been added after those
    that were there, and the page is as it was. When they are the only
    listeners for their events, a submission runs the [submit] listener
    once on the page, and a click the [click] listener. *)
Theorem script_installs_one_handler (w : env) (b : window) :
  listeners_for "DOMContentLoaded" b = [] ->
  let b' := parsed w (script b) in
  listeners_for "submit" b' = listeners_for "submit" b ++ [SubmitListener] /\
  listeners_for "click" b' = listeners_for "click" b ++ [ClickListener] /\
  document b' = document b /\
  (listeners_for "submit" b = [] ->
   forall f : form,
     document (dispatchEvent w (Submit f) b') = snd (on_submit w f (document b))) /\
  (listeners_for "click" b = [] ->
   forall target,
     document (dispatchEvent w (ClickOn target) b') = snd (on_click w target (document b))).
Proof.
  intros Hnone b'.
  assert (listeners_for "submit" b' = listeners_for "submit" b ++ [SubmitListener] /\
          listeners_for "click" b' = listeners_for "click" b ++ [ClickListener] /\
          document b' = document b) as (Hs & Hc & Hd).
  { unfold b'. rewrite parsed_script by done.
    destruct (readyState b); rewrite !listeners_for_init; simpl;
      rewrite ?app_nil_r; try done.
    unfold listeners_for. simpl. rewrite !filter_app, !map_app. simpl.
    by rewrite !app_nil_r. }
  split; [done|]. split; [done|]. split; [done|]. split.
  - intros Hb f. rewrite dispatchEvent_listeners_for.
    change (event_type (Submit f)) with "submit". rewrite Hs, Hb. simpl. by rewrite Hd.
  - intros Hb target. rewrite dispatchEvent_listeners_for.
    change (event_type (ClickOn target)) with "click". rewrite Hc, Hb. simpl. by rewrite Hd.
Qed.

Lemma script_installs_one_handler_witness :
  listeners_for "submit"
    (parsed online (script (Window Loading [("submit", SubmitListener)] shop_page)))
  = [SubmitListener; SubmitListener] /\
  listeners_for "click" (parsed online (script (Window Complete [] shop_page)))
  = [ClickListener] /\
  document (dispatchEvent online (Submit (sample_form []))
              (parsed online (script (Window Loading [] shop_page))))
  = snd (on_submit online (sample_form []) shop_page).
Proof.
  split; [|split].
  - exact (proj1 (script_installs_one_handler online
                    (Window Loading [("submit", SubmitListener)] shop_page) eq_refl)).
  - exact (proj1 (proj2 (script_installs_one_handler online
                    (Window Complete [] shop_page) eq_refl))).
  - exact (proj1 (proj2 (proj2 (proj2 (script_installs_one_handler online
                    (Window Loading [] shop_page) eq_refl)))) eq_refl (sample_form [])).
Defined.

(** X3. While the document is being parsed the script only waits for
    [DOMContentLoaded]: an event of another type that arrives before the end
    of parsing, the submission of a cart-add form among them, meets no
    listener of the script and leaves the window as it is. *)
Theorem nothing_intercepted_while_loading (w : env) (b : window) (ev : dom_event) :
  readyState b = Loading ->
  ev <> DOMContentLoaded ->
  listeners_for (event_type ev) b = [] ->
  dispatchEvent w ev (script b) = script b /\
  listeners_for (event_type ev) (script b) = [].
Proof.
  intros Hready Hev Hnone. unfold script. rewrite Hready.
  assert (listeners_for (event_type ev) (addEventListener "DOMContentLoaded" Construct b) = [])
    as Hl.
  { rewrite listeners_for_addEventListener, Hnone.
    destruct ev; try done; by rewrite decide_False. }
  split; [|done]. by rewrite dispatchEvent_listeners_for, Hl.
Qed.

Lemma nothing_intercepted_while_loading_witness :
  dispatchEvent online (Submit (sample_form [])) (script (Window Loading [] shop_page))
  = script (Window Loading [] shop_page).
Proof.
  apply (nothing_intercepted_while_loading online (Window Loading [] shop_page)
           (Submit (sample_form []))); [reflexivity|discriminate|reflexivity].
Defined.
(** ** The outcomes of [addToCart] *)

(** [addToCart], answer by answer. *)
Lemma addToCart_unfold (w : env) (variantId quantity : value) (p : page) :
  addToCart w variantId quantity p =
  let r := add_request variantId quantity in
  let p1 := emit (Fetch r) p in
  let p2 := emit (Fetch cart_request) p1 in
  let failed (e : error) (q : page) : result unit * page :=
    (Thrown e, emit (ConsoleError "Add to cart error:" (Some e)) q) in
  match server w (trace p) r with
  | NetworkFailure => failed FetchRejected p1
  | Response false _ => failed (Error "Failed to add to cart") p1
  | Response true None => failed JsonSyntaxError p1
  | Response true (Some _) =>
      match server w (trace p1) cart_request with
      | NetworkFailure => failed FetchRejected p2
      | Response _ None => failed JsonSyntaxError p2
      | Response _ (Some JNull) => failed NullPropertyError p2
      | Response _ (Some (JObject count _)) =>
          (Ok tt, snd (refreshAndOpenCartDrawer w (updateCartCount count p2)))
      end
  end.
Proof.
  unfold addToCart. unfold_monad. rewrite run_fetch. cbv zeta.
  set (r := add_request variantId quantity).
  destruct (server w (trace p) r) as [|[|] [j|]]; simpl; try reflexivity.
  rewrite run_fetch. set (p1 := emit (Fetch r) p).
  change (trace p ++ [Fetch r]) with (trace p1).
  destruct (server w (trace p1) cart_request) as [|ok [[|c d]|]]; simpl; try reflexivity.
  set (p2 := updateCartCount c _).
  destruct (refreshAndOpenCartDrawer_events w p2) as (l & Hok & _).
  destruct (refreshAndOpenCartDrawer w p2) as [res p3]. simpl in *. by subst res.
Qed.

Lemma origin_foldl_setAttribute (name v : string) (l : list nat) (p : page) :
  origin (foldl (fun q x => setAttribute x name v q) p l) = origin p.
Proof. revert p. induction l as [|x l IH]; intros p; simpl; [done|]. by rewrite IH. Qed.

Lemma origin_updateCartCount (count : count_value) (p : page) :
  origin (updateCartCount count p) = origin p.
Proof.
  unfold updateCartCount.
  set (p1 := foldl _ p _).
  assert (origin p1 = origin p) as H1 by apply origin_foldl_setAttribute.
  destruct (select p1 sel_header_cart) as [h|]; [|done].
  unfold find_or_create_badge.
  destruct (select_in p1 h sel_badge); simpl; destruct (count_positive count); simpl; congruence.
Qed.

Lemma requests_app (l1 l2 : list event) : requests (l1 ++ l2) = requests l1 ++ requests l2.
Proof. unfold requests. by rewrite omap_app. Qed.

(** [refreshAndOpenCartDrawer] sends one request, for the drawer section. *)
Lemma refreshAndOpenCartDrawer_requests (w : env) (p : page) :
  exists l, trace (snd (refreshAndOpenCartDrawer w p)) = trace p ++ l /\
    requests l = [section_request p].
Proof.
  rewrite refreshAndOpenCartDrawer_unfold. cbv zeta.
  fold (section_request p). set (r := section_request p).
  destruct (server w (trace p) r) as [|ok [[|c d]|]]; simpl;
    try (eexists; rewrite <- app_assoc; split; reflexivity).
  set (p1 := snd (refresh_drawer w d (emit (Fetch r) p))).
  assert (trace p1 = trace p ++ [Fetch r]) as H1.
  { unfold p1. by rewrite trace_refresh_drawer. }
  destruct (fst (refresh_drawer w d (emit (Fetch r) p))) as [[]|e].
  - destruct (trace_openCartDrawer p1) as [H2|[x H2]]; rewrite H2, H1.
    + by eexists.
    + eexists. rewrite <- app_assoc. split; reflexivity.
  - simpl. rewrite H1. eexists. rewrite <- app_assoc. split; reflexivity.
Qed.

(** X4. A run of [addToCart] that throws has changed nothing in the
    document: the tree, the store and the timers are as before. It has sent
    the add request, or the add request and the cart request, and nothing
    else, and its last event is the log of the error it throws. *)
Theorem addToCart_failure_is_atomic (w : env) (variantId quantity : value) (p : page)
    (e : error) :
  fst (addToCart w variantId quantity p) = Thrown e ->
  let p' := snd (addToCart w variantId quantity p) in
  tree p' = tree p /\ store p' = store p /\ timers p' = timers p /\
  exists rs, (rs = [add_request variantId quantity] \/
              rs = [add_request variantId quantity; cart_request]) /\
    trace p' = trace p ++ map Fetch rs ++ [ConsoleError "Add to cart error:" (Some e)].
Proof.
  rewrite addToCart_unfold. cbv zeta.
  set (r := add_request variantId quantity).
  destruct (server w (trace p) r) as [|[|] [j|]]; cbn [fst snd];
    try (intros [= <-]; repeat split; try done; exists [r];
         split; [by left|]; simpl; by rewrite <- app_assoc).
  destruct (server w (trace (emit (Fetch r) p)) cart_request) as [|ok [[|c d]|]]; cbn [fst snd];
    try (intros [= <-]; repeat split; try done; exists [r; cart_request];
         split; [by right|]; simpl; by rewrite <- !app_assoc).
  discriminate.
Qed.

Lemma addToCart_failure_is_atomic_witness :
  store (snd (addToCart unreachable (VStr "123") (VNum 1) shop_page)) = store shop_page.
Proof.
  exact (proj1 (proj2 (addToCart_failure_is_atomic unreachable (VStr "123") (VNum 1)
                         shop_page FetchRejected eq_refl))).
Defined.

(** X5. The requests of a run of [addToCart] are the add request, then the
    cart request, then the request for the drawer section, in this order and
    each at most once; the run returns normally exactly when it has sent all
    three, and throws when it stopped earlier. *)
Theorem addToCart_request_protocol (w : env) (variantId quantity : value) (p : page) :
  let add := add_request variantId quantity in
  exists l, trace (snd (addToCart w variantId quantity p)) = trace p ++ l /\
    (requests l = [add] \/ requests l = [add; cart_request] \/
     requests l = [add; cart_request; section_request p]) /\
    (fst (addToCart w variantId quantity p) = Ok tt <->
     requests l = [add; cart_request; section_request p]).
Proof.
  rewrite addToCart_unfold. cbv zeta.
  set (r := add_request variantId quantity).
  destruct (server w (trace p) r) as [|[|] [j|]]; simpl;
    try (eexists; rewrite <- app_assoc; split; [reflexivity|]; simpl;
         split; [by left|]; split; discriminate).
  destruct (server w (trace p ++ [Fetch r]) cart_request) as [|ok [[|c d]|]]; simpl;
    try (eexists; rewrite <- !app_assoc; split; [reflexivity|]; simpl;
         split; [right; by left|]; split; discriminate).
  set (p2 := updateCartCount c _).
  destruct (refreshAndOpenCartDrawer_requests w p2) as (l & Htr & Hl).
  assert (section_request p2 = section_request p) as Hsec.
  { unfold section_request, p2. by rewrite origin_updateCartCount. }
  rewrite Hsec in Hl.
  exists ([Fetch r; Fetch cart_request] ++ l). split.
  - rewrite Htr. unfold p2. rewrite trace_updateCartCount. simpl.
    by rewrite <- !app_assoc.
  - rewrite requests_app, Hl. simpl. split; [right; by right|]. split; done.
Qed.
(** X6. When [addToCart] throws, and what. The status of the add request
    is looked at before its body: a rejected request throws the rejection, a
    non-success status throws [Failed to add to cart] whatever the body, and
    an accepted add whose body is not JSON throws the syntax error before
    the cart is read. The cart request throws when it is rejected, when its
    body is not JSON, and when the body is [null]; its status is not looked
    at. Nothing else makes [addToCart] throw: a failure of the drawer
    refresh does not. *)
Theorem addToCart_throws_iff (w : env) (variantId quantity : value) (p : page) (e : error) :
  let add := server w (trace p) (add_request variantId quantity) in
  let cart := server w (trace p ++ [Fetch (add_request variantId quantity)]) cart_request in
  fst (addToCart w variantId quantity p) = Thrown e <->
  (add = NetworkFailure /\ e = FetchRejected) \/
  (exists b, add = Response false b /\ e = Error "Failed to add to cart") \/
  (add = Response true None /\ e = JsonSyntaxError) \/
  ((exists j, add = Response true (Some j)) /\
   ((cart = NetworkFailure /\ e = FetchRejected) \/
    (exists ok, cart = Response ok None /\ e = JsonSyntaxError) \/
    (exists ok, cart = Response ok (Some JNull) /\ e = NullPropertyError))).
Proof.
  intros add cart. rewrite addToCart_unfold. cbv zeta.
  change (trace (emit (Fetch (add_request variantId quantity)) p))
    with (trace p ++ [Fetch (add_request variantId quantity)]).
  fold add. fold cart.
  destruct add as [|[|] [j|]]; cbn [fst].
  - split; [intros [= <-]; by left|].
    intros [[_ ->]|[(b & H & _)|[[H _]|[[j H] _]]]]; done.
  - destruct cart as [|ok [[|c d]|]]; cbn [fst].
    + split; [intros [= <-]; right; right; right; split; [by eexists|by left]|].
      intros [[H _]|[(b & H & _)|[[H _]|[_ [[_ ->]|[(ok & H & _)|(ok & H & _)]]]]]]; done.
    + split; [intros [= <-]; right; right; right; split; [by eexists|];
              right; right; by eexists|].
      intros [[H _]|[(b & H & _)|[[H _]|[_ [[H _]|[(ok' & H & _)|(ok' & _ & ->)]]]]]]; done.
    + split; [done|].
      intros [[H _]|[(b & H & _)|[[H _]|[_ [[H _]|[(ok' & H & _)|(ok' & H & _)]]]]]]; done.
    + split; [intros [= <-]; right; right; right; split; [by eexists|];
              right; left; by eexists|].
      intros [[H _]|[(b & H & _)|[[H _]|[_ [[H _]|[(ok' & _ & ->)|(ok' & H & _)]]]]]]; done.
  - split; [intros [= <-]; right; right; by left|].
    intros [[H _]|[(b & H & _)|[[_ ->]|[[j H] _]]]]; done.
  - split; [intros [= <-]; right; left; by eexists|].
    intros [[H _]|[(b & _ & ->)|[[H _]|[[j' H] _]]]]; done.
  - split; [intros [= <-]; right; left; by eexists|].
    intros [[H _]|[(b & _ & ->)|[[H _]|[[j' H] _]]]]; done.
Qed.

Lemma addToCart_throws_iff_witness :
  fst (addToCart refusing (VStr "123") (VNum 1) shop_page)
  = Thrown (Error "Failed to add to cart").
Proof.
  apply (addToCart_throws_iff refusing (VStr "123") (VNum 1) shop_page).
  right. left. by eexists.
Defined.
(** ** What a submission sends *)

(** A cart-add form with an [id]: the two calls on the event, the add
    request, and then no other mutation request. *)
Lemma on_submit_sends (w : env) (f : form) (p : page) :
  includes (action f) "/cart/add" = true ->
  truthy (form_get (fields f) "id") = true ->
  exists l, trace (snd (on_submit w f p)) =
      trace p ++ [PreventDefault; StopPropagation;
                  Fetch (add_request (form_get (fields f) "id") (form_quantity f))] ++ l /\
    mutation_requests l = [].
Proof.
  intros Hact Hid. rewrite on_submit_intercepted by done.
  unfold handleFormSubmit. rewrite Hid. simpl. unfold try_catch.
  set (p0 := emit StopPropagation (emit PreventDefault p)).
  destruct (addToCart_events w (form_get (fields f) "id") (form_quantity f) p0)
    as (l & Htr & Hl).
  destruct (addToCart w _ _ p0) as [[[]|e] p1]; simpl in *.
  - exists l. rewrite Htr. rewrite <- !app_assoc. done.
  - exists (l ++ [ConsoleError "Form submit error:" (Some e)]).
    rewrite Htr. rewrite <- !app_assoc. simpl. split; [done|].
    by rewrite mutation_requests_nil_tail.
Qed.

Lemma on_submit_mutations (w : env) (f : form) (p : page) :
  includes (action f) "/cart/add" = true ->
  truthy (form_get (fields f) "id") = true ->
  exists l, trace (snd (on_submit w f p)) = trace p ++ l /\
    mutation_requests l = [add_request (form_get (fields f) "id") (form_quantity f)].
Proof.
  intros Hact Hid. destruct (on_submit_sends w f p Hact Hid) as (l & Htr & Hl).
  eexists. split; [exact Htr|].
  rewrite mutation_requests_app, Hl. reflexivity.
Qed.

(** X7. Nothing keeps the script from being run twice: each run installs
    its own handler, and a cart-add form submitted afterwards is sent once
    by each of them, so the item is added twice. *)
Theorem second_inclusion_doubles_the_requests (w : env) (b : window) (f : form) :
  listeners b = [] ->
  includes (action f) "/cart/add" = true ->
  truthy (form_get (fields f) "id") = true ->
  let b2 := parsed w (script (script b)) in
  let sent := add_request (form_get (fields f) "id") (form_quantity f) in
  listeners_for "submit" b2 = [SubmitListener; SubmitListener] /\
  exists l, trace (document (dispatchEvent w (Submit f) b2)) = trace (document b) ++ l /\
    mutation_requests l = [sent; sent].
Proof.
  intros Hnone Hact Hid b2 sent.
  destruct b as [ready ls doc]. simpl in Hnone. subst ls.
  assert (listeners_for "submit" b2 = [SubmitListener; SubmitListener] /\
          document b2 = doc) as [Hls Hdoc].
  { unfold b2. by destruct ready. }
  split; [done|].
  rewrite dispatchEvent_listeners_for. change (event_type (Submit f)) with "submit".
  rewrite Hls. simpl. rewrite Hdoc.
  destruct (on_submit_mutations w f doc Hact Hid) as (l1 & Htr1 & Hl1).
  destruct (on_submit_mutations w f (snd (on_submit w f doc)) Hact Hid) as (l2 & Htr2 & Hl2).
  exists (l1 ++ l2). split.
  - rewrite Htr2, Htr1. by rewrite <- app_assoc.
  - by rewrite mutation_requests_app, Hl1, Hl2.
Qed.

Lemma second_inclusion_doubles_the_requests_witness :
  listeners_for "submit" (parsed online (script (script (Window Loading [] shop_page))))
  = [SubmitListener; SubmitListener].
Proof.
  exact (proj1 (second_inclusion_doubles_the_requests online (Window Loading [] shop_page)
                  (sample_form []) eq_refl eq_refl eq_refl)).
Defined.

(** ** Which forms are intercepted *)

Lemma prefix_spec (a s : string) :
  String.prefix a s = true <-> exists post, s = a +:+ post.
Proof.
  revert s. induction a as [|c a IH]; intros s.
  - split; [by exists s|by destruct s].
  - destruct s as [|c' s]; simpl; [split; [done|by intros [? ?]]|].
    destruct (ascii_dec c c') as [->|Hne].
    + rewrite IH. split; intros [post H]; exists post; [by rewrite H|by injection H].
    + split; [done|]. intros [post H]. injection H as <- _. done.
Qed.

Lemma includes_unfold (s sub : string) :
  includes s sub =
  String.prefix sub s || match s with String _ r => includes r sub | EmptyString => false end.
Proof. by destruct s. Qed.

Lemma includes_spec (s sub : string) :
  includes s sub = true <-> exists pre post, s = pre +:+ sub +:+ post.
Proof.
  split.
  - induction s as [|c s IH]; rewrite includes_unfold.
    + rewrite orb_false_r. intros [post H]%prefix_spec. by exists "", post.
    + intros [[post H]%prefix_spec|H]%orb_prop.
      * by exists "", post.
      * destruct (IH H) as (pre & post & ->). by exists (String c pre), post.
  - intros (pre & post & ->). induction pre as [|c pre IH].
    + rewrite includes_unfold.
      assert (String.prefix sub ("" +:+ sub +:+ post) = true) as ->
        by (apply prefix_spec; by exists post).
      done.
    + change (String c pre +:+ sub +:+ post) with (String c (pre +:+ sub +:+ post)).
      rewrite includes_unfold, IH. apply orb_true_r.
Qed.

Lemma handleFormSubmit_trace (w : env) (f : form) (p : page) :
  exists l, trace (snd (handleFormSubmit w f p)) = trace p ++ l.
Proof.
  unfold handleFormSubmit.
  destruct (truthy (form_get (fields f) "id")); simpl; [|by eexists].
  unfold try_catch.
  destruct (addToCart_events w (form_get (fields f) "id") (form_quantity f) p)
    as (l & Htr & _).
  destruct (addToCart w _ _ p) as [[[]|e] p1]; simpl in *.
  - by eexists.
  - rewrite Htr, <- app_assoc. by eexists.
Qed.

(** X8. The [submit] listener takes over a form exactly when the address in
    its [action] contains [/cart/add] somewhere: the default submission of
    such a form is cancelled first of all, and any other form is left to the
    browser, with no event and no change to the page. *)
Theorem submit_intercepted_iff_action_contains (w : env) (f : form) (p : page) :
  let cart_add := exists pre post, action f = pre +:+ "/cart/add" +:+ post in
  (cart_add <->
   exists l, trace (snd (on_submit w f p)) = trace p ++ PreventDefault :: StopPropagation :: l) /\
  (~ cart_add -> on_submit w f p = (Ok tt, p)).
Proof.
  intros cart_add.
  assert (~ cart_add -> on_submit w f p = (Ok tt, p)) as Hnot.
  { intros Hno. unfold on_submit.
    destruct (includes (action f) "/cart/add") eqn:Hincl.
    - exfalso. apply Hno. by apply includes_spec.
    - by rewrite andb_false_r. }
  split; [split|done].
  - intros Hyes%includes_spec. rewrite on_submit_intercepted by done.
    destruct (handleFormSubmit_trace w f (emit StopPropagation (emit PreventDefault p)))
      as (l & ->).
    exists l. simpl. by rewrite <- !app_assoc.
  - intros (l & Htr).
    destruct (includes (action f) "/cart/add") eqn:Hincl; [by apply includes_spec|].
    exfalso. rewrite Hnot in Htr.
    + simpl in Htr. rewrite <- (app_nil_r (trace p)) in Htr at 1.
      by apply app_inv_head in Htr.
    + intros Hyes%includes_spec. congruence.
Qed.
Lemma submit_intercepted_iff_action_contains_witness :
  on_submit online (Form "https://shop.example/search" [("id", VStr "123")]) shop_page
  = (Ok tt, shop_page).
Proof.
  apply (submit_intercepted_iff_action_contains online
           (Form "https://shop.example/search" [("id", VStr "123")]) shop_page).
  intros Hyes%includes_spec. discriminate Hyes.
Defined.

(** ** Errors stay inside the listeners *)

(** X9. The one exception that leaves a listener is that of a form with a
    control named [action]: the [submit] listener throws on it at once,
    before anything is cancelled, sent or changed, so the form is left to
    the browser. On every other target of a [submit] event, and on every
    target of a click, the run returns normally, whatever the page and the
    answers of the storefront. When [addToCart] throws under
    [handleFormSubmit], the error is logged a second time and dropped, and
    the document is left as it was: the run has only added events, the last
    two being the two log lines. *)
Theorem listeners_reject_shadowed_forms_only (w : env) (p : page) :
  (forall target : submit_target,
     match target with
     | ShadowedForm => submit_listener w target p = (Thrown NotAFunction, p)
     | _ => fst (submit_listener w target p) = Ok tt
     end) /\
  (forall target, fst (on_click w target p) = Ok tt) /\
  (forall f e,
     includes (action f) "/cart/add" = true ->
     truthy (form_get (fields f) "id") = true ->
     fst (addToCart w (form_get (fields f) "id") (form_quantity f)
            (emit StopPropagation (emit PreventDefault p))) = Thrown e ->
     let p' := snd (on_submit w f p) in
     tree p' = tree p /\ store p' = store p /\ timers p' = timers p /\
     exists l, trace p' =
       trace p ++ l ++ [ConsoleError "Add to cart error:" (Some e);
                        ConsoleError "Form submit error:" (Some e)]).
Proof.
  split; [|split].
  - intros [f| |]; [|reflexivity|reflexivity]. unfold submit_listener, on_submit.
    destruct (truthy (VStr (action f)) && includes (action f) "/cart/add"); [|done].
    unfold_monad. simpl. unfold handleFormSubmit.
    destruct (truthy (form_get (fields f) "id")); simpl; [|done].
    unfold try_catch. by destruct (addToCart w _ _ _) as [[[]|e] p1].
  - intros target. unfold on_click. unfold_monad. simpl.
    destruct (closest p target sel_quick_add) as [q|]; [|done]. simpl.
    rewrite handleQuickAdd_unfold. cbv zeta.
    destruct (select_in _ q sel_button) as [b|]; [|done].
    destruct (truthy _); [|done].
    by destruct (addToCart w _ _ _) as [[[]|e] p1].
  - intros f e Hact Hid. rewrite on_submit_intercepted by done.
    unfold handleFormSubmit. rewrite Hid. simpl. unfold try_catch.
    set (p0 := emit StopPropagation (emit PreventDefault p)).
    rewrite addToCart_unfold. cbv zeta.
    set (r := add_request _ _).
    destruct (server w (trace p0) r) as [|[|] [j|]]; cbn [fst snd];
      try (intros [= <-]; repeat split; try done;
           exists [PreventDefault; StopPropagation; Fetch r]; simpl;
           by rewrite <- !app_assoc).
    destruct (server w (trace (emit (Fetch r) p0)) cart_request) as [|ok [[|c d]|]];
      cbn [fst snd];
      try (intros [= <-]; repeat split; try done;
           exists [PreventDefault; StopPropagation; Fetch r; Fetch cart_request]; simpl;
           by rewrite <- !app_assoc).
Qed.

Lemma listeners_reject_shadowed_forms_only_witness :
  store (snd (on_submit unreachable (sample_form []) shop_page)) = store shop_page.
Proof.
  exact (proj1 (proj2 (proj2 (proj2 (listeners_reject_shadowed_forms_only unreachable shop_page))
                         (sample_form []) FetchRejected eq_refl eq_refl eq_refl))).
Defined.

(** ** The quantity a form sends *)

Lemma pretty_N_go_app (x : N) (s rest : string) :
  pretty_N_go x s +:+ rest = pretty_N_go x (s +:+ rest).
Proof.
  revert s. induction (N.lt_wf_0 x) as [x _ IH]; intros s.
  destruct (N.eq_0_gt_0_cases x) as [->|Hpos]; [by rewrite !pretty_N_go_0|].
  rewrite !(pretty_N_go_step x) by done.
  rewrite IH by (apply N.div_lt; lia). reflexivity.
Qed.

(** What follows the numeral: nothing, or a character that is neither a
    decimal digit nor the [x] of a hexadecimal prefix. *)
Lemma leading_digits_stop (rest : string) (acc : option Z) :
  (forall c r, rest = String c r -> digit_value 10 c = None) ->
  leading_digits 10 rest acc = acc.
Proof.
  intros Hrest. destruct rest as [|c r]; [done|].
  cbn [leading_digits]. by rewrite (Hrest c r eq_refl).
Qed.

Lemma parse_int_string_positive_then (x : positive) (rest : string) :
  (forall c r, rest = String c r -> digit_value 10 c = None) ->
  parse_int_string (pretty (N.pos x) +:+ rest) = to_number (Z.pos x) /\
  parse_int_string ("-" +:+ pretty (N.pos x) +:+ rest) = to_number (Z.neg x).
Proof.
  intros Hrest. unfold pretty, pretty_N. rewrite decide_False by done.
  rewrite pretty_N_go_app. change ("" +:+ rest) with rest.
  pose proof (leading_digits_pretty_N_go (N.pos x) rest eq_refl) as Hval.
  rewrite (leading_digits_stop rest) in Hval by done.
  destruct (pretty_N_go_head (N.pos x) rest eq_refl) as (d & r & Hd & Hhead).
  rewrite Hhead in *.
  assert (d = 1 ∨ d = 2 ∨ d = 3 ∨ d = 4 ∨ d = 5 ∨ d = 6 ∨ d = 7 ∨ d = 8 ∨ d = 9)%N
    as Hcases by lia.
  repeat (destruct Hcases as [->|Hcases];
    [split; unfold parse_int_string; cbn [trim_start is_white_space pretty_N_char];
     simpl in Hval |- *; rewrite Hval; reflexivity|]).
  subst d. split; unfold parse_int_string; simpl in Hval |- *; rewrite Hval; reflexivity.
Qed.

Lemma parseInt_numeral_then (n : Z) (rest : string) :
  (forall c r, rest = String c r ->
     digit_value 10 c = None /\ c <> "x"%char /\ c <> "X"%char) ->
  parseInt (VStr (pretty n +:+ rest)) = to_number n.
Proof.
  intros Hrest.
  assert (forall c r, rest = String c r -> digit_value 10 c = None) as Hdigit.
  { intros c r H. by destruct (Hrest c r H). }
  unfold parseInt. simpl. destruct n as [|x|x].
  - change (pretty 0 +:+ rest) with (String "0" rest).
    destruct rest as [|c r]; [reflexivity|].
    destruct (Hrest c r eq_refl) as (Hd & Hx & HX).
    unfold parse_int_string. cbn [trim_start is_white_space].
    assert (forall m, leading_digits 10 (String c r) m = m) as Hstop.
    { intros m. by apply leading_digits_stop. }
    destruct c as [[] [] [] [] [] [] [] []]; try done;
      simpl; simpl in Hstop; by rewrite ?Hstop.
  - by apply parse_int_string_positive_then.
  - by apply parse_int_string_positive_then.
Qed.
(** X10. The quantity a form sends is the numeral its quantity entry starts
    with: when the entry is the decimal numeral of an integer [n] followed
    by nothing, or by text that starts with neither a digit nor an [x], the
    add request carries the Number value of [n], which is [n] itself up to
    [2^53] in absolute value and the nearest double beyond. A fractional
    quantity is cut at the point. *)
Theorem quantity_is_the_leading_numeral (w : env) (f : form) (p : page) (n : Z)
    (rest : string) :
  includes (action f) "/cart/add" = true ->
  truthy (form_get (fields f) "id") = true ->
  form_get (fields f) "quantity" = VStr (pretty n +:+ rest) ->
  (forall c r, rest = String c r ->
     digit_value 10 c = None /\ c <> "x"%char /\ c <> "X"%char) ->
  let sent := Request "/cart/add.js" "POST"
      [("Content-Type", "application/json"); ("X-Requested-With", "XMLHttpRequest")]
      (Some (Payload (form_get (fields f) "id") (to_number n))) in
  (exists l, trace (snd (on_submit w f p)) =
      trace p ++ [PreventDefault; StopPropagation; Fetch sent] ++ l /\
    mutation_requests l = []) /\
  (- 2 ^ 53 <= n <= 2 ^ 53 -> to_number n = Num n).
Proof.
  intros Hact Hid Hq Hrest sent. split; [|apply to_number_exact].
  destruct (on_submit_sends w f p Hact Hid) as (l & Htr & Hl).
  assert (parseInt (form_quantity f) = to_number n) as Hparse.
  { unfold form_quantity, js_or. rewrite Hq.
    assert (truthy (VStr (pretty n +:+ rest)) = true) as ->.
    { simpl. pose proof (pretty_Z_nonempty n) as Hne.
      destruct (pretty n); [done|reflexivity]. }
    by apply parseInt_numeral_then. }
  exists l. split; [|done]. rewrite Htr. unfold add_request. by rewrite Hparse.
Qed.

Lemma quantity_is_the_leading_numeral_witness :
  (exists l, trace (snd (on_submit online (sample_form [("quantity", VStr "2.5")]) shop_page)) =
    trace shop_page ++
      [PreventDefault; StopPropagation;
       Fetch (Request "/cart/add.js" "POST"
                [("Content-Type", "application/json"); ("X-Requested-With", "XMLHttpRequest")]
                (Some (Payload (VStr "123") (to_number 2))))] ++ l /\
    mutation_requests l = []) /\
  (- 2 ^ 53 <= 2 <= 2 ^ 53 -> to_number 2 = Num 2).
Proof.
  apply (quantity_is_the_leading_numeral online (sample_form [("quantity", VStr "2.5")])
           shop_page 2 ".5"); try reflexivity.
  intros c r [= <- <-]. split; [reflexivity|]. split; discriminate.
Defined.

(** X11. A quantity entry that is not empty and does not start with a
    numeral is no reason to fall back on 1: when its first character is
    neither white space, nor a sign, nor a decimal digit, and also when the
    entry is a file, the add request carries the quantity [NaN]. *)
Theorem non_numeric_quantity_is_sent_as_NaN (w : env) (f : form) (p : page) :
  includes (action f) "/cart/add" = true ->
  truthy (form_get (fields f) "id") = true ->
  form_get (fields f) "quantity" = VFile \/
  (exists c r, form_get (fields f) "quantity" = VStr (String c r) /\
     is_white_space c = false /\ c <> "-"%char /\ c <> "+"%char /\
     digit_value 10 c = None) ->
  let sent := Request "/cart/add.js" "POST"
      [("Content-Type", "application/json"); ("X-Requested-With", "XMLHttpRequest")]
      (Some (Payload (form_get (fields f) "id") NaN)) in
  exists l, trace (snd (on_submit w f p)) =
      trace p ++ [PreventDefault; StopPropagation; Fetch sent] ++ l /\
    mutation_requests l = [].
Proof.
  intros Hact Hid Hq sent.
  destruct (on_submit_sends w f p Hact Hid) as (l & Htr & Hl).
  assert (parseInt (form_quantity f) = NaN) as Hparse.
  { unfold form_quantity, js_or.
    destruct Hq as [->|(c & r & -> & Hws & Hminus & Hplus & Hdigit)]; [reflexivity|].
    cbn [truthy String.eqb negb]. unfold parseInt, parse_int_string.
    cbn [ToString trim_start]. rewrite Hws.
    assert (leading_digits 10 (String c r) None = None) as Hnone.
    { cbn [leading_digits]. by rewrite Hdigit. }
    destruct c as [[] [] [] [] [] [] [] []]; try done; by rewrite Hnone. }
  exists l. split; [|done]. rewrite Htr. unfold add_request. by rewrite Hparse.
Qed.

Lemma non_numeric_quantity_is_sent_as_NaN_witness :
  exists l, trace (snd (on_submit online (sample_form [("quantity", VStr "two")]) shop_page)) =
    trace shop_page ++
      [PreventDefault; StopPropagation;
       Fetch (Request "/cart/add.js" "POST"
                [("Content-Type", "application/json"); ("X-Requested-With", "XMLHttpRequest")]
                (Some (Payload (VStr "123") NaN)))] ++ l /\
    mutation_requests l = [].
Proof.
  apply (non_numeric_quantity_is_sent_as_NaN online
           (sample_form [("quantity", VStr "two")]) shop_page); try reflexivity.
  right. exists "t"%char, "wo". repeat split; (reflexivity || discriminate).
Defined.

(** ** What a click sends *)

(** X12. A click on a quick-add control, or on anything inside one, is
    taken over for the nearest such control: when that control has a
    variant identifier and a button, the default action is cancelled and
    one add request is sent, for that identifier and the quantity 1,
    whether or not the control is marked busy; no other mutation request
    follows. *)
Theorem click_sends_one_mutation (w : env) (target quickAddElement : nat) (id : string)
    (p : page) :
  closest p target sel_quick_add = Some quickAddElement ->
  getAttribute p quickAddElement "data-id" = Some id ->
  id <> "" ->
  is_Some (select_in p quickAddElement sel_button) ->
  let sent := Request "/cart/add.js" "POST"
      [("Content-Type", "application/json"); ("X-Requested-With", "XMLHttpRequest")]
      (Some (Payload (VStr id) (Num 1))) in
  exists l, trace (snd (on_click w target p)) =
      trace p ++ [PreventDefault; StopPropagation; Fetch sent] ++ l /\
    mutation_requests l = [].
Proof.
  intros Hclosest Hattr Hid [b Hb] sent.
  unfold on_click. unfold_monad. simpl. rewrite Hclosest. simpl.
  set (p0 := emit StopPropagation (emit PreventDefault p)).
  rewrite handleQuickAdd_unfold. cbv zeta.
  change (select_in p0 quickAddElement sel_button)
    with (select_in p quickAddElement sel_button).
  change (getAttribute p0 quickAddElement "data-id")
    with (getAttribute p quickAddElement "data-id").
  rewrite Hb, Hattr.
  assert (truthy (attribute_value (Some id)) = true) as ->.
  { simpl. destruct id; [done|reflexivity]. }
  set (pm := set_disabled b true _).
  assert (trace pm = trace p ++ [PreventDefault; StopPropagation]) as Hpm.
  { unfold pm, set_disabled, p0. simpl. by rewrite <- app_assoc. }
  destruct (addToCart_events w (attribute_value (Some id)) (VNum 1) pm) as (l & Htr & Hl).
  rewrite Hpm in Htr.
  change (add_request (attribute_value (Some id)) (VNum 1)) with sent in Htr.
  destruct (addToCart w _ _ pm) as [[[]|e] p1]; simpl in Htr |- *.
  - exists l. rewrite Htr, <- app_assoc. done.
  - exists (l ++ [ConsoleError "Quick add error:" (Some e)]).
    unfold set_disabled. simpl. rewrite Htr, <- !app_assoc. split; [done|].
    by rewrite mutation_requests_nil_tail.
Qed.

Lemma click_sends_one_mutation_witness :
  closest shop_page 9 sel_quick_add = Some 8%nat /\
  exists l, trace (snd (on_click online 9 shop_page)) =
    trace shop_page ++
      [PreventDefault; StopPropagation;
       Fetch (Request "/cart/add.js" "POST"
                [("Content-Type", "application/json"); ("X-Requested-With", "XMLHttpRequest")]
                (Some (Payload (VStr "123") (Num 1))))] ++ l /\
    mutation_requests l = [].
Proof.
  split; [reflexivity|].
  apply (click_sends_one_mutation online 9 8 "123" shop_page); try reflexivity.
  - discriminate.
  - by exists 9%nat.
Defined.
(** ** What the listeners leave alone *)

Lemma busy_mark_frame (q b : nat) (v : string) (d : bool) (p : page) (x : nat) (e : element) :
  store p !! x = Some e ->
  exists e', store (set_disabled b d (setAttribute q "aria-busy" v p)) !! x = Some e' /\
    tag e' = tag e /\
    forall k, k <> "aria-busy" -> k <> "disabled" -> attrs e' !! k = attrs e !! k.
Proof.
  intros He.
  assert (exists e1, store (setAttribute q "aria-busy" v p) !! x = Some e1 /\
            tag e1 = tag e /\
            forall k, k <> "aria-busy" -> attrs e1 !! k = attrs e !! k) as (e1 & He1 & Ht1 & Ha1).
  { unfold setAttribute. destruct (decide (q = x)) as [->|Hne].
    - rewrite store_on_element_eq, He. eexists. split; [done|]. split; [done|].
      intros k Hk. simpl. by rewrite lookup_insert_ne.
    - rewrite store_on_element_ne by done. by exists e. }
  set (p1 := setAttribute q "aria-busy" v p) in *.
  unfold set_disabled. destruct d; unfold setAttribute, removeAttribute;
    (destruct (decide (b = x)) as [->|Hne];
     [rewrite store_on_element_eq, He1; eexists; split; [done|]; split; [done|];
      intros k Hk1 Hk2; simpl;
      rewrite ?lookup_insert_ne, ?lookup_delete_ne by done; by apply Ha1
     |rewrite store_on_element_ne by done; exists e1; split; [done|]; split; [done|];
      intros k Hk1 Hk2; by apply Ha1]).
Qed.

(** X13. What handling an event never does. Handling a [submit] event,
    whatever its target, sets no timer, removes no element from the store
    and changes no tag; on every element that is not a [cart-element] it
    leaves every attribute as it was, but for three: the count, the drawer's
    open-state marker, and [style], which the handler writes on the body and
    on the badge. Handling a click keeps the same, but for the busy mark and
    the [disabled] attribute. *)
Theorem listeners_change_little (w : env) (p : page) :
  (forall target : submit_target, preserves p (snd (submit_listener w target p))) /\
  (forall target x e, store p !! x = Some e ->
     exists e', store (snd (on_click w target p)) !! x = Some e' /\ tag e' = tag e /\
       (tag e <> "cart-element" ->
        forall k, k <> "data-cart-count" -> k <> "data-drawer-open" -> k <> "style" ->
          k <> "aria-busy" -> k <> "disabled" ->
          attrs e' !! k = attrs e !! k)).
Proof.
  split.
  - intros [f| |]; [|apply preserves_refl|apply preserves_refl].
    unfold submit_listener, on_submit.
    destruct (truthy (VStr (action f)) && includes (action f) "/cart/add");
      [|apply preserves_refl].
    unfold_monad. simpl. unfold handleFormSubmit.
    destruct (truthy (form_get (fields f) "id")); simpl;
      [|by apply preserves_same_store].
    unfold try_catch. set (p0 := emit StopPropagation (emit PreventDefault p)).
    pose proof (preserves_addToCart w (form_get (fields f) "id") (form_quantity f) p0) as H.
    assert (preserves p p0) as H0 by (by apply preserves_same_store).
    destruct (addToCart w _ _ p0) as [[[]|e] p1]; simpl in *.
    + by eapply preserves_trans.
    + eapply preserves_trans; [exact H0|]. eapply preserves_trans; [exact H|].
      by apply preserves_same_store.
  - intros target x e He. unfold on_click. unfold_monad. simpl.
    destruct (closest p target sel_quick_add) as [q|]; [|by exists e]. simpl.
    set (p0 := emit StopPropagation (emit PreventDefault p)).
    rewrite handleQuickAdd_unfold. cbv zeta.
    destruct (select_in p0 q sel_button) as [b|]; [|by exists e].
    destruct (truthy _); [|by exists e].
    set (pm := set_disabled b true _).
    destruct (busy_mark_frame q b "true" true p0 x e He) as (e1 & He1 & Ht1 & Ha1).
    fold pm in He1.
    pose proof (preserves_addToCart w (attribute_value (getAttribute p0 q "data-id"))
                  (VNum 1) pm) as [_ Hpres].
    destruct (addToCart w _ _ pm) as [[[]|err] p1]; cbn [fst snd] in *;
      destruct (Hpres x e1 He1) as (e2 & He2 & Ht2 & Ha2).
    + exists e2. split; [done|]. split; [congruence|].
      intros Hcart k Hk1 Hk2 Hk0 Hk3 Hk4.
      rewrite Ha2 by (done || congruence). by apply Ha1.
    + destruct (busy_mark_frame q b "false" false
                  (emit (ConsoleError "Quick add error:" (Some err)) p1) x e2 He2)
        as (e3 & He3 & Ht3 & Ha3).
      exists e3. split; [done|]. split; [congruence|].
      intros Hcart k Hk1 Hk2 Hk0 Hk3 Hk4.
      rewrite Ha3, Ha2 by (done || congruence). by apply Ha1.
Qed.

Lemma listeners_change_little_witness :
  exists e', store (snd (on_click online 9 shop_page)) !! 3%nat = Some e' /\
    tag e' = "a" /\ attrs e' !! "href" = Some "/cart".
Proof.
  destruct (proj2 (listeners_change_little online shop_page) 9%nat 3%nat
              (el "a" [("href", "/cart")]) eq_refl) as (e' & He' & Htag & Hattrs).
  exists e'. split; [exact He'|]. split; [exact Htag|].
  rewrite Hattrs; [reflexivity|discriminate..].
Defined.

(** ** Counts that are not positive *)

(** X14. An update with a count that is not positive, on a header cart that
    has its badge, only hides the badge: the tree is as before, so the badge
    and every other element keep their text, and the hidden badge still
    reads the last positive count. *)
Theorem nonpositive_count_keeps_the_text (count : option Z) (p : page) (h b : nat) :
  select p sel_header_cart = Some h ->
  select_in p h sel_badge = Some b ->
  count_positive count = false ->
  let p' := updateCartCount count p in
  p' = set_style b "display" "none" (counted count p) /\
  tree p' = tree p /\
  (forall x, textContent p' x = textContent p x) /\
  (is_Some (store p !! b) -> get_style p' b "display" = Some ("none", false)).
Proof.
  intros Hh Hb Hcount p'.
  assert (p' = set_style b "display" "none" (counted count p)) as Heq.
  { unfold p'. by rewrite updateCartCount_unfold, Hh, find_or_create_badge_unfold, Hb, Hcount. }
  assert (tree p' = tree p) as Ht.
  { rewrite Heq. simpl. apply tree_foldl_setAttribute. }
  split; [done|]. split; [done|]. split.
  - intros x. unfold textContent. by rewrite Ht.
  - intros Hs. rewrite Heq. apply get_style_set_style_eq.
    apply elem_of_dom. unfold counted. rewrite dom_foldl_setAttribute. by apply elem_of_dom.
Qed.

Lemma nonpositive_count_keeps_the_text_witness :
  let p := updateCartCount (Some 3) shop_page in
  textContent (updateCartCount (Some 0) p) 10 = Some "3" /\
  get_style (updateCartCount (Some 0) p) 10 "display" = Some ("none", false).
Proof.
  intros p.
  destruct (nonpositive_count_keeps_the_text (Some 0) p 2 10 eq_refl eq_refl eq_refl)
    as (_ & _ & Htext & Hstyle).
  split.
  - rewrite Htext. reflexivity.
  - apply Hstyle. by eexists.
Defined.

(** ** Selections that do not read what a step writes *)

Lemma matches_simple_same (k : string) (e e' : element) (s : simple) :
  tag e' = tag e -> (forall k', k' <> k -> attrs e' !! k' = attrs e !! k') ->
  simple_key s <> Some k ->
  matches_simple e' s = matches_simple e s.
Proof.
  intros Htag Hattrs Hs. destruct s as [t|c|n|n v]; simpl in *.
  - by rewrite Htag.
  - rewrite Hattrs; [done|congruence].
  - rewrite Hattrs; [done|congruence].
  - rewrite Hattrs; [done|congruence].
Qed.

Lemma matches_compound_same (k : string) (h h' : gmap nat element) (c : list simple) (i : nat) :
  same_but k h h' -> k ∉ omap simple_key c ->
  matches_compound h' c i = matches_compound h c i.
Proof.
  intros Hsame Hk. unfold matches_compound. specialize (Hsame i).
  destruct (h !! i) as [e|], (h' !! i) as [e'|]; try done.
  destruct Hsame as [Htag Hattrs].
  induction c as [|s c IH]; [done|]. simpl. f_equal.
  - apply (matches_simple_same k); [done|done|].
    intros Hs. apply Hk. simpl. rewrite Hs. by left.
  - apply IH. intros Hin. apply Hk. simpl. destruct (simple_key s); [by right|done].
Qed.

Lemma matches_same_but (k : string) (h h' : gmap nat element) (sel : selector)
    (e : nat * list nat) :
  same_but k h h' -> k ∉ selector_keys sel ->
  matches h' sel e = matches h sel e.
Proof.
  intros Hsame Hk. destruct sel as [c|outer inner]; simpl in *.
  - by apply (matches_compound_same k).
  - apply not_elem_of_app in Hk as [Ho Hi]. f_equal.
    + by apply (matches_compound_same k).
    + induction (snd e) as [|y l IH]; [done|]. simpl. f_equal; [|done].
      by apply (matches_compound_same k).
Qed.

Lemma select_all_same_but (k : string) (p p' : page) (sel : selector) :
  tree p' = tree p -> same_but k (store p) (store p') -> k ∉ selector_keys sel ->
  select_all p' sel = select_all p sel.
Proof.
  intros Ht Hsame Hk. unfold select_all. rewrite Ht. f_equal.
  apply filter_ext_in. intros e _. by rewrite (matches_same_but k (store p)).
Qed.

Lemma closest_same_but (k : string) (p p' : page) (x : nat) (sel : selector) :
  tree p' = tree p -> same_but k (store p) (store p') -> k ∉ selector_keys sel ->
  closest p' x sel = closest p x sel.
Proof.
  intros Ht Hsame Hk. unfold closest, ancestors. rewrite Ht.
  induction (x :: _) as [|y l IH]; [done|]. simpl.
  by rewrite (matches_same_but k (store p)), IH.
Qed.

Lemma same_but_on_element (k : string) (x : nat) (f : element -> element) (h : gmap nat element) :
  (forall e, tag (f e) = tag e /\ forall k', k' <> k -> attrs (f e) !! k' = attrs e !! k') ->
  same_but k h (alter f x h).
Proof.
  intros Hf i. destruct (decide (x = i)) as [->|Hne].
  - rewrite lookup_alter_eq. destruct (h !! i) as [e|]; simpl; [apply Hf|done].
  - rewrite lookup_alter_ne by done. by destruct (h !! i).
Qed.

Lemma same_but_trans (k : string) (h1 h2 h3 : gmap nat element) :
  same_but k h1 h2 -> same_but k h2 h3 -> same_but k h1 h3.
Proof.
  intros H12 H23 i. specialize (H12 i). specialize (H23 i).
  destruct (h1 !! i), (h2 !! i), (h3 !! i); try done.
  destruct H12 as [Ht1 Ha1], H23 as [Ht2 Ha2]. split; [congruence|].
  intros k' Hk'. by rewrite Ha2, Ha1.
Qed.

Ltac not_a_key :=
  let H := fresh in
  vm_compute; intros H;
  repeat (apply elem_of_cons in H as [H|H]; [discriminate H|]);
  by apply elem_of_nil in H.

(** Opening the drawer writes the open-state marker and a style: the
    drawer it finds is found again afterwards. *)
Lemma drawer_of_opened (p : page) (d : nat) :
  drawer_of (set_style (body_id p) "overflow" "hidden"
               (setAttribute d "data-drawer-open" "true" p)) = drawer_of p.
Proof.
  set (p' := set_style _ _ _ _).
  assert (same_but "data-drawer-open" (store p) (store p')) as Hsame.
  { unfold p', set_style, setAttribute, on_element. simpl.
    eapply same_but_trans; apply same_but_on_element; intros e; simpl; split; try done.
    intros k' Hk'. by rewrite lookup_insert_ne. }
  unfold drawer_of, select.
  rewrite (select_all_same_but "data-drawer-open" p p') by (done || not_a_key).
  destruct (head (select_all p sel_drawer_view)) as [v|]; [|done].
  apply (closest_same_but "data-drawer-open"); try done. not_a_key.
Qed.

(** X16. Opening a drawer that is open changes nothing: when the first
    strategy of [openCartDrawer] applies, a second call finds the same
    drawer and leaves the page exactly as the first call left it. The other
    strategies activate their element again on every call. *)
Theorem openCartDrawer_twice (p : page) :
  (forall drawer, drawer_of p = Some drawer ->
     drawer_of (openCartDrawer p) = Some drawer /\
     openCartDrawer (openCartDrawer p) = openCartDrawer p) /\
  (drawer_of p = None ->
   forall x, trace (openCartDrawer p) = trace p ++ [Click x] ->
     trace (openCartDrawer (openCartDrawer p)) = trace p ++ [Click x; Click x]).
Proof.
  split.
  - intros d Hd. rewrite (openCartDrawer_unfold p), Hd.
    set (p' := set_style _ _ _ _).
    assert (drawer_of p' = Some d) as Hd' by (unfold p'; by rewrite drawer_of_opened).
    split; [done|]. rewrite openCartDrawer_unfold, Hd'.
    unfold p', set_style, setAttribute, on_element. destruct p as [t h bd o tr tm]. simpl.
    unfold set_store. simpl. f_equal.
    apply map_eq. intros i.
    destruct (decide (bd = i)) as [->|Hb], (decide (d = i)) as [->|Hd2];
      repeat (rewrite lookup_alter_eq || rewrite lookup_alter_ne by done);
      try done; destruct (h !! i) as [e|]; simpl; try done;
      by rewrite ?insert_insert_eq.
  - intros Hd x Hx. rewrite (openCartDrawer_unfold p), Hd in Hx |- *.
    destruct (select p sel_drawer_trigger) as [t|] eqn:Ht.
    + simpl in Hx. apply app_inj_tail in Hx as [_ [= <-]].
      rewrite openCartDrawer_unfold.
      change (drawer_of (emit (Click t) p)) with (drawer_of p).
      change (select (emit (Click t) p) sel_drawer_trigger) with (select p sel_drawer_trigger).
      rewrite Hd, Ht. simpl. by rewrite <- app_assoc.
    + destruct (select p sel_header_cart_link) as [l|] eqn:Hl.
      * simpl in Hx. apply app_inj_tail in Hx as [_ [= <-]].
        rewrite openCartDrawer_unfold.
        change (drawer_of (emit (Click l) p)) with (drawer_of p).
        change (select (emit (Click l) p) sel_drawer_trigger)
          with (select p sel_drawer_trigger).
        change (select (emit (Click l) p) sel_header_cart_link)
          with (select p sel_header_cart_link).
        rewrite Hd, Ht, Hl. simpl. by rewrite <- app_assoc.
      * exfalso. rewrite <- (app_nil_r (trace p)) in Hx at 1.
        by apply app_inv_head in Hx.
Qed.

Lemma openCartDrawer_twice_witness :
  openCartDrawer (openCartDrawer shop_page) = openCartDrawer shop_page /\
  trace (openCartDrawer (openCartDrawer link_only_page)) = [Click 3; Click 3].
Proof.
  split.
  - exact (proj2 (proj1 (openCartDrawer_twice shop_page) 5%nat eq_refl)).
  - exact (proj2 (openCartDrawer_twice link_only_page) eq_refl 3%nat eq_refl).
Defined.
(** ** Updating the count twice *)

Lemma setAttribute_same (x : nat) (k v : string) (p : page) :
  getAttribute p x k = Some v -> setAttribute x k v p = p.
Proof.
  intros Hget. destruct p as [t h bd o tr tm].
  unfold setAttribute, on_element, set_store, getAttribute in *. simpl in *. f_equal.
  apply map_eq. intros i. destruct (decide (x = i)) as [->|Hne].
  - rewrite lookup_alter_eq. destruct (h !! i) as [[tg a st]|]; simpl in *; [|done].
    by rewrite insert_id.
  - by rewrite lookup_alter_ne.
Qed.

(** Counting again where every display reads the count changes nothing. *)
Lemma counted_fixed (count : count_value) (p : page) :
  (forall x, x ∈ select_all p sel_cart_count ->
     getAttribute p x "data-cart-count" = Some (count_string count)) ->
  counted count p = p.
Proof.
  unfold counted. generalize (select_all p sel_cart_count) as l.
  induction l as [|x l IH]; intros Hl; [done|].
  simpl. rewrite setAttribute_same by (apply Hl; by left).
  apply IH. intros y Hy. apply Hl. by right.
Qed.

Lemma with_children_twice (x : nat) (kids' : list dtree) (t : dtree) :
  with_children x (fun _ => kids') (with_children x (fun _ => kids') t) =
  with_children x (fun _ => kids') t.
Proof.
  induction t as [s|i kids IH] using dtree_forall_ind; [done|].
  simpl. destruct (decide (i = x)) as [->|Hne]; simpl.
  - by rewrite decide_True.
  - rewrite decide_False by done. f_equal. rewrite map_map.
    induction IH as [|k r Hk _ IHr]; [done|]. simpl. by rewrite Hk, IHr.
Qed.

Lemma set_style_twice (x : nat) (prop v : string) (p : page) :
  set_style x prop v (set_style x prop v p) = set_style x prop v p.
Proof.
  destruct p as [t h bd o tr tm]. unfold set_style, on_element, set_store. simpl. f_equal.
  apply map_eq. intros i. destruct (decide (x = i)) as [->|Hne].
  - rewrite !lookup_alter_eq. destruct (h !! i) as [e|]; simpl; [|done].
    by rewrite insert_insert_eq.
  - by rewrite !lookup_alter_ne.
Qed.

Lemma shown_twice (b : nat) (s : string) (p : page) :
  set_style b "display" "flex"
    (set_textContent b s (set_style b "display" "flex" (set_textContent b s p))) =
  set_style b "display" "flex" (set_textContent b s p).
Proof.
  rewrite <- (set_style_twice b "display" "flex" (set_textContent b s p)) at 2.
  destruct p as [t h bd o tr tm].
  unfold set_style, set_textContent, on_element, set_store, set_tree. simpl.
  by rewrite with_children_twice.
Qed.

(** The page [updateCartCount] ends with, when there is a header cart: its
    badge [b], found again by the next update, shown with its text or
    hidden. *)
Lemma updateCartCount_shape (count : count_value) (p : page) (h : nat) :
  well_formed p -> select p sel_header_cart = Some h ->
  exists b q,
    updateCartCount count p =
      (if count_positive count
       then set_style b "display" "flex" (set_textContent b (count_string count) q)
       else set_style b "display" "none" q) /\
    select_in (updateCartCount count p) h sel_badge = Some b.
Proof.
  intros Hwf Hh.
  destruct (updateCartCount_with_header count p h Hwf Hh) as (b & Hlemma).
  cbv zeta in Hlemma. destruct Hlemma as (Hh' & Hhead & _ & _ & _ & Hcases).
  assert (select_in (updateCartCount count p) h sel_badge = Some b) as Hsel'.
  { unfold select_in. by rewrite <- (select_in_badges _ _ Hh'). }
  pose proof (select_in_badges p h Hh) as Hbp.
  revert Hsel' Hcases. rewrite updateCartCount_unfold, Hh, find_or_create_badge_unfold.
  destruct (select_in p h sel_badge) as [b0|] eqn:Hsel; intros Hsel' Hcases.
  - assert (b = b0) as ->.
    { unfold select_in in Hsel. rewrite <- Hbp in Hsel.
      destruct Hcases as [(Hb & _)|(Hnil & _)]; [congruence|by rewrite Hnil in Hsel]. }
    exists b0, (counted count p). split; [|done]. by destruct (count_positive count).
  - set (bf := fresh (dom (store p))) in *. cbv zeta in Hsel', Hcases |- *.
    set (p2 := appendChild h bf _) in *.
    assert (b = bf) as ->.
    { destruct Hcases as [(Hb & _)|(_ & _ & _ & _ & Hother & _)].
      { unfold select_in in Hsel. rewrite <- Hbp in Hsel. congruence. }
      destruct (decide (bf = b)) as [|Hne]; [done|]. exfalso.
      specialize (Hother bf "class" Hne).
      assert (getAttribute (counted count p) bf "class" = None) as Hnone.
      { unfold getAttribute.
        assert (store (counted count p) !! bf = None) as ->; [|done].
        apply not_elem_of_dom. unfold counted. rewrite dom_foldl_setAttribute.
        apply is_fresh. }
      rewrite Hnone in Hother.
      assert (getAttribute p2 bf "class" = Some "cart-count-badge") as H2.
      { unfold getAttribute, p2, appendChild, set_cssText, setAttribute. simpl.
        rewrite !lookup_alter_eq, lookup_insert_eq. simpl. by rewrite lookup_insert_eq. }
      destruct (count_positive count);
        rewrite getAttribute_set_style in Hother;
        try change (getAttribute (set_textContent bf (count_string count) p2) bf "class")
          with (getAttribute p2 bf "class") in Hother;
        congruence. }
    exists bf, p2. split; [|done]. by destruct (count_positive count).
Qed.

(** X17. [updateCartCount] is idempotent on a well-formed page: a second
    update with the same count finds every display and the badge as the
    first one left them, creates nothing, and leaves the page exactly as it
    was. *)
Theorem updateCartCount_idempotent (count : option Z) (p : page) :
  well_formed p ->
  updateCartCount count (updateCartCount count p) = updateCartCount count p.
Proof.
  intros Hwf. set (p' := updateCartCount count p).
  assert (counted count p' = p') as Hfixed.
  { apply counted_fixed. intros x Hx. apply count_displays_updated; [done|by right]. }
  destruct (select p sel_header_cart) as [h|] eqn:Hh.
  - destruct (updateCartCount_with_header count p h Hwf Hh) as (b0 & Hlemma).
    cbv zeta in Hlemma. fold p' in Hlemma. destruct Hlemma as (Hh' & _).
    destruct (updateCartCount_shape count p h Hwf Hh) as (b & q & Hshape & Hsel).
    fold p' in Hshape, Hsel.
    rewrite updateCartCount_unfold, Hh', find_or_create_badge_unfold, Hsel, Hfixed.
    rewrite Hshape. destruct (count_positive count).
    + apply shown_twice.
    + apply set_style_twice.
  - destruct (updateCartCount_without_header count p Hh) as (Heq & _ & _).
    fold p' in Heq.
    assert (select p' sel_header_cart = None) as Hh'.
    { rewrite Heq, <- Hh. unfold select. f_equal. apply select_all_class_ext.
      - apply tree_foldl_setAttribute.
      - intros i _. by apply class_of_foldl_setAttribute. }
    by rewrite updateCartCount_unfold, Hh', Hfixed.
Qed.

Lemma updateCartCount_idempotent_witness :
  updateCartCount (Some 3) (updateCartCount (Some 3) shop_page)
  = updateCartCount (Some 3) shop_page.
Proof. exact (updateCartCount_idempotent (Some 3) shop_page shop_page_well_formed). Defined.
(** ** The count and the drawer at the end of a run *)

(** The merge rewrites the children of the live cart element and its
    record, and nothing else that was there. *)
Lemma merged_shape (w : env) (f : fragment) (c : nat) (e0 : element) (p : page) :
  store p !! c = Some e0 ->
  exists kids',
    tree (merged w f c p) = with_children c (fun _ => kids') (tree p) /\
    forall x e, x <> c -> store p !! x = Some e ->
      store (merged w f c p) !! x = Some e.
Proof.
  intros He0. unfold merged, set_innerHTML.
  destruct (instantiate_forest (store p) (parse_inner w (frag_innerHTML f)))
    as [kids' h2] eqn:Hinst.
  destruct (instantiate_forest_instantiated _ _ _ _ Hinst) as (Hsub & _).
  set (q0 := set_store h2 (set_tree (with_children c (fun _ => kids') (tree p)) p)).
  assert (store q0 !! c = Some e0) as Hc0 by (by eapply lookup_weaken).
  destruct (put_attributes_effect w c (copied w (frag_attrs f)) e0 q0 Hc0)
    as (Ht & Hother & _).
  exists kids'. split; [done|].
  intros x e Hx He. rewrite Hother by done. by eapply lookup_weaken.
Qed.

Lemma refresh_drawer_other (w : env) (html : option string) (p : page) (x : nat) (e : element) :
  store p !! x = Some e -> tag e <> "cart-element" ->
  store (snd (refresh_drawer w html p)) !! x = Some e.
Proof.
  intros He Htag.
  destruct (refresh_drawer_cases w html p) as [->|(f & c & Hsel & ->)]; [done|].
  pose proof (head_elem _ _ Hsel) as Hcin.
  apply select_all_elem in Hcin as (a0 & _ & Hm).
  apply matches_IsTag in Hm as (e0 & He0 & Htag0). simpl in He0.
  destruct (merged_shape w f c e0 p He0) as (kids' & _ & Hother).
  apply Hother; [|done]. intros ->. congruence.
Qed.

Lemma getAttribute_openCartDrawer (p : page) (x : nat) (k : string) :
  k <> "data-drawer-open" ->
  getAttribute (openCartDrawer p) x k = getAttribute p x k.
Proof.
  intros Hk. rewrite openCartDrawer_unfold. destruct (drawer_of p) as [d|].
  - rewrite getAttribute_set_style. by apply getAttribute_setAttribute_ne.
  - destruct (select p sel_drawer_trigger); [done|].
    by destruct (select p sel_header_cart_link).
Qed.

Lemma getAttribute_refreshAndOpenCartDrawer (w : env) (p : page) (x : nat) (e : element)
    (k : string) :
  store p !! x = Some e -> tag e <> "cart-element" -> k <> "data-drawer-open" ->
  getAttribute (snd (refreshAndOpenCartDrawer w p)) x k = getAttribute p x k.
Proof.
  intros He Htag Hk. rewrite refreshAndOpenCartDrawer_unfold. cbv zeta.
  set (r := Request _ _ _ _).
  destruct (server w (trace p) r) as [|ok [[|c d]|]]; cbn [snd]; try done.
  assert (getAttribute (snd (refresh_drawer w d (emit (Fetch r) p))) x k
          = getAttribute p x k) as Hsame.
  { unfold getAttribute.
    rewrite (refresh_drawer_other w d (emit (Fetch r) p) x e) by done.
    by rewrite He. }
  destruct (fst (refresh_drawer w d (emit (Fetch r) p))) as [[]|err]; [|done].
  by rewrite getAttribute_openCartDrawer.
Qed.

(** What the count update of [addToCart] writes stays on the displays to the
    end of the run. *)
Lemma addToCart_count_stays (w : env) (variantId quantity : value) (p : page)
    (j : json) (ok : bool) (count : count_value) (html : option string) :
  well_formed p ->
  server w (trace p) (add_request variantId quantity) = Response true (Some j) ->
  server w (trace p ++ [Fetch (add_request variantId quantity)]) cart_request
    = Response ok (Some (JObject count html)) ->
  let p2 := emit (Fetch cart_request) (emit (Fetch (add_request variantId quantity)) p) in
  addToCart w variantId quantity p =
    (Ok tt, snd (refreshAndOpenCartDrawer w (updateCartCount count p2))) /\
  forall x e, x ∈ select_all p sel_cart_count -> store p !! x = Some e ->
    tag e <> "cart-element" ->
    getAttribute (snd (addToCart w variantId quantity p)) x "data-cart-count"
      = Some (count_string count).
Proof.
  intros Hwf Hadd Hcart p2. rewrite addToCart_unfold. cbv zeta.
  rewrite Hadd.
  change (trace (emit (Fetch (add_request variantId quantity)) p))
    with (trace p ++ [Fetch (add_request variantId quantity)]).
  rewrite Hcart. split; [done|]. cbn [snd].
  intros x e Hx He Htag. fold p2.
  assert (well_formed p2) as Hwf2 by done.
  destruct (preserves_updateCartCount count p2) as [_ Hpres].
  destruct (Hpres x e He) as (e' & He' & Htag' & _).
  rewrite (getAttribute_refreshAndOpenCartDrawer w _ x e') by (done || congruence).
  apply count_displays_updated; [done|]. by left.
Qed.



(** X15. A cart that answers without a number as its [item_count] is taken
    as it comes: [addToCart] does not throw, the count update is given
    [undefined] when the property is missing and [null] when it is [null],
    and writes that word on every count display; at the end of the run the
    displays that are not a [cart-element] read [undefined], or [null]. The
    update hides the header badge, when there is a header cart, as it does
    for the count 0. *)
Theorem missing_count_reads_undefined (w : env) (variantId quantity : value) (p : page)
    (j : json) (ok : bool) (count : count_value) (html : option string) :
  well_formed p ->
  server w (trace p) (add_request variantId quantity) = Response true (Some j) ->
  server w (trace p ++ [Fetch (add_request variantId quantity)]) cart_request
    = Response ok (Some (JObject count html)) ->
  count = Undefined \/ count = Null ->
  let word := match count with Null => "null" | _ => "undefined" end in
  let p2 := emit (Fetch cart_request) (emit (Fetch (add_request variantId quantity)) p) in
  let p3 := updateCartCount count p2 in
  addToCart w variantId quantity p = (Ok tt, snd (refreshAndOpenCartDrawer w p3)) /\
  (forall x, x ∈ select_all p sel_cart_count \/ x ∈ select_all p3 sel_cart_count ->
     getAttribute p3 x "data-cart-count" = Some word) /\
  (is_Some (select p sel_header_cart) -> badge_hidden p3) /\
  (forall x e, x ∈ select_all p sel_cart_count -> store p !! x = Some e ->
     tag e <> "cart-element" ->
     getAttribute (snd (addToCart w variantId quantity p)) x "data-cart-count" = Some word).
Proof.
  intros Hwf Hadd Hcart Hcount word p2 p3.
  destruct (addToCart_count_stays w variantId quantity p j ok count html Hwf Hadd Hcart)
    as [Hrun Hstays].
  assert (count_string count = word /\ count_positive count = false) as [Hword Hpos].
  { unfold word. by destruct Hcount as [-> | ->]. }
  assert (well_formed p2) as Hwf2 by done.
  split; [exact Hrun|]. split; [|split].
  - intros x Hx. rewrite <- Hword. by apply (count_displays_updated count p2).
  - intros [h Hh].
    destruct (updateCartCount_with_header count p2 h Hwf2 Hh) as (b & Hlemma).
    cbv zeta in Hlemma. fold p3 in Hlemma.
    destruct Hlemma as (_ & Hhead & Hstyle & _). rewrite Hpos in Hstyle.
    by exists b.
  - intros x e Hx He Htag. rewrite <- Hword. by apply (Hstays x e).
Qed.

Lemma missing_count_reads_undefined_witness :
  getAttribute (snd (addToCart online_countless (VStr "123") (VNum 1) shop_page)) 4
    "data-cart-count" = Some "undefined" /\
  getAttribute (snd (addToCart online_null_count (VStr "123") (VNum 1) shop_page)) 4
    "data-cart-count" = Some "null".
Proof.
  split.
  - apply (proj2 (proj2 (proj2
      (missing_count_reads_undefined online_countless (VStr "123") (VNum 1) shop_page
         (JObject None None) true Undefined None
         shop_page_well_formed eq_refl eq_refl (or_introl eq_refl))))
      4%nat (el "span" [("data-cart-count", "0")])).
    + vm_compute. by left.
    + reflexivity.
    + discriminate.
  - apply (proj2 (proj2 (proj2
      (missing_count_reads_undefined online_null_count (VStr "123") (VNum 1) shop_page
         (JObject None None) true Null None
         shop_page_well_formed eq_refl eq_refl (or_intror eq_refl))))
      4%nat (el "span" [("data-cart-count", "0")])).
    + vm_compute. by left.
    + reflexivity.
    + discriminate.
Defined.
(** ** The drawer that is opened after the merge *)

(** In a walk without repetition, an element stands at one place. *)
Lemma NoDup_fst_split {A B : Type} (l1 l1' l2 l2' : list (A * B)) (x : A) (b b' : B) :
  NoDup (map fst (l1 ++ (x, b) :: l2)) ->
  l1 ++ (x, b) :: l2 = l1' ++ (x, b') :: l2' ->
  l1 = l1' /\ b = b' /\ l2 = l2'.
Proof.
  revert l1'. induction l1 as [|y l1 IH]; intros l1' Hnd Heq.
  - destruct l1' as [|y' l1']; simpl in *.
    + by injection Heq as -> ->.
    + exfalso. injection Heq as <- ->. apply NoDup_cons in Hnd as [Hx _]. apply Hx.
      rewrite map_app, map_cons. apply elem_of_app. right. by left.
  - destruct l1' as [|y' l1']; simpl in *.
    + exfalso. injection Heq as -> <-. apply NoDup_cons in Hnd as [Hx _]. apply Hx.
      rewrite map_app, map_cons. apply elem_of_app. right. by left.
    + injection Heq as -> Heq. apply NoDup_cons in Hnd as [_ Hnd].
      destruct (IH l1' Hnd Heq) as (-> & -> & ->). done.
Qed.

(** The ancestors of an element are met before it. *)
Lemma walk_ancestors_before (t : dtree) (l1 l2 : list (nat * list nat)) (x : nat)
    (a : list nat) :
  NoDup (ids t) -> walk [] t = l1 ++ (x, a) :: l2 ->
  forall y, y ∈ a -> y ∈ map fst l1.
Proof.
  intros Hnd HW.
  assert (x ∈ ids t) as Hx.
  { rewrite <- (walk_ids t []), HW, map_app, map_cons. apply elem_of_app. right. by left. }
  destruct (walk_split x t [] Hx Hnd) as (pre & a' & kids & post & path & HW' & _ & _ & Ha & Hpath).
  rewrite app_nil_r in Ha. subst a'.
  rewrite HW in HW'.
  destruct (NoDup_fst_split l1 pre l2 (walk_forest (x :: path) kids ++ post) x a path)
    as (-> & -> & _); [|done|done].
  by rewrite <- HW, walk_ids.
Qed.

Lemma find_fst_split (l1 l2 : list (nat * list nat)) (x : nat) (a : list nat) :
  x ∉ map fst l1 ->
  find (fun e => bool_decide (fst e = x)) (l1 ++ (x, a) :: l2) = Some (x, a).
Proof.
  induction l1 as [|[y b] l1 IH]; simpl; intros Hx.
  - by rewrite bool_decide_eq_true_2.
  - apply not_elem_of_cons in Hx as [Hne Hx]. rewrite bool_decide_eq_false_2 by done.
    by apply IH.
Qed.

Lemma closest_in_ext (h h' : gmap nat element) (sel : selector) (chain : list nat) :
  (forall y, y ∈ chain -> h' !! y = h !! y) ->
  closest_in h' sel chain = closest_in h sel chain.
Proof.
  induction chain as [|i up IH]; intros Hsame; [done|]. simpl.
  assert (forall y, y ∈ up -> h' !! y = h !! y) as Hup by (intros y Hy; apply Hsame; by right).
  assert (matches h' sel (i, up) = matches h sel (i, up)) as ->.
  { destruct sel as [c|outer inner]; simpl; unfold matches_compound.
    - by rewrite Hsame by (by left).
    - rewrite Hsame by (by left). f_equal.
      clear IH Hsame. induction up as [|y up IH]; [done|]. simpl.
      rewrite Hup by (by left). f_equal. apply IH. intros z Hz. apply Hup. by right. }
  by rewrite IH.
Qed.

(** The first element a compound selects, when one of the elements before
    [rest] is selected: what comes after does not matter. *)
Lemma head_filter_prefix {P Q : nat * list nat -> Prop} `{forall e, Decision (P e)}
    `{forall e, Decision (Q e)} (pre rest rest' : list (nat * list nat)) :
  (forall e, e ∈ pre -> (P e <-> Q e)) ->
  filter P pre <> [] ->
  head (map fst (filter Q (pre ++ rest'))) = head (map fst (filter P (pre ++ rest))).
Proof.
  intros Hext Hne. rewrite !filter_app, !map_app.
  rewrite <- (filter_ext_in P Q pre Hext).
  by destruct (filter P pre).
Qed.

(** The merge changes neither the drawer view that is found first nor the
    drawer around it. *)
Lemma drawer_of_merge (w : env) (f : fragment) (c : nat) (p : page) :
  well_formed p -> well_formed (merged w f c p) ->
  select p sel_live_cart_element = Some c ->
  drawer_of (merged w f c p) = drawer_of p.
Proof.
  intros [Hnd Hdom] [Hnd' _] Hsel.
  pose proof (head_elem _ _ Hsel) as Hcin.
  apply select_all_elem in Hcin as (a0 & Hin0 & Hm).
  pose proof (walk_elem_ids _ _ Hin0) as Hcids. simpl in Hcids.
  pose proof (matches_in_store _ _ _ Hm) as [e0 He0]. simpl in He0.
  destruct (merged_shape w f c e0 p He0) as (kids' & Ht & Hother).
  set (q := merged w f c p) in *.
  destruct (walk_split c (tree p) [] Hcids Hnd)
    as (pre & a & kids & post & path & HW & _ & Hrw & Ha & Hpath).
  rewrite app_nil_r in Ha. subst path.
  specialize (Hrw (fun _ => kids')). cbv beta in Hrw. rewrite <- Ht in Hrw.
  assert (NoDup (map fst (walk [] (tree p)))) as HndW by (by rewrite walk_ids).
  assert (NoDup (map fst (walk [] (tree q)))) as HndW' by (by rewrite walk_ids).
  assert (a0 = a) as ->.
  { eapply (NoDup_fst_functional (walk [] (tree p))); [done|done|].
    rewrite HW. apply elem_of_app. right. by left. }
  assert (c ∉ map fst pre) as Hcpre.
  { rewrite HW, map_app, map_cons in HndW. apply NoDup_app in HndW as (_ & Hdisj & _).
    intros Hin. apply (Hdisj c Hin). by left. }
  assert (forall y, y ∈ map fst pre -> store q !! y = store p !! y) as Hsame.
  { intros y Hy.
    assert (is_Some (store p !! y)) as [e He].
    { apply elem_of_dom, Hdom. rewrite <- (walk_ids _ []), HW, map_app.
      apply elem_of_app. by left. }
    rewrite He. apply Hother; [|done]. intros ->. done. }
  (* a drawer view stands before the cart element *)
  simpl in Hm. apply andb_prop in Hm as [_ Hview].
  apply existsb_exists in Hview as (v1 & Hv1a%list_elem_of_In & Hv1).
  apply Hpath in Hv1a. apply list_elem_of_fmap in Hv1a as ([v1' a1] & Hv1eq & Hv1in).
  simpl in Hv1eq. subst v1'.
  assert (filter (fun e => matches (store p) sel_drawer_view e) pre <> []) as Hne.
  { intros Hnil. assert ((v1, a1) ∈ filter (fun e => matches (store p) sel_drawer_view e) pre)
      as Hin; [|by rewrite Hnil in Hin; apply elem_of_nil in Hin].
    apply list_elem_of_filter. split; [|done]. simpl. by apply Is_true_eq_left. }
  assert (select q sel_drawer_view = select p sel_drawer_view) as Hselect.
  { unfold select, select_all. rewrite Hrw, HW.
    apply head_filter_prefix; [|done].
    intros e He. simpl. unfold matches_compound.
    rewrite Hsame; [done|]. by apply (list_elem_of_fmap_2 fst). }
  unfold drawer_of. rewrite Hselect.
  destruct (select p sel_drawer_view) as [v0|] eqn:Hv0; [|done].
  (* the view found stands before the cart element too *)
  assert (exists a0', (v0, a0') ∈ pre) as (av & Hv0in).
  { unfold select, select_all in Hv0. rewrite HW, filter_app, map_app in Hv0.
    destruct (filter (fun e => matches (store p) sel_drawer_view e) pre) as [|[v a'] l] eqn:Hf;
      [done|].
    simpl in Hv0. injection Hv0 as ->. exists a'.
    assert ((v0, a') ∈ filter (fun e => matches (store p) sel_drawer_view e) pre) as Hin
      by (rewrite Hf; by left).
    by apply list_elem_of_filter in Hin as [_ Hin]. }
  apply list_elem_of_split in Hv0in as (s1 & s2 & Hpre).
  assert (v0 ∉ map fst s1) as Hv0s1.
  { rewrite HW, Hpre in HndW. rewrite <- !app_assoc, map_app in HndW.
    apply NoDup_app in HndW as (_ & Hdisj & _). intros Hin. apply (Hdisj v0 Hin).
    simpl. by left. }
  assert (forall y, y ∈ av -> y ∈ map fst pre) as Hanc.
  { intros y Hy. rewrite Hpre, map_app. apply elem_of_app. left.
    apply (walk_ancestors_before (tree p) s1 (s2 ++ (c, a) :: walk_forest (c :: a) kids ++ post)
             v0 av Hnd); [|done].
    rewrite HW, Hpre. by rewrite <- !app_assoc. }
  assert (ancestors p v0 = av) as Hancp.
  { unfold ancestors. rewrite HW, Hpre, <- !app_assoc. simpl.
    by rewrite find_fst_split. }
  assert (ancestors q v0 = av) as Hancq.
  { unfold ancestors. rewrite Hrw, Hpre, <- !app_assoc. simpl.
    by rewrite find_fst_split. }
  unfold closest. rewrite Hancp, Hancq.
  apply closest_in_ext. intros y [->|Hy]%elem_of_cons.
  - apply Hsame. rewrite Hpre, map_app, map_cons. apply elem_of_app. right. by left.
  - by apply Hsame, Hanc.
Qed.

Lemma drawer_of_refresh_drawer (w : env) (html : option string) (p : page) :
  well_formed p -> drawer_of (snd (refresh_drawer w html p)) = drawer_of p.
Proof.
  intros Hwf. pose proof (well_formed_refresh_drawer w html p Hwf) as Hwf'.
  revert Hwf'.
  destruct (refresh_drawer_cases w html p) as [->|(f & c & Hsel & ->)]; [done|].
  intros Hwf'. by apply drawer_of_merge.
Qed.

(** X19. When the drawer section is fetched, [refreshAndOpenCartDrawer]
    opens the drawer the page had before, unless the merge throws. On a
    well-formed page the merge, whatever markup and attributes the fragment
    brings and however far the copy of the attributes gets, changes neither
    the drawer view found first nor the drawer around it. When the merge
    returns, as it does when every attribute name of the fragment passes the
    test of [setAttribute], that drawer carries the open-state marker at the
    end, and the request is the only event. When the merge throws, the run
    ends with the log of the error, on the page the merge left. *)
Theorem refresh_opens_the_drawer (w : env) (p : page) (drawer : nat) (ok : bool)
    (count : count_value) (html : option string) :
  well_formed p ->
  drawer_of p = Some drawer ->
  server w (trace p) (section_request p) = Response ok (Some (JObject count html)) ->
  let run := refresh_drawer w html (emit (Fetch (section_request p)) p) in
  let p' := snd (refreshAndOpenCartDrawer w p) in
  drawer_of (snd run) = Some drawer /\
  (names_accepted w html -> fst run = Ok tt) /\
  (fst run = Ok tt ->
     getAttribute p' drawer "data-drawer-open" = Some "true" /\
     trace p' = trace p ++ [Fetch (section_request p)]) /\
  (forall e, fst run = Thrown e ->
     p' = emit (ConsoleError "Error refreshing cart:" (Some InvalidCharacterError))
            (snd run) /\
     trace p' = trace p ++ [Fetch (section_request p);
                            ConsoleError "Error refreshing cart:"
                              (Some InvalidCharacterError)]).
Proof.
  intros Hwf Hd Hserver run p'.
  assert (drawer_of (snd run) = Some drawer) as Hd1.
  { unfold run. rewrite drawer_of_refresh_drawer by done. exact Hd. }
  assert (trace (snd run) = trace p ++ [Fetch (section_request p)]) as Htr.
  { unfold run. by rewrite trace_refresh_drawer. }
  pose proof (refreshAndOpenCartDrawer_unfold w p) as Hrun. cbv zeta in Hrun.
  fold (section_request p) in Hrun. rewrite Hserver in Hrun. fold run in Hrun.
  split; [done|]. split; [apply refresh_drawer_returns|]. split.
  - intros Hok. unfold p'. rewrite Hrun, Hok. cbn [snd].
    rewrite openCartDrawer_unfold, Hd1. split.
    + rewrite getAttribute_set_style. apply getAttribute_setAttribute_eq.
      by apply drawer_of_in_store.
    + exact Htr.
  - intros e He. pose proof (refresh_drawer_thrown _ _ _ _ He) as ->.
    unfold p'. rewrite Hrun, He. cbn [snd]. split; [done|].
    simpl. rewrite Htr. by rewrite <- app_assoc.
Qed.

Lemma refresh_opens_the_drawer_witness :
  getAttribute (snd (refreshAndOpenCartDrawer online shop_page)) 5 "data-drawer-open"
  = Some "true".
Proof.
  exact (proj1 (proj1 (proj2 (proj2 (refresh_opens_the_drawer online shop_page 5 true None
                         (Some drawer_section) shop_page_well_formed
                         eq_refl eq_refl))) eq_refl)).
Defined.
(** ** Which clicks are intercepted *)

Lemma matches_quick_add (h : gmap nat element) (i : nat) :
  matches_compound h [IsTag "product-quick-add"; AttrIs "data-form" "false"] i = true <->
  exists e, h !! i = Some e /\ tag e = "product-quick-add" /\
            attrs e !! "data-form" = Some "false".
Proof.
  unfold matches_compound. destruct (h !! i) as [e|]; simpl.
  - rewrite andb_true_r, andb_true_iff, String.eqb_eq, bool_decide_eq_true.
    split; [intros [? ?]; by exists e|by intros (? & [= <-] & ? & ?)].
  - split; [done|by intros (? & ? & _)].
Qed.

Lemma closest_in_compound (h : gmap nat element) (c : list simple) (chain : list nat) :
  match closest_in h (Compound c) chain with
  | Some q =>
      exists l1 l2, chain = l1 ++ q :: l2 /\ matches_compound h c q = true /\
        forall y, y ∈ l1 -> matches_compound h c y = false
  | None => forall y, y ∈ chain -> matches_compound h c y = false
  end.
Proof.
  induction chain as [|i up IH]; simpl.
  - intros y Hy. by apply elem_of_nil in Hy.
  - destruct (matches_compound h c i) eqn:Hm.
    + exists [], up. split; [done|]. split; [done|]. intros y Hy. by apply elem_of_nil in Hy.
    + destruct (closest_in h (Compound c) up) as [q|].
      * destruct IH as (l1 & l2 & -> & Hq & Hl1). exists (i :: l1), l2.
        split; [done|]. split; [done|].
        intros y [->|Hy]%elem_of_cons; [done|by apply Hl1].
      * intros y [->|Hy]%elem_of_cons; [done|by apply IH].
Qed.

Lemma handleQuickAdd_trace (w : env) (element : nat) (p : page) :
  exists l, trace (snd (handleQuickAdd w element p)) = trace p ++ l.
Proof. destruct (handleQuickAdd_events w element p) as (l & Htr & _). by exists l. Qed.

(** X20. The [click] listener takes over a click exactly when the target,
    or one of its ancestors, is a [product-quick-add] element whose
    [data-form] attribute is [false]; the control it then handles is the
    nearest one, starting from the target. Any other click is left alone,
    with no event and no change to the page. *)
Theorem click_intercepted_iff_inside_quick_add (w : env) (target : nat) (p : page) :
  let quick_add q := exists e, store p !! q = Some e /\ tag e = "product-quick-add" /\
                               attrs e !! "data-form" = Some "false" in
  let chain := target :: ancestors p target in
  ((exists q, q ∈ chain /\ quick_add q) <->
   exists l, trace (snd (on_click w target p)) =
               trace p ++ PreventDefault :: StopPropagation :: l) /\
  (~ (exists q, q ∈ chain /\ quick_add q) -> on_click w target p = (Ok tt, p)) /\
  (forall l1 q l2, chain = l1 ++ q :: l2 -> quick_add q ->
     (forall y, y ∈ l1 -> ~ quick_add y) ->
     on_click w target p =
       handleQuickAdd w q (emit StopPropagation (emit PreventDefault p))).
Proof.
  intros quick_add chain.
  assert (forall q, matches_compound (store p)
                      [IsTag "product-quick-add"; AttrIs "data-form" "false"] q = true
                    <-> quick_add q) as Hqa by (intros q; apply matches_quick_add).
  assert (forall q, closest p target sel_quick_add = Some q ->
            on_click w target p = handleQuickAdd w q (emit StopPropagation (emit PreventDefault p)))
    as Hsome.
  { intros q Hq. unfold on_click. unfold_monad. simpl. by rewrite Hq. }
  assert (closest p target sel_quick_add = None -> on_click w target p = (Ok tt, p)) as Hnone.
  { intros Hq. unfold on_click. unfold_monad. simpl. by rewrite Hq. }
  pose proof (closest_in_compound (store p)
                [IsTag "product-quick-add"; AttrIs "data-form" "false"] chain) as Hclosest.
  change (closest_in (store p) _ chain) with (closest p target sel_quick_add) in Hclosest.
  split; [split|split].
  - intros (q & Hin & Hq).
    destruct (closest p target sel_quick_add) as [q'|] eqn:Hc.
    + rewrite (Hsome q' eq_refl).
      destruct (handleQuickAdd_trace w q' (emit StopPropagation (emit PreventDefault p)))
        as (l & ->).
      exists l. simpl. by rewrite <- !app_assoc.
    + apply Hqa in Hq. by rewrite (Hclosest q Hin) in Hq.
  - intros (l & Htr).
    destruct (closest p target sel_quick_add) as [q'|] eqn:Hc.
    + destruct Hclosest as (l1 & l2 & Hchain & Hq' & _).
      exists q'. split; [|by apply Hqa]. rewrite Hchain. apply elem_of_app. right. by left.
    + exfalso. rewrite (Hnone eq_refl) in Htr. simpl in Htr.
      rewrite <- (app_nil_r (trace p)) in Htr at 1. by apply app_inv_head in Htr.
  - intros Hno. apply Hnone.
    destruct (closest p target sel_quick_add) as [q'|] eqn:Hc; [|done].
    exfalso. apply Hno. destruct Hclosest as (l1 & l2 & Hchain & Hq' & _).
    exists q'. split; [|by apply Hqa]. rewrite Hchain. apply elem_of_app. right. by left.
  - intros l1 q l2 Hchain Hq Hl1. apply Hsome.
    destruct (closest p target sel_quick_add) as [q'|] eqn:Hc.
    + destruct Hclosest as (k1 & k2 & Hchain' & Hq' & Hk1). f_equal.
      rewrite Hchain in Hchain'.
      destruct (decide (q' ∈ l1)) as [Hin|Hnin].
      { exfalso. apply (Hl1 q' Hin). by apply Hqa. }
      destruct (decide (q ∈ k1)) as [Hin|Hnin'].
      { exfalso. apply Hqa in Hq. by rewrite (Hk1 q Hin) in Hq. }
      by destruct (not_elem_of_app_cons_inv_l q q' l1 l2 k1 k2 Hnin' Hnin Hchain') as (_ & -> & _).
    + exfalso. apply Hqa in Hq. rewrite (Hclosest q) in Hq; [done|].
      rewrite Hchain. apply elem_of_app. right. by left.
Qed.

Lemma click_intercepted_iff_inside_quick_add_witness :
  on_click online 3 shop_page = (Ok tt, shop_page) /\
  on_click online 9 shop_page =
    handleQuickAdd online 8 (emit StopPropagation (emit PreventDefault shop_page)).
Proof.
  pose proof (click_intercepted_iff_inside_quick_add online 3 shop_page) as (_ & Hno & _).
  pose proof (click_intercepted_iff_inside_quick_add online 9 shop_page) as (_ & _ & Hnear).
  split.
  - apply Hno. intros (q & Hin & e & He & Htag & _).
    assert (Forall (fun q => forall e, shop_store !! q = Some e -> tag e <> "product-quick-add")
              (3%nat :: ancestors shop_page 3)) as HF.
    { vm_compute. repeat constructor; intros e' [= <-]; discriminate. }
    exact (proj1 (Forall_forall _ _) HF q Hin e He Htag).
  - apply (Hnear [9%nat] 8%nat [1%nat; 0%nat]).
    + reflexivity.
    + eexists. split; [reflexivity|]. split; reflexivity.
    + intros y ->%list_elem_of_singleton (e & He & Htag & _).
      injection He as <-. discriminate Htag.
Defined.
(** ** The inline styles the handler writes *)

Section styles.
Variable badge : nat -> Prop.

Lemma keeps_style_refl (p : page) : keeps_style badge p p.
Proof. split; [done|]. intros x e He. by exists e. Qed.

Lemma keeps_style_trans (p1 p2 p3 : page) :
  keeps_style badge p1 p2 -> keeps_style badge p2 p3 -> keeps_style badge p1 p3.
Proof.
  intros [Hb1 H1] [Hb2 H2]. split; [congruence|].
  intros x e He. destruct (H1 x e He) as (e' & He' & Ht1 & Hs1).
  destruct (H2 x e' He') as (e'' & He'' & Ht2 & Hs2).
  exists e''. split; [done|]. split; [congruence|]. intros Htag prop Hd Ho.
  rewrite Hs2, Hs1; try done; [by rewrite Ht1|by rewrite Hb1].
Qed.

Lemma keeps_style_same_store (p p' : page) :
  store p' = store p -> body_id p' = body_id p -> keeps_style badge p p'.
Proof. intros Hs Hb. split; [done|]. intros x e He. exists e. by rewrite Hs. Qed.

Lemma keeps_style_old_elements (p p' : page) :
  body_id p' = body_id p ->
  (forall x e, store p !! x = Some e -> store p' !! x = Some e) -> keeps_style badge p p'.
Proof. intros Hb H. split; [done|]. intros x e He. exists e. split; [by apply H|done]. Qed.

Lemma keeps_style_on_element (x : nat) (f : element -> element) (p : page) :
  (forall e, tag (f e) = tag e) ->
  (forall e prop, (prop = "display" -> ~ badge x) -> (x = body_id p -> prop <> "overflow") ->
     style (f e) !! prop = style e !! prop) ->
  keeps_style badge p (on_element x f p).
Proof.
  intros Htag Hf. split; [done|]. intros y e He.
  destruct (decide (x = y)) as [->|Hne].
  - exists (f e). rewrite store_on_element_eq, He. split; [done|]. split; [done|].
    intros _ prop Hd Ho. by apply Hf.
  - exists e. by rewrite store_on_element_ne.
Qed.

Lemma keeps_style_setAttribute (x : nat) (k v : string) (p : page) :
  keeps_style badge p (setAttribute x k v p).
Proof. by apply keeps_style_on_element. Qed.


Lemma keeps_style_counted (count : count_value) (p : page) :
  keeps_style badge p (counted count p).
Proof.
  unfold counted. generalize (select_all p sel_cart_count) as l. intros l. revert p.
  induction l as [|y l IH]; intros p; [apply keeps_style_refl|].
  simpl. eapply keeps_style_trans; [apply keeps_style_setAttribute|apply IH].
Qed.

Lemma keeps_style_display (b : nat) (v : string) (p : page) :
  (is_Some (store p !! b) -> badge b) ->
  keeps_style badge p (set_style b "display" v p).
Proof.
  intros Hb. split; [done|]. intros y e He. unfold set_style.
  destruct (decide (b = y)) as [->|Hne].
  - rewrite store_on_element_eq, He. eexists. split; [done|]. split; [done|].
    intros _ prop Hd _. simpl.
    rewrite lookup_insert_ne; [done|]. intros <-. apply Hd; [done|]. apply Hb. by eexists.
  - exists e. by rewrite store_on_element_ne.
Qed.

(** The badge an update shows or hides is an element of [badge], when the
    badge it finds is one. *)
Lemma keeps_style_updateCartCount (count : count_value) (p : page) :
  (forall h b, select p sel_header_cart = Some h -> select_in p h sel_badge = Some b ->
     badge b) ->
  keeps_style badge p (updateCartCount count p).
Proof.
  intros Hbadge. rewrite updateCartCount_unfold.
  destruct (select p sel_header_cart) as [h|] eqn:Hh; [|apply keeps_style_counted].
  rewrite find_or_create_badge_unfold.
  destruct (select_in p h sel_badge) as [b|] eqn:Hsel.
  - eapply keeps_style_trans; [apply keeps_style_counted|].
    destruct (count_positive count).
    + eapply keeps_style_trans; [|apply keeps_style_display; intros _; by apply (Hbadge h)].
      by apply keeps_style_same_store.
    + apply keeps_style_display. intros _. by apply (Hbadge h).
  - set (b := fresh (dom (store p))). cbv zeta. set (p2 := appendChild h b _).
    assert (store p !! b = None) as Hnew by (apply not_elem_of_dom, is_fresh).
    assert (forall x e, store p !! x = Some e ->
              exists e', store p2 !! x = Some e' /\ tag e' = tag e /\ style e' = style e)
      as H2.
    { intros x e He.
      assert (x <> b) as Hx by (intros ->; congruence).
      destruct (keeps_style_counted count p) as [_ Hc].
      unfold p2, appendChild, set_cssText, setAttribute. simpl.
      rewrite !lookup_alter_ne, lookup_insert_ne by done.
      unfold counted. rewrite store_foldl_setAttribute, He.
      destruct (decide _); simpl; by eexists. }
    assert (forall v q, store q = store p2 -> body_id q = body_id p ->
              keeps_style badge p (set_style b "display" v q)) as Hshow.
    { intros v q Hq Hbody. split; [done|]. intros x e He.
      assert (x <> b) as Hx by (intros ->; congruence).
      destruct (H2 x e He) as (e' & He' & Htag & Hstyle).
      exists e'. unfold set_style. rewrite store_on_element_ne, Hq by done.
      split; [done|]. split; [done|]. intros _ prop _ _. by rewrite Hstyle. }
    assert (body_id p2 = body_id p) as Hbody2.
    { unfold p2. simpl. unfold counted. generalize (select_all p sel_cart_count) as l.
      intros l. generalize p. induction l as [|y l IH]; intros q; simpl; [done|].
      by rewrite IH. }
    destruct (count_positive count); by apply Hshow.
Qed.

Lemma body_id_merged (w : env) (f : fragment) (c : nat) (p : page) :
  body_id (merged w f c p) = body_id p.
Proof.
  apply merged_ind.
  - unfold set_innerHTML.
    by destruct (instantiate_forest (store p) (parse_inner w (frag_innerHTML f))).
  - intros q attr <-. unfold put_attribute. by destruct (String.eqb (fst attr) "style").
Qed.

Lemma keeps_style_refresh_drawer (w : env) (html : option string) (p : page) :
  keeps_style badge p (snd (refresh_drawer w html p)).
Proof.
  destruct (refresh_drawer_cases w html p) as [->|(f & c & Hsel & ->)];
    [apply keeps_style_refl|].
  pose proof (head_elem _ _ Hsel) as Hcin.
  apply select_all_elem in Hcin as (a0 & _ & Hm).
  apply matches_IsTag in Hm as (e0 & He0 & Htag0). simpl in He0.
  split; [apply body_id_merged|].
  unfold merged, set_innerHTML.
  destruct (instantiate_forest (store p) (parse_inner w (frag_innerHTML f)))
    as [kids' h2] eqn:Hinst.
  destruct (instantiate_forest_instantiated _ _ _ _ Hinst) as (Hsub & _).
  set (q0 := set_store h2 (set_tree (with_children c (fun _ => kids') (tree p)) p)).
  assert (store q0 !! c = Some e0) as Hc0 by (by eapply lookup_weaken).
  destruct (put_attributes_effect w c (copied w (frag_attrs f)) e0 q0 Hc0)
    as (_ & Hother & e & He & Htag & _).
  intros x ex Hex. destruct (decide (x = c)) as [->|Hne].
  - exists e. split; [done|]. assert (ex = e0) as -> by congruence.
    split; [done|]. intros Hcart. by rewrite Htag0 in Hcart.
  - exists ex. rewrite Hother by done. split; [|done]. by eapply lookup_weaken.
Qed.




End styles.





(** ** The header cart that gets the badge *)

Lemma tree_counted (count : count_value) (p : page) : tree (counted count p) = tree p.
Proof. apply tree_foldl_setAttribute. Qed.

Lemma class_of_counted (count : count_value) (p : page) (i : nat) :
  class_of (store (counted count p)) i = class_of (store p) i.
Proof. by apply class_of_foldl_setAttribute. Qed.

Lemma class_of_updateCartCount_existing (count : count_value) (p : page) (h b : nat) :
  select p sel_header_cart = Some h -> select_in p h sel_badge = Some b ->
  forall i, class_of (store (updateCartCount count p)) i = class_of (store p) i.
Proof.
  intros Hh Hb i. rewrite updateCartCount_unfold, Hh, find_or_create_badge_unfold, Hb.
  destruct (count_positive count); rewrite class_of_set_style;
    try change (store (set_textContent b (count_string count) (counted count p)))
      with (store (counted count p));
    apply class_of_counted.
Qed.

(** X22. Only the header cart that is found first gets the badge. An update
    brings no badge under any other element: under an element that is
    neither that header cart nor one of its ancestors, the badges after the
    update are among those that were there, in the same order. A second
    header cart that has no badge stays without one. *)
Theorem badge_only_under_the_first_header_cart (count : option Z) (p : page) (h other : nat) :
  well_formed p ->
  select p sel_header_cart = Some h ->
  other ∉ h :: ancestors p h ->
  select_all_in (updateCartCount count p) other sel_badge
    `sublist_of` select_all_in p other sel_badge.
Proof.
  intros [Hnd Hdom] Hh Hother.
  pose proof (select_in_badges p h Hh) as Hbp.
  destruct (select_in p h sel_badge) as [b|] eqn:Hsel.
  - (* the badge is there: its children may go, nothing comes *)
    pose proof (class_of_updateCartCount_existing count p h b Hh Hsel) as Hclass.
    assert (walk [] (tree (updateCartCount count p)) `sublist_of` walk [] (tree p)) as Hsub.
    { destruct (count_positive count) eqn:Hpos.
      - assert (head (badges p) = Some b) as Hb by (by rewrite Hbp).
        destruct (prune_keeps_badge p (updateCartCount count p) h b
                    (text_children (count_string count))) as (_ & _ & _ & H4); try done.
        + rewrite updateCartCount_unfold, Hh, find_or_create_badge_unfold, Hsel, Hpos.
          simpl. by rewrite tree_counted.
        + intros anc. apply walk_forest_text_children.
      - rewrite updateCartCount_unfold, Hh, find_or_create_badge_unfold, Hsel, Hpos.
        simpl. by rewrite tree_counted. }
    unfold select_all_in. apply (fmap_sublist fst).
    rewrite (filter_ext_in _ (fun e => bool_decide (other ∈ snd e) &&
                                       matches (store p) sel_badge e)).
    + by apply filter_sublist_mono.
    + intros e _. unfold sel_badge. by rewrite (matches_class_ext (store p)).
  - (* a badge is made, under the header cart *)
    assert (badges p = []) as Hb.
    { rewrite Hbp. unfold select_in in Hsel. by destruct (select_all_in p h sel_badge). }
    set (b := fresh (dom (store p))).
    assert (store p !! b = None) as Hnew by (apply not_elem_of_dom, is_fresh).
    assert (b ∉ ids (tree p)) as Hfresh.
    { intros Hin. apply Hdom in Hin. by apply (is_fresh (dom (store p))). }
    set (kb := if count_positive count then text_children (count_string count) else []).
    set (p' := updateCartCount count p).
    assert (tree p' = with_children h (fun kids => kids ++ [Node b kb]) (tree p) /\
            (forall i, i <> b -> class_of (store p') i = class_of (store p) i) /\
            class_of (store p') b = Some "cart-count-badge") as (Ht' & Hc' & Hcb).
    { unfold p'. rewrite updateCartCount_unfold, Hh, find_or_create_badge_unfold, Hsel.
      fold b. cbv zeta. unfold kb.
      destruct (count_positive count); (split; [|split]).
      - simpl. rewrite tree_counted. by rewrite with_children_appended.
      - intros i Hi. rewrite class_of_set_style.
        unfold class_of, appendChild, set_cssText, setAttribute. simpl.
        rewrite !lookup_alter_ne, lookup_insert_ne by done.
        apply class_of_counted.
      - rewrite class_of_set_style.
        unfold class_of, appendChild, set_cssText, setAttribute. simpl.
        rewrite !lookup_alter_eq, lookup_insert_eq. simpl. by rewrite lookup_insert_eq.
      - simpl. by rewrite tree_counted.
      - intros i Hi. rewrite class_of_set_style.
        unfold class_of, appendChild, set_cssText, setAttribute. simpl.
        rewrite !lookup_alter_ne, lookup_insert_ne by done.
        apply class_of_counted.
      - rewrite class_of_set_style.
        unfold class_of, appendChild, set_cssText, setAttribute. simpl.
        rewrite !lookup_alter_eq, lookup_insert_eq. simpl. by rewrite lookup_insert_eq. }
    destruct (append_creates_badge p p' h b kb)
      as (_ & _ & pre & a & mid & post & HW & HW'); try done.
    { intros anc. unfold kb. destruct (count_positive count); [|done].
      apply walk_forest_text_children. }
    assert (NoDup (map fst (walk [] (tree p)))) as HndW by (by rewrite walk_ids).
    assert (ancestors p h = a) as Ha.
    { unfold ancestors. rewrite HW, find_fst_split; [done|].
      rewrite HW, map_app, map_cons in HndW. apply NoDup_app in HndW as (_ & Hdisj & _).
      intros Hin. apply (Hdisj h Hin). by left. }
    rewrite Ha in Hother.
    unfold select_all_in. rewrite HW, HW'. apply (fmap_sublist fst).
    assert (forall l : list (nat * list nat), l ⊆ walk [] (tree p) ->
              filter (fun e => bool_decide (other ∈ snd e) && matches (store p') sel_badge e) l
              = filter (fun e => bool_decide (other ∈ snd e) && matches (store p) sel_badge e) l)
      as Hext.
    { intros l Hl. apply filter_ext_in. intros e He. unfold sel_badge.
      rewrite (matches_class_ext (store p) (store p')); [done|]. apply Hc'.
      intros Heq. apply Hfresh. rewrite <- Heq. apply walk_elem_ids. by apply Hl. }
    assert (filter (fun e => bool_decide (other ∈ snd e) && matches (store p') sel_badge e)
              [(b, h :: a)] = []) as Hnil.
    { rewrite filter_cons, filter_nil. rewrite decide_False; [done|].
      simpl. intros [H _]%andb_prop_elim. by apply bool_decide_unpack in H. }
    assert (filter (fun e => bool_decide (other ∈ snd e) && matches (store p') sel_badge e)
              [(h, a)]
            = filter (fun e => bool_decide (other ∈ snd e) && matches (store p) sel_badge e)
              [(h, a)]) as Hha.
    { apply Hext. intros e ->%list_elem_of_singleton. rewrite HW.
      apply elem_of_app. right. by left. }
    change ((h, a) :: (mid ++ [(b, h :: a)]) ++ post)
      with ([(h, a)] ++ (mid ++ [(b, h :: a)]) ++ post).
    change ((h, a) :: mid ++ post) with ([(h, a)] ++ mid ++ post).
    rewrite !filter_app, Hnil, Hha, app_nil_r.
    rewrite (Hext pre), (Hext mid), (Hext post);
      try (intros e He; rewrite HW; repeat (rewrite elem_of_app || rewrite elem_of_cons); tauto).
    done.
Qed.

Lemma two_header_page_well_formed : well_formed two_header_page.
Proof.
  split.
  - apply (bool_decide_unpack _). vm_compute. exact I.
  - intros i Hi. apply elem_of_dom.
    assert (Forall (fun i => is_Some (store two_header_page !! i)) (ids (tree two_header_page)))
      as HF.
    { apply (bool_decide_unpack _). vm_compute. exact I. }
    by apply (proj1 (Forall_forall _ _) HF).
Qed.

Lemma badge_only_under_the_first_header_cart_witness :
  select_all two_header_page sel_header_cart = [2%nat; 11%nat] /\
  select_all_in (updateCartCount (Some 3) two_header_page) 11 sel_badge = [].
Proof.
  split; [reflexivity|].
  apply sublist_nil_r.
  apply (badge_only_under_the_first_header_cart (Some 3) two_header_page 2 11
           two_header_page_well_formed eq_refl).
  vm_compute. intros H.
  repeat (apply elem_of_cons in H as [H|H]; [discriminate H|]).
  by apply elem_of_nil in H.
Defined.

(** ** A submission that goes through *)

Lemma refreshAndOpenCartDrawer_fetched (w : env) (p : page) (ok : bool) (count : count_value)
    (html : option string) :
  server w (trace p) (section_request p) = Response ok (Some (JObject count html)) ->
  let run := refresh_drawer w html (emit (Fetch (section_request p)) p) in
  refreshAndOpenCartDrawer w p =
    (Ok tt,
     match fst run with
     | Ok _ => openCartDrawer (snd run)
     | Thrown e => emit (ConsoleError "Error refreshing cart:" (Some e)) (snd run)
     end).
Proof.
  intros Hserver. rewrite refreshAndOpenCartDrawer_unfold. cbv zeta.
  fold (section_request p). by rewrite Hserver.
Qed.

(** X23. The order of a submission that goes through. When the add request
    is accepted with a JSON body, the cart answers with a JSON object and
    the drawer section with a JSON object, the run of the [submit] listener
    on a cart-add form with an [id] is: the default submission is cancelled,
    the add request is sent, the cart is read, the count is written, the
    drawer section is fetched and merged, and, when the merge returns, the
    drawer is opened last. The three requests are then the only events
    besides the two calls on the event and what [openCartDrawer] adds. The
    merge returns when every attribute name of the fragment passes the test
    of [setAttribute]; when it throws, the error is logged in place of the
    opening, and the listener still returns normally. *)
Theorem successful_submission_pipeline (w : env) (f : form) (p : page) (j : json)
    (ok ok' : bool) (count count' : count_value) (html' html : option string) :
  let add := add_request (form_get (fields f) "id") (form_quantity f) in
  let p0 := emit StopPropagation (emit PreventDefault p) in
  let p2 := emit (Fetch cart_request) (emit (Fetch add) p0) in
  let p3 := updateCartCount count p2 in
  let p4 := emit (Fetch (section_request p)) p3 in
  let merge := refresh_drawer w html p4 in
  includes (action f) "/cart/add" = true ->
  truthy (form_get (fields f) "id") = true ->
  server w (trace p0) add = Response true (Some j) ->
  server w (trace p0 ++ [Fetch add]) cart_request = Response ok (Some (JObject count html')) ->
  server w (trace p0 ++ [Fetch add; Fetch cart_request]) (section_request p)
    = Response ok' (Some (JObject count' html)) ->
  trace (snd merge) =
    trace p ++ [PreventDefault; StopPropagation; Fetch add; Fetch cart_request;
                Fetch (section_request p)] /\
  (names_accepted w html -> fst merge = Ok tt) /\
  (fst merge = Ok tt -> on_submit w f p = (Ok tt, openCartDrawer (snd merge))) /\
  (forall e, fst merge = Thrown e ->
     on_submit w f p =
       (Ok tt, emit (ConsoleError "Error refreshing cart:" (Some InvalidCharacterError))
                 (snd merge))).
Proof.
  intros add p0 p2 p3 p4 merge Hact Hid Hadd Hcart Hsection.
  assert (section_request p3 = section_request p) as Hsec.
  { unfold section_request, p3. by rewrite origin_updateCartCount. }
  assert (trace p3 = trace p0 ++ [Fetch add; Fetch cart_request]) as Htr3.
  { unfold p3. rewrite trace_updateCartCount. simpl. by rewrite <- app_assoc. }
  assert (on_submit w f p =
          (Ok tt, match fst merge with
                  | Ok _ => openCartDrawer (snd merge)
                  | Thrown e => emit (ConsoleError "Error refreshing cart:" (Some e))
                                  (snd merge)
                  end)) as Hrun.
  { rewrite on_submit_intercepted by done.
    unfold handleFormSubmit. rewrite Hid. cbn [negb]. unfold try_catch.
    rewrite addToCart_unfold. cbv zeta. fold add. fold p0. rewrite Hadd.
    change (trace (emit (Fetch add) p0)) with (trace p0 ++ [Fetch add]).
    rewrite Hcart. fold p2. fold p3.
    rewrite (refreshAndOpenCartDrawer_fetched w p3 ok' count' html).
    + cbv zeta. by rewrite Hsec.
    + by rewrite Htr3, Hsec. }
  split; [|split; [|split]].
  - unfold merge. rewrite trace_refresh_drawer. unfold p4. simpl. rewrite Htr3. simpl.
    by rewrite <- !app_assoc.
  - apply refresh_drawer_returns.
  - intros Hok. by rewrite Hrun, Hok.
  - intros e He. pose proof (refresh_drawer_thrown _ _ _ _ He) as ->.
    by rewrite Hrun, He.
Qed.

Lemma successful_submission_pipeline_witness :
  on_submit online (sample_form []) shop_page =
    (Ok tt,
     openCartDrawer
       (snd (refresh_drawer online (Some drawer_section)
          (emit (Fetch (section_request shop_page))
             (updateCartCount (Some 3)
                (emit (Fetch cart_request)
                   (emit (Fetch (add_request (VStr "123") (VNum 1)))
                      (emit StopPropagation (emit PreventDefault shop_page))))))))).
Proof.
  exact (proj1 (proj2 (proj2 (successful_submission_pipeline online (sample_form [])
                  shop_page (JObject None None) true true (Some 3) None None
                  (Some drawer_section)
                  eq_refl eq_refl eq_refl eq_refl eq_refl))) eq_refl).
Defined.

(** ** The drawer after the count update *)

Lemma matches_compound_agree (k : string) (h h' : gmap nat element) (c : list simple) (i : nat) :
  agree_at k h h' i -> k ∉ omap simple_key c ->
  matches_compound h' c i = matches_compound h c i.
Proof.
  unfold agree_at, matches_compound. intros Hagree Hk.
  destruct (h !! i) as [e|], (h' !! i) as [e'|]; try done.
  destruct Hagree as [Htag Hattrs].
  induction c as [|s c IH]; [done|]. simpl. f_equal.
  - apply (matches_simple_same k); [done|done|].
    intros Hs. apply Hk. simpl. rewrite Hs. by left.
  - apply IH. intros Hin. apply Hk. simpl. destruct (simple_key s); [by right|done].
Qed.

Lemma closest_in_agree (k : string) (h h' : gmap nat element) (c : list simple)
    (chain : list nat) :
  (forall y, y ∈ chain -> agree_at k h h' y) -> k ∉ omap simple_key c ->
  closest_in h' (Compound c) chain = closest_in h (Compound c) chain.
Proof.
  intros Hagree Hk. induction chain as [|i up IH]; [done|]. simpl.
  rewrite (matches_compound_agree k h h') by (done || apply Hagree; by left).
  rewrite IH; [done|]. intros y Hy. apply Hagree. by right.
Qed.

Lemma find_unique (W : list (nat * list nat)) (x : nat) (a : list nat) :
  NoDup (map fst W) -> (x, a) ∈ W ->
  find (fun e => bool_decide (fst e = x)) W = Some (x, a).
Proof.
  intros Hnd Hin. apply list_elem_of_split in Hin as (l1 & l2 & ->).
  apply find_fst_split. rewrite map_app, map_cons in Hnd.
  apply NoDup_app in Hnd as (_ & Hdisj & _). intros Hx. apply (Hdisj x Hx). by left.
Qed.

Lemma ancestors_entry (p : page) (x : nat) (a : list nat) :
  NoDup (ids (tree p)) -> (x, a) ∈ walk [] (tree p) -> ancestors p x = a.
Proof.
  intros Hnd Hin. unfold ancestors. rewrite (find_unique _ x a); [done| |done].
  by rewrite walk_ids.
Qed.

Lemma ancestors_in_tree (t : dtree) (x : nat) (a : list nat) :
  NoDup (ids t) -> (x, a) ∈ walk [] t -> forall y, y ∈ a -> y ∈ ids t.
Proof.
  intros Hnd Hin y Hy. apply list_elem_of_split in Hin as (l1 & l2 & HW).
  pose proof (walk_ancestors_before t l1 l2 x a Hnd HW y Hy) as Hbefore.
  rewrite <- (walk_ids t []), HW, map_app. apply elem_of_app. by left.
Qed.

(** The first selected entry, when a stretch that does not hold it is taken
    out of the walk. *)
Lemma head_filter_without {P : nat * list nat -> Prop} `{forall e, Decision (P e)}
    (l1 mid l2 : list (nat * list nat)) :
  (forall e, head (filter P (l1 ++ mid ++ l2)) = Some e -> e ∉ mid) ->
  head (filter P (l1 ++ l2)) = head (filter P (l1 ++ mid ++ l2)).
Proof.
  intros Hout. revert Hout. rewrite !filter_app.
  destruct (filter P l1) as [|e l]; [|done]. simpl.
  destruct (filter P mid) as [|m ms] eqn:Hmid; [done|]. simpl.
  intros Hout. exfalso. apply (Hout m eq_refl).
  assert (m ∈ filter P mid) as Hin by (rewrite Hmid; by left).
  by apply list_elem_of_filter in Hin as [_ Hin].
Qed.

(** What the update does to the records that were there. *)
Lemma updateCartCount_old_records (count : count_value) (p : page) (x : nat) :
  is_Some (store p !! x) ->
  agree_at "data-cart-count" (store p) (store (updateCartCount count p)) x.
Proof.
  intros [e He].
  assert (agree_at "data-cart-count" (store p) (store (counted count p)) x) as Hcounted.
  { unfold agree_at, counted. rewrite store_foldl_setAttribute, He.
    destruct (decide _); simpl; [|done]. split; [done|].
    intros k' Hk'. by rewrite lookup_insert_ne. }
  assert (forall b v q, agree_at "data-cart-count" (store p) (store q) x ->
            agree_at "data-cart-count" (store p) (store (set_style b "display" v q)) x)
    as Hstyle.
  { intros b v q. unfold agree_at, set_style. rewrite He.
    destruct (decide (b = x)) as [->|Hne].
    - rewrite store_on_element_eq. by destruct (store q !! x).
    - by rewrite store_on_element_ne. }
  rewrite updateCartCount_unfold.
  destruct (select p sel_header_cart) as [h|]; [|done].
  rewrite find_or_create_badge_unfold.
  destruct (select_in p h sel_badge) as [b|].
  - destruct (count_positive count); by apply Hstyle.
  - set (b := fresh (dom (store p))). cbv zeta.
    assert (x <> b) as Hx.
    { intros ->. apply (is_fresh (dom (store p))). apply elem_of_dom. by eexists. }
    assert (agree_at "data-cart-count" (store p)
              (store (appendChild h b
                 (set_cssText b badge_css
                    (setAttribute b "class" "cart-count-badge"
                       (set_store (<[b := Element "span" ∅ ∅]> (store (counted count p)))
                          (counted count p)))))) x) as H2.
    { unfold agree_at in *. unfold appendChild, set_cssText, setAttribute. simpl.
      by rewrite !lookup_alter_ne, lookup_insert_ne. }
    destruct (count_positive count); by apply Hstyle.
Qed.

(** What the update does to the walk: nothing; or the children of the badge
    are taken out; or a new badge, which carries its class and nothing
    else, comes last under the header cart. *)
Lemma updateCartCount_walk (count : count_value) (p : page) :
  well_formed p ->
  let W := walk [] (tree p) in
  let W' := walk [] (tree (updateCartCount count p)) in
  W' = W \/
  (exists b a pre kids post,
     head (badges p) = Some b /\
     W = pre ++ (b, a) :: walk_forest (b :: a) kids ++ post /\
     W' = pre ++ (b, a) :: post) \/
  (exists b h a pre mid post e,
     (b ∉ ids (tree p)) /\
     W = pre ++ (h, a) :: mid ++ post /\
     W' = pre ++ (h, a) :: (mid ++ [(b, h :: a)]) ++ post /\
     store (updateCartCount count p) !! b = Some e /\
     attrs e = {["class" := "cart-count-badge"]}).
Proof.
  intros [Hnd Hdom] W W'. unfold W, W'.
  rewrite updateCartCount_unfold.
  destruct (select p sel_header_cart) as [h|] eqn:Hh; [|left; by rewrite tree_counted].
  pose proof (select_in_badges p h Hh) as Hbp.
  rewrite find_or_create_badge_unfold.
  destruct (select_in p h sel_badge) as [b|] eqn:Hsel.
  - destruct (count_positive count); [|left; simpl; by rewrite tree_counted].
    right. left.
    assert (head (badges p) = Some b) as Hb by (by rewrite Hbp).
    pose proof (head_elem _ _ Hb) as Hbin. rewrite Hbp in Hbin.
    apply select_all_in_elem in Hbin as (a0 & Hin0 & _).
    pose proof (walk_elem_ids _ _ Hin0) as Hbids. simpl in Hbids.
    destruct (walk_split b (tree p) [] Hbids Hnd)
      as (pre & a & kids & post & path & HW & _ & Hrw & _ & _).
    exists b, a, pre, kids, post. split; [done|]. split; [done|].
    simpl. rewrite tree_counted, Hrw. by rewrite walk_forest_text_children.
  - right. right.
    assert (badges p = []) as Hb.
    { rewrite Hbp. unfold select_in in Hsel. by destruct (select_all_in p h sel_badge). }
    set (b := fresh (dom (store p))). cbv zeta.
    assert (store p !! b = None) as Hnew by (apply not_elem_of_dom, is_fresh).
    assert (b ∉ ids (tree p)) as Hfresh.
    { intros Hin. apply Hdom in Hin. by apply (is_fresh (dom (store p))). }
    set (p2 := appendChild h b _).
    set (kb := if count_positive count then text_children (count_string count) else []).
    set (p' := if count_positive count
               then set_style b "display" "flex" (set_textContent b (count_string count) p2)
               else set_style b "display" "none" p2).
    assert (tree p' = with_children h (fun kids => kids ++ [Node b kb]) (tree p)) as Ht'.
    { unfold p', kb. destruct (count_positive count); simpl; rewrite tree_counted; [|done].
      by rewrite with_children_appended. }
    assert (forall i, i <> b -> class_of (store p') i = class_of (store p) i) as Hc'.
    { intros i Hi. unfold p'. destruct (count_positive count); rewrite class_of_set_style;
        unfold class_of, p2, appendChild, set_cssText, setAttribute; simpl;
        rewrite !lookup_alter_ne, lookup_insert_ne by done; apply class_of_counted. }
    assert (exists e, store p' !! b = Some e /\ attrs e = {["class" := "cart-count-badge"]})
      as (e & He & Hattrs).
    { assert (exists st, store p2 !! b =
                Some (Element "span" {["class" := "cart-count-badge"]} st)) as (st & H2).
      { unfold p2, appendChild, set_cssText, setAttribute. simpl.
        rewrite !lookup_alter_eq, lookup_insert_eq. simpl. rewrite insert_empty. by eexists. }
      unfold p'. destruct (count_positive count); unfold set_style;
        rewrite store_on_element_eq;
        try change (store (set_textContent b (count_string count) p2)) with (store p2);
        rewrite H2; simpl; by eexists. }
    destruct (append_creates_badge p p' h b kb)
      as (_ & _ & pre & a & mid & post & HW & HW'); try done.
    { intros anc. unfold kb. destruct (count_positive count); [|done].
      apply walk_forest_text_children. }
    { unfold class_of. rewrite He. simpl. rewrite Hattrs. by rewrite lookup_singleton_eq. }
    exists b, h, a, pre, mid, post, e.
    split; [exact Hfresh|]. split; [exact HW|]. split; [exact HW'|].
    split; [exact He|exact Hattrs].
Qed.

Lemma head_map {A B : Type} (f : A -> B) (l : list A) : head (map f l) = f <$> head l.
Proof. by destruct l. Qed.

(** The count update changes neither the drawer view that is found first
    nor the drawer around it, unless that view stands inside the badge. *)
Lemma drawer_of_updateCartCount (count : count_value) (p : page) :
  well_formed p ->
  (forall v b, select p sel_drawer_view = Some v -> head (badges p) = Some b ->
     b ∉ ancestors p v) ->
  drawer_of (updateCartCount count p) = drawer_of p.
Proof.
  intros Hwf Hbadge.
  pose proof (well_formed_updateCartCount count p Hwf) as [Hnd' _].
  pose proof (updateCartCount_walk count p Hwf) as Hshape. cbv zeta in Hshape.
  destruct Hwf as [Hnd Hdom].
  set (p' := updateCartCount count p) in *.
  assert (forall x, x ∈ ids (tree p) ->
            agree_at "data-cart-count" (store p) (store p') x) as Hagree.
  { intros x Hx. apply updateCartCount_old_records. by apply elem_of_dom, Hdom. }
  assert (forall e, e ∈ walk [] (tree p) ->
            (matches (store p') sel_drawer_view e <-> matches (store p) sel_drawer_view e))
    as Hext.
  { intros e He. simpl.
    rewrite (matches_compound_agree "data-cart-count" (store p) (store p')); [done| |not_a_key].
    by apply Hagree, walk_elem_ids. }
  (* an entry that is selected first does not stand under the badge *)
  assert (forall b a kids e,
            head (badges p) = Some b -> (b, a) ∈ walk [] (tree p) ->
            head (filter (fun e => matches (store p) sel_drawer_view e) (walk [] (tree p)))
              = Some e ->
            e ∉ walk_forest (b :: a) kids) as Hout.
  { intros b a kids e Hb Hba Hhead Hin.
    apply walk_forest_ancestors in Hin as (path & Hpath).
    assert (e ∈ walk [] (tree p)) as HeW.
    { apply head_elem in Hhead. by apply list_elem_of_filter in Hhead as [_ ?]. }
    apply (Hbadge (fst e) b); [|done|].
    - unfold select, select_all. by rewrite head_map, Hhead.
    - rewrite (ancestors_entry p (fst e) (snd e)); [|done|by destruct e].
      rewrite Hpath. apply elem_of_app. right. by left. }
  assert (head (filter (fun e => matches (store p') sel_drawer_view e) (walk [] (tree p')))
          = head (filter (fun e => matches (store p) sel_drawer_view e) (walk [] (tree p)))
          /\ (forall e, head (filter (fun e => matches (store p) sel_drawer_view e)
                                (walk [] (tree p))) = Some e -> e ∈ walk [] (tree p')))
    as [Hhead Hstays].
  { destruct Hshape as [HW'|[(b & a & pre & kids & post & Hb & HW & HW')
                            |(b & h & a & pre & mid & post & e & Hfresh & HW & HW' & He & Hattrs)]].
    - rewrite HW'. split.
      + f_equal. by apply filter_ext_in.
      + intros e He. apply head_elem in He. by apply list_elem_of_filter in He as [_ ?].
    - assert ((b, a) ∈ walk [] (tree p)) as Hba.
      { rewrite HW. apply elem_of_app. right. by left. }
      pose proof (fun e => Hout b a kids e Hb Hba) as Hout'.
      rewrite HW'. split.
      + rewrite (filter_ext_in _ (fun e => matches (store p) sel_drawer_view e)).
        2:{ intros e He. apply Hext. rewrite HW.
            revert He. repeat (rewrite elem_of_app || rewrite elem_of_cons). tauto. }
        rewrite HW.
        change (pre ++ (b, a) :: post) with (pre ++ [(b, a)] ++ post).
        change (pre ++ (b, a) :: walk_forest (b :: a) kids ++ post)
          with (pre ++ [(b, a)] ++ walk_forest (b :: a) kids ++ post).
        rewrite !(app_assoc pre). apply head_filter_without.
        intros e He. apply Hout'. rewrite HW.
        change (pre ++ (b, a) :: walk_forest (b :: a) kids ++ post)
          with (pre ++ [(b, a)] ++ walk_forest (b :: a) kids ++ post).
        by rewrite (app_assoc pre).
      + intros e He. pose proof (Hout' e He) as Hnot.
        apply head_elem in He. apply list_elem_of_filter in He as [_ He].
        rewrite HW in He. revert He Hnot.
        repeat (rewrite elem_of_app || rewrite elem_of_cons). tauto.
    - rewrite HW'. split.
      + assert (filter (fun e => matches (store p') sel_drawer_view e) [(b, h :: a)] = [])
          as Hnil.
        { rewrite filter_cons, filter_nil. rewrite decide_False; [done|].
          simpl. unfold matches_compound. rewrite He. simpl. rewrite Hattrs.
          rewrite lookup_singleton_ne by done. simpl. tauto. }
        change ((h, a) :: (mid ++ [(b, h :: a)]) ++ post)
          with ([(h, a)] ++ (mid ++ [(b, h :: a)]) ++ post).
        rewrite !filter_app, Hnil, app_nil_r, <- !filter_app.
        rewrite HW. f_equal. by apply filter_ext_in; rewrite <- HW.
      + intros e0 He0. apply head_elem in He0. apply list_elem_of_filter in He0 as [_ He0].
        rewrite HW in He0. revert He0.
        repeat (rewrite elem_of_app || rewrite elem_of_cons). tauto. }
  unfold drawer_of, select, select_all. rewrite !head_map, Hhead.
  destruct (head (filter (fun e => matches (store p) sel_drawer_view e) (walk [] (tree p))))
    as [[v A]|] eqn:Hv; [|done]. simpl.
  assert ((v, A) ∈ walk [] (tree p)) as HvW.
  { apply head_elem in Hv. by apply list_elem_of_filter in Hv as [_ ?]. }
  unfold closest.
  rewrite (ancestors_entry p v A Hnd HvW).
  rewrite (ancestors_entry p' v A Hnd' (Hstays _ eq_refl)).
  apply (closest_in_agree "data-cart-count"); [|not_a_key].
  intros y [->|Hy]%elem_of_cons.
  - apply Hagree. by apply (walk_elem_ids _ (v, A)).
  - apply Hagree. by apply (ancestors_in_tree (tree p) v A).
Qed.

Lemma body_id_emit (e : event) (p : page) : body_id (emit e p) = body_id p.
Proof. reflexivity. Qed.

Lemma body_id_updateCartCount (count : count_value) (p : page) :
  body_id (updateCartCount count p) = body_id p.
Proof. by destruct (keeps_style_updateCartCount (fun _ => True) count p). Qed.

Lemma body_id_refresh_drawer (w : env) (html : option string) (p : page) :
  body_id (snd (refresh_drawer w html p)) = body_id p.
Proof. by destruct (keeps_style_refresh_drawer (fun _ => True) w html p). Qed.

(** X24. An add that goes through ends with the cart drawer open. On a
    well-formed page that has a drawer around its first drawer view, and
    whose drawer view does not stand inside the header badge, when the
    three requests are answered ([/cart/add.js] accepted with a JSON body,
    [/cart.js] and the drawer section with a JSON object) and every
    attribute name of the [cart-element] of the section passes the test of
    [setAttribute], [addToCart] returns normally, the drawer the page had
    carries the open-state marker at the end, the body no longer scrolls,
    and the three requests are the only events of the run: no error is
    logged and nothing is activated. *)
Theorem successful_add_opens_the_drawer (w : env) (variantId quantity : value) (p : page)
    (drawer : nat) (j : json) (ok ok' : bool) (count count' : count_value)
    (html' html : option string) :
  let add := add_request variantId quantity in
  well_formed p ->
  drawer_of p = Some drawer ->
  (forall v b, select p sel_drawer_view = Some v -> head (badges p) = Some b ->
     b ∉ ancestors p v) ->
  server w (trace p) add = Response true (Some j) ->
  server w (trace p ++ [Fetch add]) cart_request = Response ok (Some (JObject count html')) ->
  server w (trace p ++ [Fetch add; Fetch cart_request]) (section_request p)
    = Response ok' (Some (JObject count' html)) ->
  names_accepted w html ->
  let p' := snd (addToCart w variantId quantity p) in
  fst (addToCart w variantId quantity p) = Ok tt /\
  getAttribute p' drawer "data-drawer-open" = Some "true" /\
  (is_Some (store p !! body_id p) ->
     get_style p' (body_id p) "overflow" = Some ("hidden", false)) /\
  trace p' = trace p ++ [Fetch add; Fetch cart_request; Fetch (section_request p)].
Proof.
  intros add Hwf Hd Hbadge Hadd Hcart Hsection Hnames p'.
  unfold p'. rewrite addToCart_unfold. cbv zeta. fold add. rewrite Hadd.
  change (trace (emit (Fetch add) p)) with (trace p ++ [Fetch add]).
  rewrite Hcart. cbn [fst snd]. split; [done|].
  set (p2 := emit (Fetch cart_request) (emit (Fetch add) p)).
  set (p3 := updateCartCount count p2).
  assert (well_formed p2) as Hwf2 by done.
  assert (well_formed p3) as Hwf3 by (by apply well_formed_updateCartCount).
  assert (drawer_of p3 = Some drawer) as Hd3.
  { unfold p3. rewrite drawer_of_updateCartCount; [done|done|]. exact Hbadge. }
  assert (section_request p3 = section_request p) as Hsec.
  { unfold section_request, p3. by rewrite origin_updateCartCount. }
  assert (trace p3 = trace p ++ [Fetch add; Fetch cart_request]) as Htr3.
  { unfold p3. rewrite trace_updateCartCount. simpl. by rewrite <- app_assoc. }
  rewrite (refreshAndOpenCartDrawer_fetched w p3 ok' count' html)
    by (by rewrite Htr3, Hsec).
  cbv zeta. rewrite refresh_drawer_returns by done.
  cbn [snd]. rewrite Hsec.
  set (p4 := snd (refresh_drawer w html (emit (Fetch (section_request p)) p3))).
  assert (well_formed (emit (Fetch (section_request p)) p3)) as Hwf3' by done.
  assert (drawer_of p4 = Some drawer) as Hd4.
  { unfold p4. by rewrite drawer_of_refresh_drawer. }
  assert (body_id p4 = body_id p) as Hbody.
  { unfold p4, p3. by rewrite body_id_refresh_drawer, body_id_emit, body_id_updateCartCount. }
  rewrite openCartDrawer_unfold, Hd4. split; [|split].
  - rewrite getAttribute_set_style. apply getAttribute_setAttribute_eq.
    by apply drawer_of_in_store.
  - intros Hb. rewrite Hbody. apply get_style_set_style_eq.
    apply store_setAttribute_is_Some.
    destruct Hb as [e He].
    destruct (preserves_updateCartCount count p2) as [_ H3].
    destruct (H3 _ e He) as (e3 & He3 & _). fold p3 in He3.
    destruct (preserves_refresh_drawer w html (emit (Fetch (section_request p)) p3))
      as [_ H4].
    destruct (H4 _ e3 He3) as (e4 & He4 & _). by exists e4.
  - simpl. unfold p4. rewrite trace_refresh_drawer. simpl. rewrite Htr3.
    by rewrite <- !app_assoc.
Qed.

Lemma successful_add_opens_the_drawer_witness :
  getAttribute (snd (addToCart online (VStr "123") (VNum 1) shop_page)) 5 "data-drawer-open"
    = Some "true" /\
  trace (snd (addToCart online (VStr "123") (VNum 1) shop_page)) =
    [Fetch (add_request (VStr "123") (VNum 1)); Fetch cart_request;
     Fetch (section_request shop_page)].
Proof.
  assert (forall v b, select shop_page sel_drawer_view = Some v ->
            head (badges shop_page) = Some b -> b ∉ ancestors shop_page v) as Hbadge.
  { intros v b _ Hb. discriminate Hb. }
  assert (names_accepted online (Some drawer_section)) as Hnames.
  { intros html f [= <-] [= <-]. reflexivity. }
  pose proof (successful_add_opens_the_drawer online (VStr "123") (VNum 1) shop_page 5
                (JObject None None) true true (Some 3) None None
                (Some drawer_section)
                shop_page_well_formed eq_refl Hbadge eq_refl eq_refl eq_refl Hnames)
    as (_ & Hopen & _ & Htrace).
  split; [exact Hopen|exact Htrace].
Defined.
